(** * Kairos: the layout / render / swap engine of clock.go

    A shallow embedding of the Go program [clock.go] (the terminal
    multi-timezone clock) and the proofs of its specification.

    Conventions of the embedding.
    - Go's [int] is a mathematical integer [Z]; division and remainder are
      Go's truncating ones ([Z.quot], [Z.rem]).  The one subtraction of the
      program that can leave the 64-bit range on an in-range argument
      ([getDayProgressBar]) has its wrap-around written out.
    - A Go [string] is the list of its runes (Unicode code points).  Every
      string of the program is valid UTF-8, so the rune list determines the
      bytes; [len] is the UTF-8 byte length.
    - [float64] is IEEE 754 binary64 as specified by the standard library's
      [SpecFloat] (precision 53, emax 1024).
    - A panic is the result [None].
    - The wall clock and the windowing library are outside the program:
      an instant is the record of local wall-clock fields that
      [time.Now().In(loc)] yields, and a view is the trace of the calls the
      program makes on it. *)

From Stdlib Require Import ZArith List String Ascii Lia Bool.
From Stdlib Require Import Floats.SpecFloat.
From Stdlib Require Import Reals Lra.
From stdpp Require Import base list.

Local Open Scope Z_scope.

(** ** Strings *)

Module GoString.

Definition rune := Z.
Definition gostring := list rune.

(** A string literal of the source whose characters are all ASCII. *)
Definition lit (s : string) : gostring :=
  map (fun a => Z.of_nat (nat_of_ascii a)) (list_ascii_of_string s).

(** Number of bytes of the UTF-8 encoding of one rune. *)
Definition utf8len (r : rune) : Z :=
  if r <? 128 then 1 else if r <? 2048 then 2 else if r <? 65536 then 3 else 4.

(** Go's builtin [len] on a string: its length in bytes. *)
Definition len (s : gostring) : Z :=
  fold_right (fun r n => utf8len r + n) 0 s.

(** [utf8.RuneCountInString]: the number of characters. *)
Definition runeCount (s : gostring) : Z := Z.of_nat (length s).

(** [strings.Repeat]: panics on a negative count, and when the length of
    the result, [len(s) * count], does not fit in an [int]. *)
Definition Repeat (s : gostring) (count : Z) : option gostring :=
  if count <? 0 then None
  else if 2 ^ 63 - 1 <? len s * count then None
  else Some (concat (replicate (Z.to_nat count) s)).

(** Decimal digits of a natural number, most significant first; the fuel
    bounds the number of digits. *)
Fixpoint digitsOf (fuel : nat) (n : Z) (acc : gostring) : gostring :=
  match fuel with
  | O => acc
  | S fuel' =>
      let acc' := (48 + n mod 10) :: acc in
      if n <? 10 then acc' else digitsOf fuel' (n / 10) acc'
  end.

(** The [%d] verb of [fmt] (and [strconv.Itoa]). *)
Definition itoa (n : Z) : gostring :=
  if n <? 0 then 45 :: digitsOf (S (Z.to_nat (Z.log2 (- n)))) (- n) []
  else digitsOf (S (Z.to_nat (Z.log2 n))) n [].

(** [appendInt] of package time: the sign if negative, then the decimal
    digits zero-padded to [width]. *)
Definition appendInt (n : Z) (width : nat) : gostring :=
  let d := itoa (Z.abs n) in
  (if n <? 0 then [45] else []) ++ replicate (width - length d)%nat 48 ++ d.

Fixpoint isPrefix (p s : gostring) : bool :=
  match p, s with
  | [], _ => true
  | _ :: _, [] => false
  | a :: p', b :: s' => (a =? b) && isPrefix p' s'
  end.

(** Escape, the first character of every ANSI style marker. *)
Definition ESC : rune := 27.

(** The block, emoji and marker constants of the source. *)
Definition fullBlock : gostring := [9608].          (* U+2588 *)
Definition greenCircle : gostring := [128994].      (* U+1F7E2 *)
Definition blackCircle : gostring := [9899].        (* U+26AB *)
Definition sunFace : gostring := [127774].          (* U+1F31E *)
Definition crescentMoon : gostring := [127769].     (* U+1F319 *)
Definition ansiBold : gostring := ESC :: lit "[1m".
Definition ansiReset : gostring := ESC :: lit "[0m".
Definition ansiYellow : gostring := ESC :: lit "[33m".
Definition ansiGreen : gostring := ESC :: lit "[32m".
Definition ansiRed : gostring := ESC :: lit "[31m".

End GoString.
Import GoString.

(** ** Instants: package time *)

Module GoTime.

Inductive Weekday :=
  Sunday | Monday | Tuesday | Wednesday | Thursday | Friday | Saturday.

(** The integer value of a [time.Weekday] constant (Sunday = 0). *)
Definition weekdayNum (d : Weekday) : Z :=
  match d with
  | Sunday => 0 | Monday => 1 | Tuesday => 2 | Wednesday => 3
  | Thursday => 4 | Friday => 5 | Saturday => 6
  end.

Definition weekdayName (d : Weekday) : gostring :=
  match d with
  | Sunday => lit "Sunday" | Monday => lit "Monday"
  | Tuesday => lit "Tuesday" | Wednesday => lit "Wednesday"
  | Thursday => lit "Thursday" | Friday => lit "Friday"
  | Saturday => lit "Saturday"
  end.

Inductive Month :=
  January | February | March | April | May | June
| July | August | September | October | November | December.

Definition monthNum (m : Month) : Z :=
  match m with
  | January => 1 | February => 2 | March => 3 | April => 4 | May => 5
  | June => 6 | July => 7 | August => 8 | September => 9
  | October => 10 | November => 11 | December => 12
  end.

Definition monthName (m : Month) : gostring :=
  match m with
  | January => lit "January" | February => lit "February"
  | March => lit "March" | April => lit "April" | May => lit "May"
  | June => lit "June" | July => lit "July" | August => lit "August"
  | September => lit "September" | October => lit "October"
  | November => lit "November" | December => lit "December"
  end.

(** The wall-clock reading of a [time.Time] in its location. *)
Record Time := mkTime {
  Year : Z;
  TMonth : Month;
  Day : Z;
  TWeekday : Weekday;
  Hour : Z;
  Minute : Z;
  Second : Z
}.

(** What package time guarantees of the clock fields. *)
Definition validClock (t : Time) : Prop :=
  0 <= Hour t < 24 /\ 0 <= Minute t < 60 /\ 0 <= Second t < 60.

Definition withSecond (t : Time) (s : Z) : Time :=
  mkTime (Year t) (TMonth t) (Day t) (TWeekday t) (Hour t) (Minute t) s.

(** The layout elements of [Time.Format] that the layouts of this program
    are made of. *)
Inductive stdChunk :=
| stdLongMonth | stdMonth | stdNumMonth | stdZeroMonth
| stdLongWeekDay | stdWeekDay
| stdDay | stdZeroDay
| stdHour | stdHour12 | stdZeroHour12
| stdMinute | stdZeroMinute
| stdSecond | stdZeroSecond
| stdLongYear | stdYear
| stdPM | stdpm.

Definition startsWithLowerCase (s : gostring) : bool :=
  match s with
  | [] => false
  | c :: _ => (97 <=? c) && (c <=? 122)
  end.

(** [nextStdChunk] at one position of the layout: the element that starts
    there, with the number of layout characters it takes. *)
Definition stdAt (l : gostring) : option (stdChunk * nat) :=
  match l with
  | 74 :: _ =>                                         (* 'J' *)
      if isPrefix (lit "Jan") l then
        if isPrefix (lit "January") l then Some (stdLongMonth, 7%nat)
        else if negb (startsWithLowerCase (drop 3 l)) then Some (stdMonth, 3%nat)
        else None
      else None
  | 77 :: _ =>                                         (* 'M' *)
      if isPrefix (lit "Mon") l then
        if isPrefix (lit "Monday") l then Some (stdLongWeekDay, 6%nat)
        else if negb (startsWithLowerCase (drop 3 l)) then Some (stdWeekDay, 3%nat)
        else None
      else None
  | 48 :: 49 :: _ => Some (stdZeroMonth, 2%nat)        (* 01 *)
  | 48 :: 50 :: _ => Some (stdZeroDay, 2%nat)          (* 02 *)
  | 48 :: 51 :: _ => Some (stdZeroHour12, 2%nat)       (* 03 *)
  | 48 :: 52 :: _ => Some (stdZeroMinute, 2%nat)       (* 04 *)
  | 48 :: 53 :: _ => Some (stdZeroSecond, 2%nat)       (* 05 *)
  | 48 :: 54 :: _ => Some (stdYear, 2%nat)             (* 06 *)
  | 49 :: 53 :: _ => Some (stdHour, 2%nat)             (* 15 *)
  | 49 :: _ => Some (stdNumMonth, 1%nat)               (* 1 *)
  | 50 :: _ =>
      if isPrefix (lit "2006") l then Some (stdLongYear, 4%nat)
      else Some (stdDay, 1%nat)                        (* 2 *)
  | 51 :: _ => Some (stdHour12, 1%nat)                 (* 3 *)
  | 52 :: _ => Some (stdMinute, 1%nat)                 (* 4 *)
  | 53 :: _ => Some (stdSecond, 1%nat)                 (* 5 *)
  | 80 :: 77 :: _ => Some (stdPM, 2%nat)               (* PM *)
  | 112 :: 109 :: _ => Some (stdpm, 2%nat)             (* pm *)
  | _ => None
  end.

Definition hour12 (t : Time) : Z :=
  let hr := Z.rem (Hour t) 12 in
  if hr =? 0 then 12 else hr.

(** One element of [appendFormat]. *)
Definition formatChunk (c : stdChunk) (t : Time) : gostring :=
  match c with
  | stdLongMonth => monthName (TMonth t)
  | stdMonth => take 3 (monthName (TMonth t))
  | stdNumMonth => appendInt (monthNum (TMonth t)) 0
  | stdZeroMonth => appendInt (monthNum (TMonth t)) 2
  | stdLongWeekDay => weekdayName (TWeekday t)
  | stdWeekDay => take 3 (weekdayName (TWeekday t))
  | stdDay => appendInt (Day t) 0
  | stdZeroDay => appendInt (Day t) 2
  | stdHour => appendInt (Hour t) 2
  | stdHour12 => appendInt (hour12 t) 0
  | stdZeroHour12 => appendInt (hour12 t) 2
  | stdMinute => appendInt (Minute t) 0
  | stdZeroMinute => appendInt (Minute t) 2
  | stdSecond => appendInt (Second t) 0
  | stdZeroSecond => appendInt (Second t) 2
  | stdLongYear => appendInt (Year t) 4
  | stdYear => appendInt (Z.rem (Year t) 100) 2
  | stdPM => if 12 <=? Hour t then lit "PM" else lit "AM"
  | stdpm => if 12 <=? Hour t then lit "pm" else lit "am"
  end.

(** The scan of [Time.Format]: literal characters are copied, an element
    is replaced by its value and its remaining characters are skipped. *)
Fixpoint formatFrom (layout : gostring) (skip : nat) (t : Time) : gostring :=
  match layout with
  | [] => []
  | c :: rest =>
      match skip with
      | S k => formatFrom rest k t
      | O =>
          match stdAt layout with
          | Some (std, n) => formatChunk std t ++ formatFrom rest (pred n) t
          | None => c :: formatFrom rest O t
          end
      end
  end.

(** [Time.Format], for layouts made of literal text and the elements of
    [stdChunk] (time zone, fractional-second and space-padded elements do
    not occur in the program). *)
Definition Format (t : Time) (layout : string) : gostring :=
  formatFrom (lit layout) O t.

End GoTime.
Import GoTime.

(** ** float64 *)

Module Float64.

Definition prec : Z := 53.
Definition emax : Z := 1024.

Definition float64 := spec_float.

(** The conversion [float64(n)] of an integer, rounding to nearest even. *)
Definition ofInt (n : Z) : float64 := binary_normalize prec emax n 0 false.

Definition div : float64 -> float64 -> float64 := SFdiv prec emax.
Definition mul : float64 -> float64 -> float64 := SFmul prec emax.
Definition sub : float64 -> float64 -> float64 := SFsub prec emax.

Definition minInt : Z := - 2 ^ 63.
Definition maxInt : Z := 2 ^ 63 - 1.

(** The conversion [int(f)]: the fraction is discarded.  Go leaves the
    result unspecified when the value does not fit an [int]; that is
    [None] here. *)
Definition toInt (f : float64) : option Z :=
  match f with
  | S754_zero _ => Some 0
  | S754_finite s m e =>
      let v := cond_Zopp s (Z.shiftl (Zpos m) e) in
      if (minInt <=? v) && (v <=? maxInt) then Some v else None
  | _ => None
  end.

(** Wrap-around of 64-bit signed arithmetic. *)
Definition wrap64 (z : Z) : Z := (z + 2 ^ 63) mod 2 ^ 64 - 2 ^ 63.

End Float64.

(** ** The glyph atlas *)

(** A row of a glyph as the source draws it, '#' standing for the full
    block U+2588. *)
Definition art (s : string) : gostring :=
  map (fun c => if c =? 35 then 9608 else c) (lit s).

Definition glyph (a b c d e : string) : list gostring :=
  [art a; art b; art c; art d; art e].

(** The map [digits]. *)
Definition digits (r : rune) : option (list gostring) :=
  if r =? 48 then Some (glyph "#####" "#   #" "#   #" "#   #" "#####")
  else if r =? 49 then Some (glyph "  #  " " ##  " "  #  " "  #  " "#####")
  else if r =? 50 then Some (glyph "#####" "    #" "#####" "#    " "#####")
  else if r =? 51 then Some (glyph "#####" "    #" "#####" "    #" "#####")
  else if r =? 52 then Some (glyph "#   #" "#   #" "#####" "    #" "    #")
  else if r =? 53 then Some (glyph "#####" "#    " "#####" "    #" "#####")
  else if r =? 54 then Some (glyph "#####" "#    " "#####" "#   #" "#####")
  else if r =? 55 then Some (glyph "#####" "    #" "    #" "    #" "    #")
  else if r =? 56 then Some (glyph "#####" "#   #" "#####" "#   #" "#####")
  else if r =? 57 then Some (glyph "#####" "#   #" "#####" "    #" "#####")
  else if r =? 58 then Some (glyph "     " "  #  " "     " "  #  " "     ")
  else if r =? 65 then Some (glyph "     " " ##  " "#  # " "#### " "#  # ")
  else if r =? 77 then Some (glyph "     " "# # #" "#####" "# # #" "#   #")
  else if r =? 80 then Some (glyph "     " "#### " "#  # " "#### " "#    ")
  else if r =? 32 then Some (glyph "     " "     " "     " "     " "     ")
  else None.

(** [PrintTimeASCII]: the five lines of the block-character rendering.  A
    character without a glyph is skipped. *)
Definition PrintTimeASCII (t : gostring) : list gostring :=
  fold_left
    (fun lines char =>
       match digits char with
       | None => lines
       | Some glyphRows => zip_with (fun line row => line ++ row ++ [32]) lines glyphRows
       end)
    t (replicate 5 []).

(** ** Derived indicators *)

(** [getBusinessHoursIndicator]. *)
Definition getBusinessHoursIndicator (now : Time) : gostring :=
  let hour := Hour now in
  let weekday := weekdayNum (TWeekday now) in
  if (weekdayNum Monday <=? weekday) && (weekday <=? weekdayNum Friday)
     && (9 <=? hour) && (hour <? 17)
  then greenCircle
  else blackCircle.

(** [getDayNightIcon]. *)
Definition getDayNightIcon (now : Time) : gostring :=
  if (6 <=? Hour now) && (Hour now <? 18) then sunFace else crescentMoon.

(** The pieces of [getDayProgressBar], named as its local variables. *)
Module DayProgress.
Import Float64.

Definition secondsElapsed (now : Time) : float64 :=
  ofInt (Hour now * 3600 + Minute now * 60 + Second now).

Definition totalSeconds : float64 := ofInt 86400.

Definition percent (now : Time) : float64 :=
  div (secondsElapsed now) totalSeconds.

Definition remainingSecs (now : Time) : option Z :=
  toInt (sub totalSeconds (secondsElapsed now)).

Definition timeRemainingOf (remainingSecs : Z) : gostring :=
  lit " " ++ itoa (remainingSecs ÷ 3600) ++ lit "h "
    ++ itoa (Z.rem remainingSecs 3600 ÷ 60) ++ lit "m left".

Definition barWidthOf (width : Z) (timeRemaining : gostring) : Z :=
  let barWidth := wrap64 (wrap64 (width - 2) - len timeRemaining) in
  if barWidth <? 0 then 0 else barWidth.

Definition fillWidthOf (barWidth : Z) (now : Time) : option Z :=
  toInt (mul (ofInt barWidth) (percent now)).

Definition color (now : Time) : gostring :=
  let c := ansiGreen in
  let c := if (17 <=? Hour now) && (Hour now <? 21) then ansiYellow else c in
  if (21 <=? Hour now) || (Hour now <? 5) then ansiRed else c.

End DayProgress.

(** [getDayProgressBar]. *)
Definition getDayProgressBar (now : Time) (width : Z) : option gostring :=
  remainingSecs ← DayProgress.remainingSecs now;
  let timeRemaining := DayProgress.timeRemainingOf remainingSecs in
  let barWidth := DayProgress.barWidthOf width timeRemaining in
  fillWidth ← DayProgress.fillWidthOf barWidth now;
  filled ← Repeat fullBlock fillWidth;
  blank ← Repeat (lit " ") (barWidth - fillWidth);
  let bar := lit "[" ++ filled ++ blank ++ lit "]" in
  Some (DayProgress.color now ++ bar ++ timeRemaining ++ ansiReset).

(** ** The text renderer *)

(** [strings.NewReplacer(old1, new1, ...).Replace]: the target is scanned
    once from the left; at each position the pairs are tried in argument
    order and the first whose (non-empty) old string starts there is
    replaced; matches do not overlap. *)
Fixpoint replaceFrom (pairs : list (gostring * gostring)) (s : gostring)
    (skip : nat) : gostring :=
  match s with
  | [] => []
  | c :: rest =>
      match skip with
      | S k => replaceFrom pairs rest k
      | O =>
          match List.find (fun p => isPrefix (fst p) s) pairs with
          | Some (old, new) => new ++ replaceFrom pairs rest (pred (length old))
          | None => c :: replaceFrom pairs rest O
          end
      end
  end.

Definition Replace (pairs : list (gostring * gostring)) (s : gostring) : gostring :=
  replaceFrom pairs s O.

(** The replacer of [CenterDate]. *)
Definition repl : list (gostring * gostring) :=
  [(ansiBold, []); (ansiReset, []); (ansiYellow, []); (ansiGreen, []); (ansiRed, [])].

(** The calls the program makes on a [gocui.View]. *)
Inductive ViewOp :=
| Clear
| Write (s : gostring)
| SetCursor (x y : Z).

Definition Fprint (s : gostring) : ViewOp := Write s.
Definition Fprintln (s : gostring) : ViewOp := Write (s ++ [10]).

Section Render.

(** [runewidth.StringWidth], the display width in terminal columns, is a
    function of the go-runewidth library. *)
Variable StringWidth : gostring -> Z.

(** [CenterTime]. *)
Definition CenterTime (s : gostring) (width : Z) : gostring :=
  let pad := (width - StringWidth s) ÷ 2 in
  if 0 <? pad then replicate (Z.to_nat pad) 32 ++ s else s.

(** [CenterDate]. *)
Definition CenterDate (s : gostring) (width : Z) : gostring :=
  let clean := Replace repl s in
  let pad := (width - StringWidth clean) ÷ 2 in
  if 0 <? pad then replicate (Z.to_nat pad) 32 ++ s else s.

(** The time layout chosen by the blinking-colon logic. *)
Definition blinkFormat (now : Time) : string :=
  if negb (Z.rem (Second now) 2 =? 0) then "03 04 PM"%string else "03:04 PM"%string.

(** The plain-text branch of [UpdateViewTime]. *)
Definition plainTextOps (now : Time) (width height : Z) : option (list ViewOp) :=
  bar ← getDayProgressBar now width;
  Some [ Clear;
         Write (10 :: CenterDate (Format now "03:04:05 PM") width);
         Write (10 :: CenterDate (Format now "Mon, Jan 2") width);
         SetCursor 0 (height - 1);
         Fprint bar ].

(** The ASCII-art branch of [UpdateViewTime]. *)
Definition artOps (now : Time) (width height : Z) : option (list ViewOp) :=
  let asciiArt := PrintTimeASCII (Format now (blinkFormat now)) in
  let dateStr := ansiBold ++ Format now "Monday, January 2, 2006" ++ ansiReset in
  bar ← getDayProgressBar now width;
  Some ([ Clear; Fprint [10] ]
        ++ map (fun line => Fprintln (CenterTime line width)) asciiArt
        ++ [ Fprintln (CenterDate dateStr width);
             Fprintln (CenterDate (getBusinessHoursIndicator now) width);
             SetCursor 0 (height - 1);
             Fprint bar ]).

(** [UpdateViewTime], on a view of inner size [width] x [height] whose
    location shows the instant [now]. *)
Definition UpdateViewTime (now : Time) (width height : Z) : option (list ViewOp) :=
  if height <? 8 then plainTextOps now width height
  else artOps now width height.

End Render.

(** ** The grid layout *)

Record Rect := mkRect { x0 : Z; y0 : Z; x1 : Z; y1 : Z }.

Definition itemsPerRow : Z := 3.

Definition gridMaxY (maxY : Z) : Z := maxY - 3.
Definition rowHeight (maxY : Z) : Z := gridMaxY maxY ÷ 3.
Definition colWidth (maxX : Z) : Z := maxX ÷ itemsPerRow.

(** The rectangle of the view "top". *)
Definition topRect (maxX maxY : Z) : Rect :=
  mkRect 0 0 (maxX - 1) (rowHeight maxY - 1).

(** The rectangle of the view "bottom<i>", the body of the grid loop. *)
Definition bottomRect (maxX maxY i : Z) : Rect :=
  let rowNum := (i - 1) ÷ itemsPerRow in
  let colNum := Z.rem (i - 1) itemsPerRow in
  let x0 := colNum * colWidth maxX in
  let y0 := (rowNum + 1) * rowHeight maxY in
  let x1 := x0 + colWidth maxX - 1 in
  let y1 := y0 + rowHeight maxY - 1 in
  let x1 := if colNum =? itemsPerRow - 1 then maxX - 1 else x1 in
  let y1 := if rowNum =? 1 then gridMaxY maxY - 1 else y1 in
  mkRect x0 y0 x1 y1.

(** The rectangle of the view "help". *)
Definition helpRect (maxX maxY : Z) : Rect :=
  mkRect (-1) (maxY - 3) maxX (maxY - 1).

Record Placement := mkPlacement { viewName : gostring; viewRect : Rect }.

Definition bottomName (i : Z) : gostring := lit "bottom" ++ itoa i.

Section Gui.

(** [g.SetView] belongs to the windowing library; [true] stands for the
    results [nil] and [ErrUnknownView], [false] for any other error, on
    which [layout] returns at once. *)
Variable SetView : gostring -> Rect -> bool.

(** The grid loop [for i := 1; i < len(timezones); i++]. *)
Fixpoint gridLoop (maxX maxY : Z) (idxs : list Z) (placed : list Placement)
    : list Placement * bool :=
  match idxs with
  | [] => (placed, true)
  | i :: idxs' =>
      let r := bottomRect maxX maxY i in
      if SetView (bottomName i) r
      then gridLoop maxX maxY idxs' (placed ++ [mkPlacement (bottomName i) r])
      else (placed, false)
  end.

(** [layout] with [n] configured timezones ([n >= 1], checked by
    [runGUI]): the views placed, in call order, and whether it returned
    [nil].  The title and the content that [layout] then gives a placed
    view come from the indicators and [UpdateViewTime] above and do not
    change the placement. *)
Definition layout (maxX maxY : Z) (n : nat) : list Placement * bool :=
  if SetView (lit "top") (topRect maxX maxY) then
    let top := mkPlacement (lit "top") (topRect maxX maxY) in
    match gridLoop maxX maxY (seqZ 1 (Z.of_nat n - 1)) [top] with
    | (placed, true) =>
        if SetView (lit "help") (helpRect maxX maxY)
        then (placed ++ [mkPlacement (lit "help") (helpRect maxX maxY)], true)
        else (placed, false)
    | (placed, false) => (placed, false)
    end
  else ([], false).

End Gui.

(** The rectangles of the [K] secondary views. *)
Definition secondaryRects (maxX maxY K : Z) : list Rect :=
  map (bottomRect maxX maxY) (seqZ 1 K).

(** All rectangles that [layout] computes for [K] secondary slots. *)
Definition layoutRects (maxX maxY K : Z) : list Rect :=
  topRect maxX maxY :: secondaryRects maxX maxY K ++ [helpRect maxX maxY].

(** A character cell lies in a rectangle (corners inclusive). *)
Definition inRect (r : Rect) (x y : Z) : Prop :=
  x0 r <= x <= x1 r /\ y0 r <= y <= y1 r.

(** Number of cells of a rectangle; an inverted rectangle has none. *)
Definition area (r : Rect) : Z :=
  Z.max 0 (x1 r - x0 r + 1) * Z.max 0 (y1 r - y0 r + 1).

Definition areaSum (rs : list Rect) : Z :=
  fold_right (fun r n => area r + n) 0 rs.

(** No cell lies in two rectangles of the list. *)
Definition pairwiseDisjoint (rs : list Rect) : Prop :=
  forall (i j : nat) (ri rj : Rect) (x y : Z),
    rs !! i = Some ri -> rs !! j = Some rj -> i <> j ->
    inRect ri x y -> inRect rj x y -> False.

(** Every cell of the W x H grid lies in some rectangle of the list. *)
Definition coversGrid (W H : Z) (rs : list Rect) : Prop :=
  forall x y : Z, 0 <= x < W -> 0 <= y < H ->
    exists r, r ∈ rs /\ inRect r x y.

(** The tiling property: disjoint, covering, areas summing to W x H. *)
Definition tilesGrid (W H : Z) (rs : list Rect) : Prop :=
  pairwiseDisjoint rs /\ coversGrid W H rs /\ areaSum rs = W * H.

(** ** The timezone ordering store *)

Record TimezoneConfig := mkTimezone { Name : gostring; Location : gostring }.

(** The globals that a swap touches. *)
Record Store := mkStore {
  timezones : list TimezoneConfig;
  notification : gostring
}.

(** Indexing a slice: out of range is a panic. *)
Definition index {A} (l : list A) (i : Z) : option A :=
  if i <? 0 then None else l !! Z.to_nat i.

(** [timezones[a], timezones[b] = timezones[b], timezones[a]]. *)
Definition swapSlots {A} (l : list A) (a b : Z) : option (list A) :=
  va ← index l a;
  vb ← index l b;
  Some (<[Z.to_nat b := va]> (<[Z.to_nat a := vb]> l)).

(** [showNotification]; its timer, that clears the message three seconds
    later, is not part of the store. *)
Definition showNotification (msg : gostring) (st : Store) : Store :=
  mkStore (timezones st) msg.

(** The handler that [KeyBindings] binds to the digit key [idx]. *)
Definition swapKey (idx : Z) (st : Store) : option Store :=
  if Z.of_nat (length (timezones st)) <=? idx then Some st
  else
    top ← index (timezones st) 0;
    let oldTop := Name top in
    tzs ← swapSlots (timezones st) 0 idx;
    newTop ← index tzs 0;
    Some (showNotification (lit "Swapped " ++ oldTop ++ lit " with " ++ Name newTop)
            (mkStore tzs (notification st))).

(** ** The third program text of clock.go (hard-coded timezones) *)

Module Variant3.

(** [SwapTimezones]. *)
Definition SwapTimezones {A} (timezones : list A) (idxA idxB : Z) : option (list A) :=
  if idxB <? Z.of_nat (length timezones) then swapSlots timezones idxA idxB
  else Some timezones.

(** The handler bound to the key of position [i] in ['1'..'6']. *)
Definition swapKey {A} (i : Z) (timezones : list A) : option (list A) :=
  let targetIdx := i + 1 in
  SwapTimezones timezones 0 targetIdx.

Section Render.
Variable StringWidth : gostring -> Z.

(** [CenterTime] of this text pads on both sides. *)
Definition CenterTime (s : gostring) (width : Z) : gostring :=
  let padSize := (width - StringWidth s) ÷ 2 in
  if 0 <? padSize
  then replicate (Z.to_nat padSize) 32 ++ s ++ replicate (Z.to_nat padSize) 32
  else s.

(** [CenterDate] of this text: two [strings.Replace] calls. *)
Definition CenterDate (s : gostring) (width : Z) : gostring :=
  let cleanString := Replace [(ansiBold, [])] s in
  let cleanString := Replace [(ansiReset, [])] cleanString in
  let padSize := (width - StringWidth cleanString) ÷ 2 in
  if 0 <? padSize
  then replicate (Z.to_nat padSize) 32 ++ s ++ replicate (Z.to_nat padSize) 32
  else s.

Definition plainTextOps (now : Time) (width : Z) : list ViewOp :=
  [ Clear; SetCursor 2 1;
    Write ([10; 10] ++ CenterDate (Format now "03:04:05 PM") width);
    Write (10 :: CenterDate (Format now "Mon, Jan 2") width) ].

Definition artOps (now : Time) (width : Z) : list ViewOp :=
  let timeStr := Format now "03:04 PM" in
  let asciiArt := PrintTimeASCII timeStr in
  let date := ansiBold ++ Format now "Monday, January 2, 2006" ++ ansiReset in
  [ Clear; SetCursor 2 1; Fprint [10; 10] ]
  ++ map (fun line => Fprintln (CenterTime line width)) asciiArt
  ++ [ Fprint [10]; Fprintln (CenterDate date width) ].

(** [UpdateViewTime] of this text. *)
Definition UpdateViewTime (now : Time) (width height : Z) : list ViewOp :=
  if height <? 7 then plainTextOps now width else artOps now width.

End Render.

End Variant3.

(** ** The help footer of [layout] *)

(** The status part of the footer: the statistics, or the notification in
    yellow and bold when there is one. *)
Definition statusPart (currentCPU currentMEM notification : gostring) : gostring :=
  let statusPart := currentCPU ++ lit " | " ++ currentMEM in
  if bool_decide (notification <> [])
  then ansiYellow ++ ansiBold ++ lit " " ++ notification ++ lit " " ++ ansiReset
  else statusPart.

(** The footer text; [heartbeat] is the wall clock formatted "15:04:05". *)
Definition footerText (currentCPU currentMEM notification heartbeat : gostring)
  : gostring :=
  lit "Keys [1-6] to swap timezones | Ctrl+C to quit | "
  ++ statusPart currentCPU currentMEM notification ++ lit " " ++ heartbeat.

(** ** The add and remove commands of [main] *)

(** What a command leaves behind: the timezones, whether [saveConfig] was
    called, and the text printed. *)
Record CommandResult := mkCommandResult {
  resultTimezones : list TimezoneConfig;
  resultSaved : bool;
  resultOutput : gostring
}.

(** The branch [case "add"] with its two arguments. *)
Definition addCommand (name location : gostring) (timezones : list TimezoneConfig)
  : CommandResult :=
  mkCommandResult (timezones ++ [mkTimezone name location]) true
    (lit "Added " ++ name ++ lit " successfully!" ++ [10]).

(** The loop of [case "remove"]: the entries kept and whether one was
    dropped. *)
Definition removeLoop (name : gostring) (timezones : list TimezoneConfig)
  : list TimezoneConfig * bool :=
  fold_left
    (fun '(newList, found) tz =>
       if bool_decide (Name tz <> name) then (newList ++ [tz], found)
       else (newList, true))
    timezones ([], false).

(** The branch [case "remove"] with its argument. *)
Definition removeCommand (name : gostring) (timezones : list TimezoneConfig)
  : CommandResult :=
  let '(newList, found) := removeLoop name timezones in
  if negb found
  then mkCommandResult timezones false
         (lit "Timezone '" ++ name ++ lit "' not found." ++ [10])
  else mkCommandResult newList true
         (lit "Removed " ++ name ++ lit " successfully!" ++ [10]).

(** ** The first program text of clock.go *)

Module Variant1.

(** The handler that [KeyBindings] binds to the digit key [idx]: the swap
    without a bounds check. *)
Definition swapKey {A} (idx : Z) (timezones : list A) : option (list A) :=
  swapSlots timezones 0 idx.

Definition gridMaxY (maxY : Z) : Z := maxY - 2.
Definition rowHeight (maxY : Z) : Z := gridMaxY maxY ÷ 3.

Definition topRect (maxX maxY : Z) : Rect :=
  mkRect 0 0 (maxX - 1) (rowHeight maxY - 1).

Definition bottomRect (maxX maxY i : Z) : Rect :=
  let rowNum := (i - 1) ÷ itemsPerRow in
  let colNum := Z.rem (i - 1) itemsPerRow in
  let x0 := colNum * colWidth maxX in
  let y0 := (rowNum + 1) * rowHeight maxY in
  let x1 := x0 + colWidth maxX - 1 in
  let y1 := y0 + rowHeight maxY - 1 in
  let x1 := if colNum =? itemsPerRow - 1 then maxX - 1 else x1 in
  let y1 := if rowNum =? 1 then gridMaxY maxY - 1 else y1 in
  mkRect x0 y0 x1 y1.

Definition helpRect (maxX maxY : Z) : Rect :=
  mkRect 0 (maxY - 2) (maxX - 1) (maxY - 1).

(** All rectangles that its [layout] computes for [K] secondary slots. *)
Definition layoutRects (maxX maxY K : Z) : list Rect :=
  topRect maxX maxY :: map (bottomRect maxX maxY) (seqZ 1 K) ++ [helpRect maxX maxY].

End Variant1.

(** ** The grid of the third program text *)

Module Variant3Grid.

Definition gridMaxY (maxY : Z) : Z := maxY - 2.
Definition rowHeight (maxY : Z) : Z := gridMaxY maxY ÷ 3.

Definition topRect (maxX maxY : Z) : Rect :=
  mkRect 0 0 (maxX - 1) (rowHeight maxY - 1).

(** The last column absorbs the remainder of the width; no row absorbs the
    remainder of the height. *)
Definition bottomRect (maxX maxY i : Z) : Rect :=
  let columnWidth := maxX ÷ itemsPerRow in
  let rowNum := (i - 1) ÷ itemsPerRow in
  let colNum := Z.rem (i - 1) itemsPerRow in
  let x0 := colNum * columnWidth in
  let x1 := x0 + columnWidth - 1 in
  let x1 := if colNum =? itemsPerRow - 1 then maxX - 1 else x1 in
  let y0 := (rowNum + 1) * rowHeight maxY in
  let y1 := y0 + rowHeight maxY - 1 in
  mkRect x0 y0 x1 y1.

Definition helpRect (maxX maxY : Z) : Rect :=
  mkRect 0 (maxY - 2) (maxX - 1) (maxY - 1).

Definition layoutRects (maxX maxY K : Z) : list Rect :=
  topRect maxX maxY :: map (bottomRect maxX maxY) (seqZ 1 K) ++ [helpRect maxX maxY].

End Variant3Grid.

(** ** View switching of the third program text *)

(** The loop of [SwitchView] that looks for the current view: its position,
    or 0 when no view of the list is current. *)
Fixpoint currentIndex (views : list gostring) (current : option gostring) (i : Z) : Z :=
  match views with
  | [] => 0
  | view :: rest =>
      if bool_decide (current = Some view) then i
      else currentIndex rest current (i + 1)
  end.

(** [SwitchView]: the view that is current afterwards; views are known by
    their names. *)
Definition SwitchView (views : list gostring) (current : option gostring) (next : bool)
  : option (option gostring) :=
  let n := Z.of_nat (length views) in
  if n <? 2 then Some current
  else
    let currentIdx := currentIndex views current 0 in
    let currentIdx :=
      if next then Z.rem (currentIdx + 1) n else Z.rem (currentIdx - 1 + n) n in
    view ← index views currentIdx;
    Some (Some view).

Definition NextView (views : list gostring) (current : option gostring) :=
  SwitchView views current true.

Definition PrevView (views : list gostring) (current : option gostring) :=
  SwitchView views current false.

(** ** Predicates of the specification *)

(** A weekday from Monday to Friday. *)
Definition isMonToFri (d : Weekday) : Prop :=
  d = Monday \/ d = Tuesday \/ d = Wednesday \/ d = Thursday \/ d = Friday.

(** [l'] is [l] with the slots 0 and [k] exchanged and nothing else
    changed. *)
Definition exchanged {A} (k : nat) (l l' : list A) : Prop :=
  length l' = length l
  /\ l' !! 0%nat = l !! k
  /\ l' !! k = l !! 0%nat
  /\ forall j : nat, j <> 0%nat -> j <> k -> l' !! j = l !! j.

(** The ordering of the end-to-end scenario of the specification. *)
Definition sevenZones : list TimezoneConfig :=
  map (fun n => mkTimezone (lit n) (lit n))
      ["UTC"; "PST"; "GMT"; "PHL"; "CST"; "MST"; "EST"]%string.




(** The widths at which [getDayProgressBar] builds its bar whatever the
    instant: [width - 2 - len(timeRemaining)] does not wrap around, and
    three bytes for each column of the bar fit in an [int]. *)
Definition barFits (width : Z) : Prop :=
  Float64.minInt + 15 <= width <= Float64.maxInt ÷ 3.

(** No rectangle of the list contains the cell. *)
Definition uncovered (rs : list Rect) (x y : Z) : Prop :=
  forall r, r ∈ rs -> ~ inRect r x y.

(** A display-width function of the kind the specification describes
    (control characters take no column, East Asian wide characters and
    emoji take two, every other character one); it serves as an instance of
    [StringWidth]. *)
Definition sampleRuneWidth (r : rune) : Z :=
  if (r <? 32) || ((127 <=? r) && (r <? 160)) then 0
  else if ((4352 <=? r) && (r <=? 4447))          (* Hangul Jamo *)
       || ((9728 <=? r) && (r <=? 9983))          (* miscellaneous symbols *)
       || ((11904 <=? r) && (r <=? 42191))        (* CJK *)
       || ((44032 <=? r) && (r <=? 55203))        (* Hangul syllables *)
       || ((63744 <=? r) && (r <=? 64255))
       || ((65280 <=? r) && (r <=? 65376))        (* fullwidth forms *)
       || ((126976 <=? r) && (r <=? 129791))      (* emoji *)
       || ((131072 <=? r) && (r <=? 262141))
  then 2 else 1.

Definition sampleWidth (s : gostring) : Z :=
  fold_right (fun r n => sampleRuneWidth r + n) 0 s.

(** Tuesday 3 February 2026, 15:04:05. *)
Definition sampleInstant : Time := mkTime 2026 February 3 Tuesday 15 4 5.


(** The hour, minute, second and AM/PM fields as [Time.Format] prints them. *)
Definition hh (t : Time) : gostring := appendInt (hour12 t) 2.
Definition mm (t : Time) : gostring := appendInt (Minute t) 2.
Definition ss (t : Time) : gostring := appendInt (Second t) 2.
Definition ampm (t : Time) : gostring := if 12 <=? Hour t then lit "PM" else lit "AM".

(** The character has a glyph in the atlas. *)
Definition hasGlyph (r : rune) : bool :=
  match digits r with Some _ => true | None => false end.

(** The string holds no escape character, so no ANSI style marker. *)
Definition plainText (s : gostring) : Prop := Forall (fun r => r <> ESC) s.

(** The style markers that [CenterDate] removes. *)
Definition isMarker (m : gostring) : Prop := In m (map fst repl).


(** ** The art loop and styled text *)

(** One step of the loop of [PrintTimeASCII]. *)
Definition artStep (lines : list gostring) (char : rune) : list gostring :=
  match digits char with
  | None => lines
  | Some glyphRows => zip_with (fun line row => line ++ row ++ [32]) lines glyphRows
  end.

(** Five lines, all of the same length. *)
Definition artShape (n : nat) (lines : list gostring) : Prop :=
  length lines = 5%nat /\ Forall (fun line => length line = n) lines.

(** One piece of a styled text: visible text without an escape character,
    or one of the style markers. *)
Inductive Segment :=
| Text (s : gostring)
| Style (m : gostring).

Definition segmentOk (seg : Segment) : Prop :=
  match seg with
  | Text s => plainText s
  | Style m => isMarker m
  end.

(** The string that the pieces make, and its visible part. *)
Definition styled (segs : list Segment) : gostring :=
  concat (map (fun seg => match seg with Text s => s | Style m => m end) segs).

Definition visibleText (segs : list Segment) : gostring :=
  concat (map (fun seg => match seg with Text s => s | Style _ => [] end) segs).

(** ** The value of a float *)

(** The real number that a float stands for. *)
Definition B2R (f : Float64.float64) : R :=
  match f with
  | S754_finite s m e => (IZR (cond_Zopp s (Zpos m)) * powerRZ 2 e)%R
  | _ => 0%R
  end.

(** Unit round-off of binary64, 2^-53. *)
Definition eps : R := (/ 9007199254740992)%R.

(** Twice a lower bound of the number that the mantissa [m] with the
    location [l] stands for. *)
Definition lo2 (m : Z) (l : location) : Z :=
  match l with
  | loc_Exact | loc_Inexact Lt => 2 * m
  | _ => 2 * m + 1
  end.

(** Seconds since midnight. *)
Definition secsOf (now : Time) : Z := Hour now * 3600 + Minute now * 60 + Second now.

(** The remaining-time text of the specification. *)
Definition remainingText (H M : Z) : gostring :=
  itoa H ++ lit "h " ++ itoa M ++ lit "m left".

(** * Properties *)

Import Float64 DayProgress.

(** ** Rounding in binary64

    The facts about [SpecFloat] that the progress bar needs: what
    [binary_round_aux] returns on a positive mantissa, and from it the
    value of a conversion, a difference, a quotient and a product. *)

Lemma iter_pos_nat {A} (f : A -> A) (p : positive) (x : A) :
  SpecFloat.iter_pos f p x = Nat.iter (Pos.to_nat p) f x.
Proof.
  revert x. induction p as [p IH | p IH |]; intros x; simpl SpecFloat.iter_pos.
  - rewrite !IH. rewrite Pos2Nat.inj_xI.
    rewrite <- Nat.iter_add. rewrite <- Nat.iter_succ_r.
    f_equal. lia.
  - rewrite !IH. rewrite Pos2Nat.inj_xO. rewrite <- Nat.iter_add. f_equal. lia.
  - reflexivity.
Qed.

Lemma shr_1_step (st : shr_record) :
  0 <= shr_m st ->
  shr_m (shr_1 st) = shr_m st / 2 /\ shr_r (shr_1 st) = Z.odd (shr_m st).
Proof.
  destruct st as [m r s]. unfold shr_m at 1 3 4. intros Hm.
  rewrite <- Z.div2_div.
  destruct m as [| [p | p |] | p]; try lia; split; reflexivity.
Qed.

Lemma shr_iter (st : shr_record) (k : nat) :
  0 <= shr_m st ->
  let st' := Nat.iter k shr_1 st in
  shr_m st' = shr_m st / 2 ^ Z.of_nat k
  /\ ((0 < k)%nat -> shr_r st' = true ->
      2 ^ (Z.of_nat k - 1) <= shr_m st mod 2 ^ Z.of_nat k).
Proof.
  intros Hm. induction k as [| k [IHm IHr]].
  - simpl. split; [rewrite Z.div_1_r; reflexivity | lia].
  - cbn zeta in *. rewrite Nat.iter_succ.
    set (st' := Nat.iter k shr_1 st) in *.
    assert (Hpos : 0 <= shr_m st') by (rewrite IHm; apply Z.div_pos; lia).
    destruct (shr_1_step st' Hpos) as [E1 E2].
    assert (Hk : 2 ^ Z.of_nat (S k) = 2 ^ Z.of_nat k * 2).
    { rewrite Nat2Z.inj_succ, Z.pow_succ_r by lia. lia. }
    split.
    + rewrite E1, IHm, Hk. rewrite Z.div_div by lia. reflexivity.
    + intros _ Hr. rewrite E2, IHm in Hr.
      rewrite Hk. rewrite Z.rem_mul_r by lia.
      replace (Z.of_nat (S k) - 1) with (Z.of_nat k) by lia.
      assert (Hodd : (shr_m st / 2 ^ Z.of_nat k) mod 2 = 1).
      { rewrite Zmod_odd, Hr. reflexivity. }
      rewrite Hodd.
      pose proof (Z.mod_pos_bound (shr_m st) (2 ^ Z.of_nat k) ltac:(lia)). lia.
Qed.

Lemma digits_bounds (m : positive) :
  2 ^ (Zpos (digits2_pos m) - 1) <= Zpos m < 2 ^ Zpos (digits2_pos m).
Proof.
  induction m as [m IH | m IH |]; simpl digits2_pos.
  - rewrite Pos2Z.inj_succ, (Pos2Z.inj_xI m).
    replace (Z.succ (Zpos (digits2_pos m)) - 1) with (Z.succ (Zpos (digits2_pos m) - 1)) by lia.
    rewrite !Z.pow_succ_r by lia.
    revert IH. generalize (2 ^ (Zpos (digits2_pos m) - 1)) (2 ^ Zpos (digits2_pos m)).
    intros. lia.
  - rewrite Pos2Z.inj_succ, (Pos2Z.inj_xO m).
    replace (Z.succ (Zpos (digits2_pos m)) - 1) with (Z.succ (Zpos (digits2_pos m) - 1)) by lia.
    rewrite !Z.pow_succ_r by lia.
    revert IH. generalize (2 ^ (Zpos (digits2_pos m) - 1)) (2 ^ Zpos (digits2_pos m)).
    intros. lia.
  - simpl. lia.
Qed.

Lemma digits_unique (m : positive) (k : Z) :
  2 ^ (k - 1) <= Zpos m < 2 ^ k -> Zpos (digits2_pos m) = k.
Proof.
  intros [Hlo Hhi]. pose proof (digits_bounds m) as [Dlo Dhi].
  set (d := Zpos (digits2_pos m)) in *.
  assert (Hk : 0 < k).
  { destruct (Z_lt_le_dec 0 k) as [H | H]; [assumption |].
    assert (2 ^ k <= 1).
    { destruct (Z.eq_dec k 0) as [-> | Hne]; [simpl; lia |].
      rewrite Z.pow_neg_r by lia. lia. }
    lia. }
  destruct (Z_lt_le_dec d k) as [H1 | H1].
  - pose proof (Z.pow_le_mono_r 2 d (k - 1) ltac:(lia) ltac:(lia)). lia.
  - destruct (Z_lt_le_dec k d) as [H2 | H2]; [| lia].
    pose proof (Z.pow_le_mono_r 2 k (d - 1) ltac:(lia) ltac:(lia)). lia.
Qed.

Lemma fexp_normal (x : Z) : -1021 <= x -> fexp 53 1024 x = x - 53.
Proof. intros Hx. unfold fexp, emin. lia. Qed.

Lemma shr_fexp_noshift (m : positive) (e : Z) (l : location) :
  Zpos (digits2_pos m) <= 53 -> -1074 <= e ->
  shr_fexp 53 1024 (Zpos m) e l = (shr_record_of_loc (Zpos m) l, e).
Proof.
  intros Hd He. unfold shr_fexp, shr, fexp, emin. simpl Zdigits2.
  destruct (Z.max (Zpos (digits2_pos m) + e - 53) (3 - 1024 - 53) - e) eqn:E;
    try reflexivity.
  lia.
Qed.

Lemma shr_fexp_shift (m : positive) (e : Z) (l : location) :
  53 < Zpos (digits2_pos m) -> -1074 <= e ->
  shr_fexp 53 1024 (Zpos m) e l
  = (Nat.iter (Z.to_nat (Zpos (digits2_pos m) - 53)) shr_1 (shr_record_of_loc (Zpos m) l),
     e + (Zpos (digits2_pos m) - 53)).
Proof.
  intros Hd He. unfold shr_fexp, shr, fexp, emin. simpl Zdigits2.
  replace (Z.max (Zpos (digits2_pos m) + e - 53) (3 - 1024 - 53) - e)
    with (Zpos (digits2_pos m) - 53) by lia.
  destruct (Zpos (digits2_pos m) - 53) eqn:E; try lia.
  rewrite iter_pos_nat. reflexivity.
Qed.

Lemma record_of_loc_m (m : Z) (l : location) : shr_m (shr_record_of_loc m l) = m.
Proof. destruct l as [| []]; reflexivity. Qed.

Lemma loc_of_record_of (m : Z) (l : location) :
  loc_of_shr_record (shr_record_of_loc m l) = l.
Proof. destruct l as [| []]; reflexivity. Qed.

Lemma round_nearest_even_cases (q : Z) (l : location) :
  round_nearest_even q l = q
  \/ (round_nearest_even q l = q + 1 /\ lo2 q l = 2 * q + 1).
Proof.
  destruct l as [| []]; simpl; auto.
  destruct (Z.even q); auto.
Qed.

Lemma loc_r_bit (st : shr_record) :
  lo2 (shr_m st) (loc_of_shr_record st) = 2 * shr_m st + 1 -> shr_r st = true.
Proof. destruct st as [m [] []]; simpl; intros; lia || reflexivity. Qed.

(** The last step of [binary_round_aux], on a mantissa of 53 digits or on
    2^53. *)
Lemma round_finish (mr e1 : Z) :
  2 ^ 52 <= mr <= 2 ^ 53 -> -1074 <= e1 <= 970 ->
  exists (m' : positive) (N2 : Z),
    (let '(mrs, e2) := shr_fexp 53 1024 mr e1 loc_Exact in
     match shr_m mrs with
     | Z0 => S754_zero false
     | Zpos m => if e2 <=? 1024 - 53 then S754_finite false m e2 else S754_infinity false
     | Zneg _ => S754_nan
     end) = S754_finite false m' (e1 + N2)
    /\ 0 <= N2 <= 1 /\ Zpos m' * 2 ^ N2 = mr /\ 2 ^ 52 <= Zpos m' < 2 ^ 53.
Proof.
  intros Hmr He.
  destruct mr as [| q | q]; try lia.
  destruct (Z_lt_le_dec (Zpos q) (2 ^ 53)) as [Hlt | Hge].
  - assert (Hd : Zpos (digits2_pos q) = 53) by (apply digits_unique; lia).
    rewrite shr_fexp_noshift by lia. simpl shr_m.
    destruct (e1 <=? 1024 - 53) eqn:E; [| lia].
    exists q, 0. rewrite Z.add_0_r. repeat split; lia.
  - assert (Hq : q = (2 ^ 53)%positive).
    { apply Pos2Z.inj. change (Zpos (2 ^ 53)) with (2 ^ 53). lia. }
    subst q.
    rewrite shr_fexp_shift by (simpl; lia).
    change (Z.to_nat (Zpos (digits2_pos (2 ^ 53)) - 53)) with 1%nat.
    change (Zpos (digits2_pos (2 ^ 53)) - 53) with 1.
    simpl Nat.iter. simpl shr_m.
    destruct (e1 + 1 <=? 1024 - 53) eqn:E; [| lia].
    eexists _, 1. split; [reflexivity |]. repeat split; try lia.
    all: vm_compute; congruence.
Qed.

Lemma lo2_lower (m : Z) (l : location) : 2 * m <= lo2 m l.
Proof. destruct l as [| []]; simpl; lia. Qed.

Lemma pow2_pos (k : Z) : 0 <= k -> 0 < 2 ^ k.
Proof. intros. apply Z.pow_pos_nonneg; lia. Qed.

Lemma binary_round_aux_spec (m : positive) (e : Z) (l : location) :
  let d := Zpos (digits2_pos m) in
  let n := Z.max 0 (d - 53) in
  (53 <= d \/ l = loc_Exact) -> -1074 <= e -> e + n <= 970 ->
  exists (m' : positive) (N : Z),
    binary_round_aux 53 1024 false (Zpos m) e l = S754_finite false m' (e + N)
    /\ n <= N <= n + 1
    /\ 2 * (Zpos m' * 2 ^ N) <= lo2 (Zpos m) l + 2 ^ n
    /\ (l = loc_Exact -> Zpos m mod 2 ^ n = 0 -> Zpos m' * 2 ^ N = Zpos m)
    /\ (53 <= d -> 2 ^ 52 <= Zpos m' < 2 ^ 53).
Proof.
  intros d n Hd He Hde. unfold binary_round_aux.
  pose proof (digits_bounds m) as [Dlo Dhi]. fold d in Dlo, Dhi.
  destruct (Z_lt_le_dec d 53) as [Hsmall | Hbig].
  - (* fewer than 53 digits, exact: nothing moves *)
    destruct Hd as [Hd | ->]; [lia |].
    rewrite shr_fexp_noshift by (fold d; lia).
    cbv beta iota. simpl round_nearest_even.
    rewrite shr_fexp_noshift by (fold d; lia).
    simpl shr_m. cbv beta iota.
    destruct (e <=? 1024 - 53) eqn:E; [| lia].
    exists m, 0. replace n with 0 by lia. rewrite Z.add_0_r.
    split; [reflexivity |]. simpl. repeat split; lia.
  - destruct (Z.eq_dec d 53) as [Heq | Hne].
    + (* exactly 53 digits: only the location rounds *)
      rewrite shr_fexp_noshift by (fold d; lia). cbv beta iota.
      rewrite record_of_loc_m, loc_of_record_of.
      assert (Hp : 2 ^ (d - 1) = 2 ^ 52) by (rewrite Heq; reflexivity).
      assert (Hq : 2 ^ d = 2 ^ 53) by (rewrite Heq; reflexivity).
      destruct (round_finish (round_nearest_even (Zpos m) l) e) as [m' [N2 [E [HN [Hv Hc]]]]].
      { destruct (round_nearest_even_cases (Zpos m) l) as [-> | [-> _]]; lia. }
      { lia. }
      exists m', N2. replace n with 0 by lia.
      split; [exact E |]. split; [lia |]. split; [| split].
      * rewrite Hv.
        destruct (round_nearest_even_cases (Zpos m) l) as [-> | [-> Hl]].
        -- pose proof (lo2_lower (Zpos m) l). simpl. lia.
        -- rewrite Hl. simpl. lia.
      * intros -> _. rewrite Hv. reflexivity.
      * intros _. exact Hc.
    + (* more than 53 digits: the low digits are shifted out *)
      assert (Hn : n = d - 53) by lia.
      assert (Hn0 : 0 < n) by lia.
      rewrite shr_fexp_shift by (fold d; lia). fold d. rewrite <- Hn.
      cbv beta iota.
      pose proof (shr_iter (shr_record_of_loc (Zpos m) l) (Z.to_nat n)) as Hit.
      rewrite record_of_loc_m in Hit. specialize (Hit ltac:(lia)).
      cbv zeta in Hit. rewrite Z2Nat.id in Hit by lia.
      destruct Hit as [Hm Hr].
      set (st := Nat.iter (Z.to_nat n) shr_1 (shr_record_of_loc (Zpos m) l)) in *.
      set (q := shr_m st) in *.
      pose proof (pow2_pos n ltac:(lia)) as Hpn.
      assert (Hsplit : 2 ^ (d - 1) = 2 ^ 52 * 2 ^ n).
      { rewrite <- Z.pow_add_r by lia. f_equal. lia. }
      assert (Hsplit' : 2 ^ d = 2 ^ 53 * 2 ^ n).
      { rewrite <- Z.pow_add_r by lia. f_equal. lia. }
      pose proof (Z.div_mod (Zpos m) (2 ^ n) ltac:(lia)) as Hdm.
      pose proof (Z.mod_pos_bound (Zpos m) (2 ^ n) ltac:(lia)) as Hmod.
      rewrite <- Hm in Hdm.
      assert (Hq : 2 ^ 52 <= q < 2 ^ 53) by nia.
      destruct (round_finish (round_nearest_even q (loc_of_shr_record st)) (e + n))
        as [m' [N2 [E [HN [Hv Hc]]]]].
      { destruct (round_nearest_even_cases q (loc_of_shr_record st)) as [-> | [-> _]]; lia. }
      { lia. }
      exists m', (n + N2). rewrite Z.add_assoc.
      split; [exact E |]. split; [lia |].
      assert (Hval : Zpos m' * 2 ^ (n + N2)
                     = round_nearest_even q (loc_of_shr_record st) * 2 ^ n).
      { rewrite <- Hv, Z.pow_add_r by lia. ring. }
      assert (Hhalf : 2 * 2 ^ (n - 1) = 2 ^ n).
      { rewrite <- Z.pow_succ_r by lia. f_equal. lia. }
      split; [| split].
      * rewrite Hval. pose proof (lo2_lower (Zpos m) l).
        destruct (round_nearest_even_cases q (loc_of_shr_record st)) as [-> | [-> Hl]].
        -- nia.
        -- apply loc_r_bit in Hl. specialize (Hr ltac:(lia) Hl). nia.
      * intros _ Hz. rewrite Hval.
        destruct (round_nearest_even_cases q (loc_of_shr_record st)) as [-> | [-> Hl]].
        -- nia.
        -- apply loc_r_bit in Hl. specialize (Hr ltac:(lia) Hl).
           pose proof (pow2_pos (n - 1) ltac:(lia)). lia.
      * intros _. exact Hc.
Qed.

Lemma IZR_pow2 (k : Z) : 0 <= k -> IZR (2 ^ k) = powerRZ 2 k.
Proof.
  intros Hk. rewrite <- (Z2Nat.id k Hk) at 1 2.
  rewrite <- pow_IZR, pow_powerRZ. reflexivity.
Qed.

Lemma bpow_add (a b : Z) : (powerRZ 2 (a + b) = powerRZ 2 a * powerRZ 2 b)%R.
Proof. apply powerRZ_add. lra. Qed.

Lemma bpow_pos (a : Z) : (0 < powerRZ 2 a)%R.
Proof. apply powerRZ_lt. lra. Qed.

Lemma bpow_shift (x : Z) (e N : Z) :
  0 <= N -> (IZR x * powerRZ 2 (e + N) = IZR (x * 2 ^ N) * powerRZ 2 e)%R.
Proof.
  intros HN. rewrite bpow_add, mult_IZR, IZR_pow2 by assumption. ring.
Qed.

Lemma round_aux_R (m : positive) (e : Z) :
  let d := Zpos (digits2_pos m) in
  let n := Z.max 0 (d - 53) in
  -1074 <= e -> e + n <= 970 ->
  exists (m' : positive) (e' : Z),
    binary_round_aux 53 1024 false (Zpos m) e loc_Exact = S754_finite false m' e'
    /\ e + n <= e' <= e + n + 1
    /\ (53 <= d -> 2 ^ 52 <= Zpos m' < 2 ^ 53)
    /\ (53 <= d ->
        (IZR (Zpos m') * powerRZ 2 e' <= IZR (Zpos m) * powerRZ 2 e * (1 + eps))%R)
    /\ (Zpos m mod 2 ^ n = 0 ->
        (IZR (Zpos m') * powerRZ 2 e' = IZR (Zpos m) * powerRZ 2 e)%R).
Proof.
  intros d n He Hov.
  destruct (binary_round_aux_spec m e loc_Exact (or_intror eq_refl) He Hov)
    as [m' [N [E [HN [Hup [Hex Hc]]]]]].
  fold d in Hc. fold d n in HN, Hup, Hex.
  exists m', (e + N). split; [exact E |]. split; [lia |]. split; [exact Hc |].
  pose proof (bpow_pos e) as Hb.
  split.
  - intros Hd. rewrite bpow_shift by lia.
    pose proof (digits_bounds m) as [Dlo _]. fold d in Dlo.
    assert (Hsplit : 2 ^ (d - 1) = 2 ^ 52 * 2 ^ n).
    { rewrite <- Z.pow_add_r by lia. f_equal. lia. }
    rewrite Hsplit in Dlo. simpl lo2 in Hup.
    apply IZR_le in Hup, Dlo.
    rewrite plus_IZR, !(mult_IZR 2) in Hup. rewrite mult_IZR in Dlo.
    change (IZR (2 ^ 52)) with 4503599627370496%R in Dlo.
    unfold eps.
    replace (IZR (Zpos m) * powerRZ 2 e * (1 + / 9007199254740992))%R
      with (IZR (Zpos m) * (1 + / 9007199254740992) * powerRZ 2 e)%R by ring.
    apply Rmult_le_compat_r; [lra |]. lra.
  - intros Hz. rewrite bpow_shift by lia. rewrite (Hex eq_refl Hz). reflexivity.
Qed.

Lemma pos_iter_xO (p s : positive) : Zpos (Pos.iter xO p s) = Zpos p * 2 ^ Zpos s.
Proof.
  apply Pos.iter_ind with (P := fun s a => Zpos a = Zpos p * 2 ^ Zpos s).
  - rewrite (Pos2Z.inj_xO p). change (2 ^ 1) with 2. ring.
  - intros s' a IH. rewrite (Pos2Z.inj_xO a), IH, Pos2Z.inj_succ, Z.pow_succ_r by lia.
    ring.
Qed.

Lemma shl_align_spec (mx : positive) (ex ex' : Z) :
  snd (shl_align mx ex ex') = Z.min ex ex'
  /\ Zpos (fst (shl_align mx ex ex')) = Zpos mx * 2 ^ (ex - Z.min ex ex').
Proof.
  unfold shl_align. destruct (ex' - ex) as [| s | s] eqn:E; simpl fst; simpl snd.
  - replace (ex - Z.min ex ex') with 0 by lia. simpl. lia.
  - replace (ex - Z.min ex ex') with 0 by lia. simpl. lia.
  - rewrite pos_iter_xO. replace (ex - Z.min ex ex') with (Zpos s) by lia. lia.
Qed.

Lemma digits_shift (p q : positive) (k : Z) :
  0 <= k -> Zpos q = Zpos p * 2 ^ k ->
  Zpos (digits2_pos q) = Zpos (digits2_pos p) + k.
Proof.
  intros Hk Hq. apply digits_unique. rewrite Hq.
  pose proof (digits_bounds p) as [Dlo Dhi].
  pose proof (pow2_pos k Hk).
  replace (Zpos (digits2_pos p) + k - 1) with (Zpos (digits2_pos p) - 1 + k) by lia.
  rewrite !Z.pow_add_r by lia. nia.
Qed.

Lemma binary_round_R (p : positive) (ex : Z) :
  let d := Zpos (digits2_pos p) in
  let n := Z.max 0 (d - 53) in
  -1021 <= ex -> ex + n <= 970 ->
  exists (m' : positive) (e' : Z),
    binary_round 53 1024 false p ex = S754_finite false m' e'
    /\ ex + d - 53 <= e' <= ex + d - 53 + 1
    /\ 2 ^ 52 <= Zpos m' < 2 ^ 53
    /\ (IZR (Zpos m') * powerRZ 2 e' <= IZR (Zpos p) * powerRZ 2 ex * (1 + eps))%R
    /\ (Zpos p mod 2 ^ n = 0 ->
        (IZR (Zpos m') * powerRZ 2 e' = IZR (Zpos p) * powerRZ 2 ex)%R).
Proof.
  intros d n Hex Hov. unfold binary_round.
  rewrite fexp_normal by lia. fold d.
  destruct (shl_align_spec p ex (d + ex - 53)) as [Hez Hmz].
  destruct (shl_align p ex (d + ex - 53)) as [mz ez]. simpl in Hez, Hmz.
  rewrite <- Hez in Hmz.
  assert (Hdz : Zpos (digits2_pos mz) = d + (ex - ez)).
  { apply digits_shift; [lia | exact Hmz]. }
  destruct (round_aux_R mz ez) as [m' [e' [E [He' [Hc [Hup Hexact]]]]]].
  { lia. }
  { rewrite Hdz. lia. }
  rewrite Hdz in He', Hc, Hup, Hexact.
  assert (Hval : (IZR (Zpos mz) * powerRZ 2 ez = IZR (Zpos p) * powerRZ 2 ex)%R).
  { rewrite Hmz. rewrite <- bpow_shift by lia. do 2 f_equal. lia. }
  exists m', e'. split; [exact E |]. split; [lia |].
  split; [apply Hc; lia |]. split.
  - rewrite <- Hval. apply Hup. lia.
  - intros Hz. rewrite <- Hval. apply Hexact.
    destruct (Z_lt_le_dec d 53) as [Hs | Hb].
    + replace (Z.max 0 (d + (ex - ez) - 53)) with 0 by lia. apply Z.mod_1_r.
    + replace (ex - ez) with 0 in * by lia. rewrite Z.add_0_r.
      rewrite Hmz. simpl (2 ^ 0). rewrite Z.mul_1_r. exact Hz.
Qed.

Lemma digits_le_63 (p : positive) : Zpos p < 2 ^ 63 -> Zpos (digits2_pos p) <= 63.
Proof.
  intros Hp. pose proof (digits_bounds p) as [Dlo _].
  destruct (Z_le_gt_dec (Zpos (digits2_pos p)) 63) as [H | H]; [assumption |].
  pose proof (Z.pow_le_mono_r 2 63 (Zpos (digits2_pos p) - 1) ltac:(lia) ltac:(lia)).
  lia.
Qed.

Lemma digits_le_53 (p : positive) : Zpos p < 2 ^ 53 -> Zpos (digits2_pos p) <= 53.
Proof.
  intros Hp. pose proof (digits_bounds p) as [Dlo _].
  destruct (Z_le_gt_dec (Zpos (digits2_pos p)) 53) as [H | H]; [assumption |].
  pose proof (Z.pow_le_mono_r 2 53 (Zpos (digits2_pos p) - 1) ltac:(lia) ltac:(lia)).
  lia.
Qed.

(** [float64(k)] for a positive [int]: a normal number, at most
    [k (1 + eps)], and [k] itself below 2^53. *)
Lemma ofInt_R (k : Z) :
  0 < k < 2 ^ 63 ->
  exists (m : positive) (e : Z),
    ofInt k = S754_finite false m e
    /\ 2 ^ 52 <= Zpos m < 2 ^ 53 /\ -52 <= e <= 11
    /\ (B2R (ofInt k) <= IZR k * (1 + eps))%R
    /\ (k < 2 ^ 53 -> B2R (ofInt k) = IZR k).
Proof.
  intros Hk. destruct k as [| p | p]; try lia.
  unfold ofInt, binary_normalize, Float64.prec, Float64.emax.
  pose proof (digits_le_63 p ltac:(lia)) as Hd.
  destruct (binary_round_R p 0) as [m [e [E [He [Hc [Hup Hexact]]]]]]; [lia | lia |].
  rewrite E. simpl B2R. simpl powerRZ in Hup, Hexact.
  rewrite Rmult_1_r in Hup, Hexact.
  exists m, e. split; [reflexivity |]. split; [exact Hc |]. split; [lia |].
  split; [exact Hup |].
  intros Hsmall. apply Hexact.
  pose proof (digits_le_53 p Hsmall).
  replace (Z.max 0 (Zpos (digits2_pos p) - 53)) with 0 by lia. apply Z.mod_1_r.
Qed.

Lemma shiftl_floor (m : positive) (e : Z) :
  0 <= Z.shiftl (Zpos m) e
  /\ (IZR (Z.shiftl (Zpos m) e) <= IZR (Zpos m) * powerRZ 2 e
      < IZR (Z.shiftl (Zpos m) e) + 1)%R.
Proof.
  destruct (Z_le_gt_dec 0 e) as [He | He].
  - rewrite Z.shiftl_mul_pow2 by lia.
    pose proof (pow2_pos e He). split; [lia |].
    rewrite mult_IZR, IZR_pow2 by lia. lra.
  - rewrite Z.shiftl_div_pow2 by lia.
    set (g := - e). pose proof (pow2_pos g ltac:(lia)) as Hg.
    pose proof (Z.div_mod (Zpos m) (2 ^ g) ltac:(lia)) as Hdm.
    pose proof (Z.mod_pos_bound (Zpos m) (2 ^ g) ltac:(lia)) as Hmod.
    set (v := Zpos m / 2 ^ g) in *.
    assert (Hv : 0 <= v) by (apply Z.div_pos; lia).
    split; [exact Hv |].
    assert (Hlo : 2 ^ g * v <= Zpos m) by lia.
    assert (Hhi : Zpos m < 2 ^ g * (v + 1)) by lia.
    apply IZR_le in Hlo. apply IZR_lt in Hhi.
    rewrite mult_IZR, IZR_pow2 in Hlo, Hhi by lia.
    rewrite plus_IZR in Hhi.
    replace e with (- g) by lia. rewrite powerRZ_neg'.
    pose proof (bpow_pos g) as Hb.
    assert (Hinv : (powerRZ 2 g * / powerRZ 2 g = 1)%R) by (apply Rinv_r; lra).
    set (G := powerRZ 2 g) in *. set (iG := (/ G)%R) in *.
    assert (HiG : (0 < iG)%R) by (apply Rinv_0_lt_compat; exact Hb).
    split.
    + replace (IZR v) with (G * IZR v * iG)%R by (rewrite (Rmult_comm G), Rmult_assoc, Hinv; ring).
      apply Rmult_le_compat_r; lra.
    + replace (IZR v + 1)%R with (G * (IZR v + 1) * iG)%R
        by (rewrite (Rmult_comm G), Rmult_assoc, Hinv; ring).
      apply Rmult_lt_compat_r; lra.
Qed.

(** [int(f)] of a non-negative finite float is the integer part of its
    value. *)
Lemma toInt_floor (m : positive) (e K : Z) :
  (IZR (Zpos m) * powerRZ 2 e < IZR (K + 1))%R -> K <= maxInt ->
  exists v, toInt (S754_finite false m e) = Some v /\ 0 <= v <= K.
Proof.
  intros Hlt HK. destruct (shiftl_floor m e) as [H0 [Hlo Hhi]].
  assert (Hv : Z.shiftl (Zpos m) e < K + 1) by (apply lt_IZR; lra).
  unfold toInt, cond_Zopp, minInt. unfold maxInt in *.
  destruct ((- 2 ^ 63 <=? Z.shiftl (Zpos m) e) && (Z.shiftl (Zpos m) e <=? 2 ^ 63 - 1)) eqn:E.
  - eexists. split; [reflexivity | lia].
  - apply andb_false_iff in E as [E | E]; lia.
Qed.

Lemma toInt_exact (m : positive) (e k : Z) :
  (IZR (Zpos m) * powerRZ 2 e = IZR k)%R -> k <= maxInt ->
  toInt (S754_finite false m e) = Some k.
Proof.
  intros Heq Hk. destruct (shiftl_floor m e) as [H0 [Hlo Hhi]].
  rewrite Heq in Hlo, Hhi.
  assert (H1 : Z.shiftl (Zpos m) e <= k) by (apply le_IZR; lra).
  assert (H2 : k < Z.shiftl (Zpos m) e + 1) by (apply lt_IZR; rewrite plus_IZR; lra).
  unfold toInt, cond_Zopp, minInt. unfold maxInt in *.
  destruct ((- 2 ^ 63 <=? Z.shiftl (Zpos m) e) && (Z.shiftl (Zpos m) e <=? 2 ^ 63 - 1)) eqn:E.
  - f_equal. lia.
  - apply andb_false_iff in E as [E | E]; lia.
Qed.

Lemma digits_ge_53 (p : positive) : 2 ^ 52 <= Zpos p -> 53 <= Zpos (digits2_pos p).
Proof.
  intros Hp. pose proof (digits_bounds p) as [_ Dhi].
  destruct (Z_le_gt_dec 53 (Zpos (digits2_pos p))) as [H | H]; [assumption |].
  pose proof (Z.pow_le_mono_r 2 (Zpos (digits2_pos p)) 52 ltac:(lia) ltac:(lia)). lia.
Qed.

Lemma digits_le (p : positive) (k : Z) :
  0 <= k -> Zpos p < 2 ^ k -> Zpos (digits2_pos p) <= k.
Proof.
  intros Hk Hp. pose proof (digits_bounds p) as [Dlo _].
  destruct (Z_le_gt_dec (Zpos (digits2_pos p)) k) as [H | H]; [assumption |].
  pose proof (Z.pow_le_mono_r 2 k (Zpos (digits2_pos p) - 1) ltac:(lia) ltac:(lia)).
  lia.
Qed.

(** The product of two positive normal floats is at most the product of
    their values times [1 + eps]. *)
Lemma mul_R (mx my : positive) (ex ey : Z) :
  2 ^ 52 <= Zpos mx < 2 ^ 53 -> 2 ^ 52 <= Zpos my < 2 ^ 53 ->
  -500 <= ex <= 400 -> -500 <= ey <= 400 ->
  exists (m : positive) (e : Z),
    mul (S754_finite false mx ex) (S754_finite false my ey) = S754_finite false m e
    /\ (IZR (Zpos m) * powerRZ 2 e
        <= (IZR (Zpos mx) * powerRZ 2 ex) * (IZR (Zpos my) * powerRZ 2 ey) * (1 + eps))%R.
Proof.
  intros Hx Hy Hex Hey. unfold mul, SFmul. simpl xorb.
  assert (Hlo : 2 ^ 52 <= Zpos (mx * my)) by (rewrite Pos2Z.inj_mul; nia).
  assert (Hhi : Zpos (mx * my) < 2 ^ 106).
  { rewrite Pos2Z.inj_mul. change (2 ^ 106) with (2 ^ 53 * 2 ^ 53). nia. }
  pose proof (digits_ge_53 _ Hlo) as Hd1.
  pose proof (digits_le _ 106 ltac:(lia) Hhi) as Hd2.
  destruct (round_aux_R (mx * my) (ex + ey)) as [m [e [E [He [_ [Hup _]]]]]];
    [lia | lia |].
  exists m, e. split; [exact E |].
  specialize (Hup Hd1). rewrite Pos2Z.inj_mul, mult_IZR, bpow_add in Hup.
  replace ((IZR (Zpos mx) * powerRZ 2 ex) * (IZR (Zpos my) * powerRZ 2 ey) * (1 + eps))%R
    with (IZR (Zpos mx) * IZR (Zpos my) * (powerRZ 2 ex * powerRZ 2 ey) * (1 + eps))%R
    by ring.
  exact Hup.
Qed.

Lemma new_location_up (nb r q : Z) :
  lo2 q (new_location nb r) = 2 * q + 1 -> nb <= 2 * r.
Proof.
  unfold new_location, new_location_even, new_location_odd.
  destruct (Z.even nb); destruct (r =? 0); simpl; try lia.
  - destruct (Z.compare_spec (2 * r) nb); simpl; lia.
  - destruct (Z.compare_spec (2 * r + 1) nb); simpl; lia.
Qed.

Lemma div_core (mx my : positive) (ex ey : Z) :
  Zpos (digits2_pos mx) = 53 -> Zpos (digits2_pos my) = 53 -> -1021 <= ex - ey ->
  SFdiv_core_binary 53 1024 (Zpos mx) ex (Zpos my) ey
  = (Zpos mx * 2 ^ 53 / Zpos my, ex - ey - 53,
     new_location (Zpos my) (Zpos mx * 2 ^ 53 mod Zpos my)).
Proof.
  intros Hdx Hdy He. unfold SFdiv_core_binary. simpl Zdigits2.
  rewrite Hdx, Hdy. rewrite fexp_normal by lia.
  replace (Z.min (53 + ex - (53 + ey) - 53) (ex - ey)) with (ex - ey - 53) by lia.
  replace (ex - ey - (ex - ey - 53)) with 53 by lia.
  cbv beta iota zeta. rewrite Z.shiftl_mul_pow2 by lia.
  unfold Z.div, Z.modulo.
  destruct (Z.div_eucl (Zpos mx * 2 ^ 53) (Zpos my)) as [q r]. reflexivity.
Qed.

(** The quotient of two positive normal floats is a normal float, at most
    the quotient of their values times [1 + eps]. *)
Lemma div_R (mx my : positive) (ex ey : Z) :
  2 ^ 52 <= Zpos mx < 2 ^ 53 -> 2 ^ 52 <= Zpos my < 2 ^ 53 ->
  -400 <= ex <= 400 -> -400 <= ey <= 400 ->
  exists (m : positive) (e : Z),
    div (S754_finite false mx ex) (S754_finite false my ey) = S754_finite false m e
    /\ 2 ^ 52 <= Zpos m < 2 ^ 53
    /\ ex - ey - 53 <= e <= ex - ey - 51
    /\ ((IZR (Zpos m) * powerRZ 2 e) * (IZR (Zpos my) * powerRZ 2 ey)
        <= (IZR (Zpos mx) * powerRZ 2 ex) * (1 + eps))%R.
Proof.
  intros Hx Hy Hex Hey. unfold div, SFdiv. simpl xorb.
  rewrite div_core by (try (apply digits_unique; lia); lia).
  set (M := Zpos mx * 2 ^ 53).
  pose proof (Z.div_mod M (Zpos my) ltac:(lia)) as Hdm.
  pose proof (Z.mod_pos_bound M (Zpos my) ltac:(lia)) as Hmod.
  set (q := M / Zpos my) in *. set (r := M mod Zpos my) in *.
  assert (HM : 2 ^ 52 * 2 ^ 53 <= M < 2 ^ 53 * 2 ^ 53) by (unfold M; lia).
  assert (Hq : 2 ^ 52 <= q < 2 ^ 54).
  { change (2 ^ 54) with (2 * 2 ^ 53). nia. }
  destruct q as [| pq | pq] eqn:Eq; try lia.
  pose proof (digits_ge_53 pq ltac:(lia)) as Hd1.
  pose proof (digits_le pq 54 ltac:(lia) ltac:(lia)) as Hd2.
  destruct (binary_round_aux_spec pq (ex - ey - 53) (new_location (Zpos my) r))
    as [m [N [E [HN [Hup [_ Hc]]]]]]; [left; exact Hd1 | lia | lia |].
  set (n := Z.max 0 (Zpos (digits2_pos pq) - 53)) in *.
  exists m, (ex - ey - 53 + N). split; [exact E |]. split; [apply Hc; exact Hd1 |].
  split; [lia |].
  (* the integer inequality *)
  pose proof (digits_bounds pq) as [Dlo _].
  assert (Hsplit : 2 ^ (Zpos (digits2_pos pq) - 1) = 2 ^ 52 * 2 ^ n).
  { rewrite <- Z.pow_add_r by lia. f_equal. lia. }
  rewrite Hsplit in Dlo.
  pose proof (pow2_pos n ltac:(lia)) as Hpn.
  assert (Hloc : lo2 (Zpos pq) (new_location (Zpos my) r) * Zpos my <= 2 * M).
  { pose proof (new_location_up (Zpos my) r (Zpos pq)) as Hnl.
    pose proof (lo2_lower (Zpos pq) (new_location (Zpos my) r)).
    assert (Hcases : lo2 (Zpos pq) (new_location (Zpos my) r) = 2 * Zpos pq
                     \/ lo2 (Zpos pq) (new_location (Zpos my) r) = 2 * Zpos pq + 1).
    { destruct (new_location (Zpos my) r) as [| []]; simpl; auto. }
    destruct Hcases as [-> | Hc1]; [nia |].
    specialize (Hnl Hc1). rewrite Hc1. nia. }
  assert (HZ : 2 ^ 53 * (Zpos m * 2 ^ N * Zpos my) <= (2 ^ 53 + 1) * M).
  { change (2 ^ 53) with (2 * 2 ^ 52) at 1 2. nia. }
  apply IZR_le in HZ. rewrite !mult_IZR, plus_IZR in HZ.
  change (IZR (2 ^ 53)) with 9007199254740992%R in HZ.
  rewrite IZR_pow2 in HZ by lia.
  replace (ex - ey - 53 + N) with ((ex - 53) + (- ey) + N) by lia.
  rewrite !bpow_add.
  assert (Hx53 : (IZR (Zpos mx) * powerRZ 2 ex = IZR M * powerRZ 2 (ex - 53))%R).
  { unfold M. rewrite <- bpow_shift by lia. do 2 f_equal. lia. }
  rewrite Hx53.
  pose proof (bpow_pos (ex - 53)) as Hb1. pose proof (bpow_pos ey) as Hb2.
  pose proof (bpow_pos (- ey)) as Hb3.
  assert (Hinv : (powerRZ 2 (- ey) * powerRZ 2 ey = 1)%R).
  { rewrite <- bpow_add. replace (- ey + ey) with 0 by lia. reflexivity. }
  unfold eps.
  replace (IZR (Zpos m) * (powerRZ 2 (ex - 53) * powerRZ 2 (- ey) * powerRZ 2 N)
           * (IZR (Zpos my) * powerRZ 2 ey))%R
    with ((IZR (Zpos m) * powerRZ 2 N * IZR (Zpos my)) * powerRZ 2 (ex - 53)
          * (powerRZ 2 (- ey) * powerRZ 2 ey))%R by ring.
  rewrite Hinv, Rmult_1_r.
  replace (IZR M * powerRZ 2 (ex - 53) * (1 + / 9007199254740992))%R
    with (IZR M * (1 + / 9007199254740992) * powerRZ 2 (ex - 53))%R by ring.
  apply Rmult_le_compat_r; [lra |]. lra.
Qed.

(** A difference that is a positive integer below 2^53 is computed
    exactly. *)
Lemma sub_exact (mx my : positive) (ex ey k : Z) :
  -100 <= ex <= 100 -> -100 <= ey <= 100 -> Z.min ex ey <= 0 -> 0 < k < 2 ^ 53 ->
  (IZR (Zpos mx) * powerRZ 2 ex - IZR (Zpos my) * powerRZ 2 ey = IZR k)%R ->
  exists (m : positive) (e : Z),
    sub (S754_finite false mx ex) (S754_finite false my ey) = S754_finite false m e
    /\ (IZR (Zpos m) * powerRZ 2 e = IZR k)%R.
Proof.
  intros Hex Hey Hmin Hk Hval. unfold sub, SFsub. simpl cond_Zopp.
  set (ez := Z.min ex ey) in *.
  destruct (shl_align_spec mx ex ez) as [_ H1].
  destruct (shl_align_spec my ey ez) as [_ H2].
  replace (Z.min ex ez) with ez in H1 by lia.
  replace (Z.min ey ez) with ez in H2 by lia.
  set (a1 := Zpos (fst (shl_align mx ex ez))) in *.
  set (a2 := Zpos (fst (shl_align my ey ez))) in *.
  set (g := - ez).
  assert (HD : a1 - a2 = k * 2 ^ g).
  { apply eq_IZR. rewrite minus_IZR, H1, H2.
    pose proof (bpow_pos ez) as Hb.
    apply Rmult_eq_reg_r with (powerRZ 2 ez); [| lra].
    rewrite Rmult_minus_distr_r, <- !bpow_shift by lia.
    replace (ez + (ex - ez)) with ex by lia.
    replace (ez + (ey - ez)) with ey by lia.
    rewrite Hval. replace (ez + g) with 0 by (unfold g; lia).
    simpl. ring. }
  pose proof (pow2_pos g ltac:(unfold g; lia)) as Hg.
  destruct (a1 - a2) as [| pd | pd] eqn:ED; try nia.
  simpl binary_normalize.
  destruct k as [| pk | pk]; try lia.
  pose proof (digits_shift pk pd g ltac:(unfold g; lia) HD) as Hdd.
  pose proof (digits_le_53 pk ltac:(lia)) as Hdk.
  pose proof (digits_bounds pk) as _.
  assert (Hd1 : 1 <= Zpos (digits2_pos pk)) by lia.
  destruct (binary_round_R pd ez) as [m [e [E [_ [_ [_ Hexact]]]]]];
    [lia | unfold g in *; lia |].
  exists m, e. split; [exact E |].
  rewrite Hexact.
  - rewrite HD. rewrite <- bpow_shift by (unfold g; lia).
    replace (ez + g) with 0 by (unfold g; lia). simpl. ring.
  - rewrite Hdd. set (n := Z.max 0 (Zpos (digits2_pos pk) + g - 53)).
    assert (Hn : 0 <= n <= g) by (unfold n, g in *; lia).
    rewrite HD. replace g with ((g - n) + n) by lia.
    rewrite Z.pow_add_r by lia. rewrite Z.mul_assoc. apply Z.mod_mul.
    pose proof (pow2_pos n ltac:(lia)). lia.
Qed.

(** ** The float computations of the progress bar *)

Lemma secsOf_range (now : Time) : validClock now -> 0 <= secsOf now <= 86399.
Proof. unfold validClock, secsOf. lia. Qed.

Lemma totalSeconds_eq : totalSeconds = S754_finite false 5937362789990400 (-36).
Proof. reflexivity. Qed.

Lemma totalSeconds_R :
  (IZR (Zpos 5937362789990400) * powerRZ 2 (-36) = 86400)%R.
Proof.
  destruct (ofInt_R 86400 ltac:(lia)) as [m [e [E [_ [_ [_ Hex]]]]]].
  specialize (Hex ltac:(lia)).
  change (ofInt 86400) with (S754_finite false 5937362789990400 (-36)) in Hex.
  exact Hex.
Qed.

Lemma remainingSecs_spec (now : Time) :
  validClock now -> remainingSecs now = Some (86400 - secsOf now).
Proof.
  intros Hv. pose proof (secsOf_range now Hv) as Hs.
  unfold remainingSecs, secondsElapsed. fold (secsOf now).
  destruct (Z.eq_dec (secsOf now) 0) as [-> | Hne]; [reflexivity |].
  destruct (ofInt_R (secsOf now) ltac:(lia)) as [m [e [E [Hc [He [_ Hex]]]]]].
  specialize (Hex ltac:(lia)). rewrite E in *. simpl B2R in Hex.
  rewrite totalSeconds_eq.
  destruct (sub_exact 5937362789990400 m (-36) e (86400 - secsOf now))
    as [m' [e' [E' Hval]]]; try lia.
  { rewrite totalSeconds_R, Hex, minus_IZR. reflexivity. }
  rewrite E'. apply toInt_exact; [exact Hval | unfold maxInt; lia].
Qed.

Lemma percent_spec (now : Time) :
  validClock now -> 1 <= secsOf now ->
  exists (mp : positive) (ep : Z),
    percent now = S754_finite false mp ep
    /\ 2 ^ 52 <= Zpos mp < 2 ^ 53 /\ -100 <= ep <= 100
    /\ (IZR (Zpos mp) * powerRZ 2 ep * 86400 <= IZR (secsOf now) * (1 + eps))%R.
Proof.
  intros Hv H1. pose proof (secsOf_range now Hv) as Hs.
  unfold percent, secondsElapsed. fold (secsOf now).
  destruct (ofInt_R (secsOf now) ltac:(lia)) as [m [e [E [Hc [He [_ Hex]]]]]].
  specialize (Hex ltac:(lia)). rewrite E in *. simpl B2R in Hex.
  rewrite totalSeconds_eq.
  destruct (div_R m 5937362789990400 e (-36)) as [mp [ep [E' [Hc' [He' Hup]]]]];
    try lia.
  exists mp, ep. split; [exact E' |]. split; [exact Hc' |]. split; [lia |].
  rewrite totalSeconds_R, Hex in Hup. exact Hup.
Qed.

Lemma percent_midnight (now : Time) :
  secsOf now = 0 -> percent now = S754_zero false.
Proof.
  intros H0. unfold percent, secondsElapsed. fold (secsOf now). rewrite H0.
  reflexivity.
Qed.

Lemma fillWidth_spec (now : Time) (barWidth : Z) :
  validClock now -> 0 <= barWidth < 2 ^ 63 ->
  exists fillWidth,
    fillWidthOf barWidth now = Some fillWidth /\ 0 <= fillWidth <= barWidth.
Proof.
  intros Hv Hbw. pose proof (secsOf_range now Hv) as Hs. unfold fillWidthOf.
  destruct (Z.eq_dec barWidth 0) as [-> | Hb0].
  { exists 0. split; [| lia].
    change (ofInt 0) with (S754_zero false).
    destruct (Z.eq_dec (secsOf now) 0) as [H0 | H0].
    - rewrite percent_midnight by assumption. reflexivity.
    - destruct (percent_spec now Hv ltac:(lia)) as [mp [ep [E _]]].
      rewrite E. reflexivity. }
  destruct (ofInt_R barWidth ltac:(lia)) as [mb [eb [Eb [Hcb [Heb [Hupb _]]]]]].
  rewrite Eb in *. simpl B2R in Hupb.
  destruct (Z.eq_dec (secsOf now) 0) as [H0 | H0].
  { rewrite percent_midnight by assumption. exists 0. split; [reflexivity | lia]. }
  destruct (percent_spec now Hv ltac:(lia)) as [mp [ep [Ep [Hcp [Hep Hupp]]]]].
  rewrite Ep.
  destruct (mul_R mb mp eb ep) as [m [e [E Hup]]]; try lia.
  rewrite E. apply toInt_floor; [| unfold maxInt; lia].
  set (X := (IZR (Zpos mb) * powerRZ 2 eb)%R) in *.
  set (P := (IZR (Zpos mp) * powerRZ 2 ep)%R) in *.
  assert (HX0 : (0 <= X)%R).
  { unfold X. apply Rmult_le_pos; [apply IZR_le; lia | pose proof (bpow_pos eb); lra]. }
  assert (HP0 : (0 <= P)%R).
  { unfold P. apply Rmult_le_pos; [apply IZR_le; lia | pose proof (bpow_pos ep); lra]. }
  assert (Hsecs : (IZR (secsOf now) <= 86399)%R) by (apply IZR_le; lia).
  assert (Hbw0 : (1 <= IZR barWidth)%R) by (apply IZR_le; lia).
  unfold eps in *.
  assert (HP : (P <= 86399 * (1 + / 9007199254740992) / 86400)%R) by lra.
  assert (HXP : (X * P <= (IZR barWidth * (1 + / 9007199254740992))
                          * (86399 * (1 + / 9007199254740992) / 86400))%R).
  { apply Rmult_le_compat; lra. }
  rewrite plus_IZR.
  assert (Hc1 : (0 <= 1 + / 9007199254740992)%R) by lra.
  pose proof (Rmult_le_compat_r _ _ _ Hc1 HXP) as Hfin.
  lra.
Qed.

(** ** Business hours *)

Lemma isMonToFri_num (d : Weekday) :
  isMonToFri d <-> 1 <= weekdayNum d <= 5.
Proof.
  unfold isMonToFri; destruct d; simpl; split; intros;
    try lia; try tauto; repeat (destruct H as [H | H]; try discriminate).
  all: try discriminate.
Qed.

Lemma indicator_open_iff (now : Time) :
  getBusinessHoursIndicator now = greenCircle
  <-> isMonToFri (TWeekday now) /\ 9 <= Hour now < 17.
Proof.
  rewrite isMonToFri_num. unfold getBusinessHoursIndicator. simpl.
  destruct (1 <=? weekdayNum (TWeekday now)) eqn:E1;
  destruct (weekdayNum (TWeekday now) <=? 5) eqn:E2;
  destruct (9 <=? Hour now) eqn:E3;
  destruct (Hour now <? 17) eqn:E4; simpl;
  split; intros; try discriminate; try lia; try reflexivity.
Qed.

Lemma indicator_two_valued (now : Time) :
  getBusinessHoursIndicator now = greenCircle
  \/ getBusinessHoursIndicator now = blackCircle.
Proof.
  unfold getBusinessHoursIndicator.
  destruct (_ && _); [left | right]; reflexivity.
Qed.

(** C3. [getBusinessHoursIndicator] returns the open indicator exactly when
    the weekday is Monday to Friday and the hour is in [9,17); otherwise it
    returns the closed indicator, in particular at hour 17 and at every
    hour of a Saturday or a Sunday. *)
Theorem businessHours_spec :
  (forall now : Time,
      getBusinessHoursIndicator now = greenCircle
      <-> isMonToFri (TWeekday now) /\ 9 <= Hour now < 17)
  /\ (forall now : Time,
      getBusinessHoursIndicator now = blackCircle
      <-> ~ (isMonToFri (TWeekday now) /\ 9 <= Hour now < 17))
  /\ (forall y mo d wd mi s,
      getBusinessHoursIndicator (mkTime y mo d wd 17 mi s) = blackCircle)
  /\ (forall y mo d h mi s,
      getBusinessHoursIndicator (mkTime y mo d Saturday h mi s) = blackCircle
      /\ getBusinessHoursIndicator (mkTime y mo d Sunday h mi s) = blackCircle).
Proof.
  split; [exact indicator_open_iff |].
  split.
  - intros now. rewrite <- indicator_open_iff.
    destruct (indicator_two_valued now) as [E | E]; rewrite E;
      split; intros; try reflexivity; try discriminate; tauto.
  - split.
    + intros. unfold getBusinessHoursIndicator. simpl.
      rewrite andb_false_r. reflexivity.
    + intros. unfold getBusinessHoursIndicator. simpl. split; [| reflexivity].
      reflexivity.
Qed.

(** ** The ordering store *)

Lemma index_Some {A} (l : list A) (i : Z) :
  0 <= i < Z.of_nat (length l) -> exists v, index l i = Some v /\ l !! Z.to_nat i = Some v.
Proof.
  intros Hi. unfold index.
  destruct (i <? 0) eqn:E; [lia |].
  destruct (lookup_lt_is_Some_2 l (Z.to_nat i)) as [v Hv]; [lia |].
  exists v. split; assumption.
Qed.

Lemma swapSlots_exchanged {A} (l : list A) (k : Z) :
  1 <= k < Z.of_nat (length l) ->
  exists l', swapSlots l 0 k = Some l' /\ exchanged (Z.to_nat k) l l'.
Proof.
  intros Hk. unfold swapSlots.
  destruct (index_Some l 0) as [v0 [E0 L0]]; [lia |].
  destruct (index_Some l k) as [vk [Ek Lk]]; [lia |].
  rewrite E0, Ek. simpl. eexists. split; [reflexivity |].
  change (Z.to_nat 0) with 0%nat in *.
  assert (Hne : Z.to_nat k <> 0%nat) by lia.
  unfold exchanged. repeat split.
  - rewrite !length_insert. reflexivity.
  - rewrite list_lookup_insert_ne by assumption.
    rewrite list_lookup_insert_eq by lia. symmetry; assumption.
  - rewrite list_lookup_insert_eq by (rewrite length_insert; lia).
    symmetry; assumption.
  - intros j Hj0 Hjk.
    rewrite !list_lookup_insert_ne by congruence. reflexivity.
Qed.

(** C2. Pressing the key of slot [k]: for [1 <= k < L] the swap exchanges
    exactly the slots 0 and [k] and keeps the length and every other slot;
    for [k >= L] it leaves the ordering as it is; in neither case does it
    panic.  This holds for the key handler of [KeyBindings] and for
    [SwapTimezones]. *)
Theorem swap_spec (st : Store) (k : Z) :
  let tzs := timezones st in
  let L := Z.of_nat (length tzs) in
  (1 <= k < L ->
     (exists st', swapKey k st = Some st'
                  /\ exchanged (Z.to_nat k) tzs (timezones st'))
     /\ (exists tzs', Variant3.SwapTimezones tzs 0 k = Some tzs'
                      /\ exchanged (Z.to_nat k) tzs tzs'))
  /\ (L <= k ->
     swapKey k st = Some st /\ Variant3.SwapTimezones tzs 0 k = Some tzs).
Proof.
  intros tzs L. split.
  - intros Hk.
    destruct (swapSlots_exchanged tzs k Hk) as [l' [Hs Hex]].
    split.
    + unfold swapKey. fold tzs. fold L.
      destruct (L <=? k) eqn:E; [lia |].
      destruct (index_Some tzs 0) as [v0 [E0 _]]; [lia |].
      rewrite E0. simpl. rewrite Hs. simpl.
      destruct (index_Some l' 0) as [w0 [F0 _]].
      { destruct Hex as [Hlen _]. rewrite Hlen. lia. }
      rewrite F0. simpl. eexists. split; [reflexivity |]. exact Hex.
    + unfold Variant3.SwapTimezones. fold L.
      destruct (k <? L) eqn:E; [| lia].
      exists l'. split; assumption.
  - intros Hk. split.
    + unfold swapKey. fold tzs. fold L.
      destruct (L <=? k) eqn:E; [reflexivity | lia].
    + unfold Variant3.SwapTimezones. fold L.
      destruct (k <? L) eqn:E; [lia | reflexivity].
Qed.

Lemma swap_spec_witness :
  (exists st', swapKey 3 (mkStore sevenZones []) = Some st'
               /\ exchanged 3 sevenZones (timezones st'))
  /\ swapKey 3 (mkStore (take 2 sevenZones) []) = Some (mkStore (take 2 sevenZones) []).
Proof.
  split.
  - apply (swap_spec (mkStore sevenZones []) 3). simpl. lia.
  - apply (swap_spec (mkStore (take 2 sevenZones) []) 3). simpl. lia.
Defined.

(** The scenario of the specification: seven slots, key 3. *)
Example swap_scenario :
  swapKey 3 (mkStore sevenZones [])
  = Some (mkStore
            (map (fun n => mkTimezone (lit n) (lit n))
                 ["PHL"; "PST"; "GMT"; "UTC"; "CST"; "MST"; "EST"]%string)
            (lit "Swapped UTC with PHL")).
Proof. reflexivity. Qed.

(** ** The grid layout *)








(** *** Tiling *)

Lemma quot3_bounds (a : Z) : 0 <= a -> 0 <= a ÷ 3 /\ 3 * (a ÷ 3) <= a < 3 * (a ÷ 3) + 3.
Proof.
  intros Ha. rewrite Z.quot_div_nonneg by lia.
  pose proof (Z.div_mod a 3 ltac:(lia)). pose proof (Z.mod_pos_bound a 3 ltac:(lia)).
  pose proof (Z.div_pos a 3 Ha ltac:(lia)). lia.
Qed.

(** The rectangle of the slot at a given row and column of the grid. *)
Lemma bottomRect_at (W H row col : Z) :
  0 <= row -> 0 <= col < 3 ->
  bottomRect W H (3 * row + col + 1)
  = mkRect (col * colWidth W) ((row + 1) * rowHeight H)
      (if col =? 2 then W - 1 else col * colWidth W + colWidth W - 1)
      (if row =? 1 then gridMaxY H - 1
       else (row + 1) * rowHeight H + rowHeight H - 1).
Proof.
  intros Hrow Hcol. unfold bottomRect, itemsPerRow.
  replace (3 * row + col + 1 - 1) with (col + row * 3) by lia.
  assert (Hq : (col + row * 3) ÷ 3 = row).
  { rewrite Z.quot_div_nonneg by lia. rewrite Z.div_add by lia.
    rewrite Z.div_small by lia. lia. }
  assert (Hr : Z.rem (col + row * 3) 3 = col).
  { rewrite Z.rem_mod_nonneg by lia. rewrite Z.mod_add by lia.
    apply Z.mod_small. lia. }
  rewrite Hq, Hr. reflexivity.
Qed.

(** Slot numbers 1..6 as row and column. *)
Lemma slot_cases (i : Z) :
  1 <= i <= 6 ->
  exists row col, i = 3 * row + col + 1
    /\ (row = 0 \/ row = 1) /\ (col = 0 \/ col = 1 \/ col = 2).
Proof.
  intros Hi.
  assert (Hc : i = 1 \/ i = 2 \/ i = 3 \/ i = 4 \/ i = 5 \/ i = 6) by lia.
  destruct Hc as [-> | [-> | [-> | [-> | [-> | ->]]]]];
    [ exists 0, 0 | exists 0, 1 | exists 0, 2
    | exists 1, 0 | exists 1, 1 | exists 1, 2 ]; lia.
Qed.

(** Rewrites the rectangle of a slot in 1..6 to its row/column form and
    leaves the grid quantities as variables with their bounds. *)
Ltac slot_rect W H i Hi :=
  let row := fresh "row" in
  let col := fresh "col" in
  let E := fresh "E" in
  let Hr := fresh "Hr" in
  let Hc := fresh "Hc" in
  destruct (slot_cases i Hi) as [row [col [E [Hr Hc]]]];
  rewrite E in *;
  rewrite (bottomRect_at W H row col) in * by lia;
  destruct Hr as [-> | ->]; destruct Hc as [-> | [-> | ->]].

Ltac grid_bounds W H :=
  pose proof (quot3_bounds W ltac:(lia));
  pose proof (quot3_bounds (H - 3) ltac:(lia));
  unfold inRect, topRect, helpRect, colWidth, rowHeight, gridMaxY, itemsPerRow in *;
  generalize dependent (W ÷ 3); generalize dependent ((H - 3) ÷ 3);
  intros; simpl in *.

Lemma bottom_bottom_disjoint (W H i j x y : Z) :
  1 <= W -> 4 <= H -> 1 <= i <= 6 -> 1 <= j <= 6 -> i <> j ->
  inRect (bottomRect W H i) x y -> inRect (bottomRect W H j) x y -> False.
Proof.
  intros HW HH Hi Hj Hne.
  slot_rect W H i Hi; slot_rect W H j Hj; intros Hin1 Hin2;
    grid_bounds W H; lia.
Qed.

Lemma top_bottom_disjoint (W H i x y : Z) :
  1 <= W -> 4 <= H -> 1 <= i <= 6 ->
  inRect (topRect W H) x y -> inRect (bottomRect W H i) x y -> False.
Proof.
  intros HW HH Hi.
  slot_rect W H i Hi; intros Hin1 Hin2; grid_bounds W H; lia.
Qed.

Lemma bottom_help_disjoint (W H i x y : Z) :
  1 <= W -> 4 <= H -> 1 <= i <= 6 ->
  inRect (bottomRect W H i) x y -> inRect (helpRect W H) x y -> False.
Proof.
  intros HW HH Hi.
  slot_rect W H i Hi; intros Hin1 Hin2; grid_bounds W H; lia.
Qed.

Lemma top_help_disjoint (W H x y : Z) :
  1 <= W -> 4 <= H ->
  inRect (topRect W H) x y -> inRect (helpRect W H) x y -> False.
Proof. intros HW HH Hin1 Hin2. grid_bounds W H. lia. Qed.

Lemma bottom_inside (W H i x y : Z) :
  1 <= W -> 4 <= H -> 1 <= i <= 6 ->
  inRect (bottomRect W H i) x y -> 0 <= x < W /\ 0 <= y < H - 3.
Proof.
  intros HW HH Hi.
  slot_rect W H i Hi; intros Hin1; grid_bounds W H; lia.
Qed.

Lemma top_inside (W H x y : Z) :
  1 <= W -> 4 <= H ->
  inRect (topRect W H) x y -> 0 <= x < W /\ 0 <= y < H - 3.
Proof. intros HW HH Hin1. grid_bounds W H. lia. Qed.

(** What sits at each position of the list of rectangles. *)
Lemma layoutRects_lookup (W H K : Z) (n : nat) (r : Rect) :
  0 <= K ->
  layoutRects W H K !! n = Some r ->
  (n = 0%nat /\ r = topRect W H)
  \/ (exists i, 1 <= i <= K /\ n = Z.to_nat i /\ r = bottomRect W H i)
  \/ (n = S (Z.to_nat K) /\ r = helpRect W H).
Proof.
  intros HK Hn. unfold layoutRects in Hn.
  destruct n as [| n]; simpl in Hn.
  - left. split; congruence.
  - right. unfold secondaryRects in Hn.
    assert (Hlen : length (map (bottomRect W H) (seqZ 1 K)) = Z.to_nat K).
    { rewrite length_map, length_seqZ. reflexivity. }
    destruct (decide (n < Z.to_nat K)%nat) as [Hlt | Hge].
    + left. rewrite lookup_app_l in Hn by lia.
      rewrite list_lookup_fmap in Hn.
      rewrite (lookup_seqZ_lt 1 K n) in Hn by lia. simpl in Hn.
      exists (1 + Z.of_nat n). split; [lia |]. split; [lia | congruence].
    + right. rewrite lookup_app_r in Hn by lia. rewrite Hlen in Hn.
      destruct (n - Z.to_nat K)%nat as [| m] eqn:E; simpl in Hn; [| discriminate].
      split; [lia | congruence].
Qed.

Lemma layoutRects_elem (W H K : Z) (r : Rect) :
  0 <= K ->
  r ∈ layoutRects W H K ->
  r = topRect W H \/ (exists i, 1 <= i <= K /\ r = bottomRect W H i) \/ r = helpRect W H.
Proof.
  intros HK Hr. apply list_elem_of_lookup in Hr as [n Hn].
  destruct (layoutRects_lookup W H K n r HK Hn) as [[_ ->] | [[i [Hi [_ ->]]] | [_ ->]]];
    eauto.
Qed.

Lemma layout_disjoint (W H K : Z) :
  1 <= W -> 4 <= H -> 0 <= K <= 6 -> pairwiseDisjoint (layoutRects W H K).
Proof.
  intros HW HH HK a b ra rb x y Ha Hb Hne Hina Hinb.
  destruct (layoutRects_lookup W H K a ra ltac:(lia) Ha)
    as [[Ea ->] | [[i [Hi [Ea ->]]] | [Ea ->]]];
  destruct (layoutRects_lookup W H K b rb ltac:(lia) Hb)
    as [[Eb ->] | [[j [Hj [Eb ->]]] | [Eb ->]]].
  - lia.
  - eapply (top_bottom_disjoint W H j); eauto; lia.
  - eapply top_help_disjoint; eauto.
  - eapply (top_bottom_disjoint W H i); eauto; lia.
  - eapply (bottom_bottom_disjoint W H i j); eauto; lia.
  - eapply (bottom_help_disjoint W H i); eauto; lia.
  - eapply top_help_disjoint; eauto.
  - eapply (bottom_help_disjoint W H j); eauto; lia.
  - lia.
Qed.

Lemma layoutRects_full (W H : Z) :
  layoutRects W H 6
  = topRect W H
    :: map (fun rc => bottomRect W H (3 * fst rc + snd rc + 1))
           [(0, 0); (0, 1); (0, 2); (1, 0); (1, 1); (1, 2)]
    ++ [helpRect W H].
Proof. reflexivity. Qed.

Ltac pick_rect n :=
  eexists; split;
  [ apply list_elem_of_lookup; exists n; reflexivity
  | unfold inRect; simpl; lia ].

Lemma full_grid_covers (W H : Z) :
  1 <= W -> 4 <= H -> coversGrid W H (layoutRects W H 6).
Proof.
  intros HW HH x y Hx Hy. rewrite layoutRects_full. simpl map.
  rewrite !(bottomRect_at W H) by lia.
  pose proof (quot3_bounds W ltac:(lia)) as [Hc0 Hc].
  pose proof (quot3_bounds (H - 3) ltac:(lia)) as [Hr0 Hr].
  unfold topRect, helpRect, colWidth, rowHeight, gridMaxY, itemsPerRow.
  generalize dependent (W ÷ 3). generalize dependent ((H - 3) ÷ 3).
  intros rh Hr0 Hr cw Hc0 Hc. simpl.
  assert (Hy3 : y < rh \/ (rh <= y < 2 * rh) \/ (2 * rh <= y < H - 3) \/ H - 3 <= y) by lia.
  assert (Hx3 : x < cw \/ (cw <= x < 2 * cw) \/ 2 * cw <= x) by lia.
  destruct Hy3 as [Hy1 | [Hy1 | [Hy1 | Hy1]]].
  - pick_rect 0%nat.
  - destruct Hx3 as [Hx1 | [Hx1 | Hx1]];
      [pick_rect 1%nat | pick_rect 2%nat | pick_rect 3%nat].
  - destruct Hx3 as [Hx1 | [Hx1 | Hx1]];
      [pick_rect 4%nat | pick_rect 5%nat | pick_rect 6%nat].
  - pick_rect 7%nat.
Qed.

Lemma full_grid_area (W H : Z) :
  1 <= W -> 4 <= H ->
  areaSum (topRect W H :: secondaryRects W H 6) = W * (H - 3)
  /\ area (helpRect W H) = 3 * (W + 2).
Proof.
  intros HW HH. split; [| unfold area, helpRect; simpl; lia].
  change (secondaryRects W H 6)
    with (map (fun rc => bottomRect W H (3 * fst rc + snd rc + 1))
              [(0, 0); (0, 1); (0, 2); (1, 0); (1, 1); (1, 2)]).
  simpl map. rewrite !(bottomRect_at W H) by lia.
  pose proof (quot3_bounds W ltac:(lia)) as [Hc0 Hc].
  pose proof (quot3_bounds (H - 3) ltac:(lia)) as [Hr0 Hr].
  unfold areaSum, area, topRect, colWidth, rowHeight, gridMaxY, itemsPerRow.
  generalize dependent (W ÷ 3). generalize dependent ((H - 3) ÷ 3).
  intros rh Hr0 Hr cw Hc0 Hc. simpl.
  rewrite !Z.max_r by lia. nia.
Qed.

(** The cells of a slot beyond the [K] configured ones are in no rectangle. *)
Lemma empty_slot_uncovered (W H K i x y : Z) :
  1 <= W -> 4 <= H -> 0 <= K -> K < i <= 6 ->
  inRect (bottomRect W H i) x y -> uncovered (layoutRects W H K) x y.
Proof.
  intros HW HH HK Hi Hin r Hr Hinr.
  destruct (layoutRects_elem W H K r HK Hr) as [-> | [[j [Hj ->]] | ->]].
  - eapply (top_bottom_disjoint W H i); eauto; lia.
  - eapply (bottom_bottom_disjoint W H i j); eauto; lia.
  - eapply (bottom_help_disjoint W H i); eauto; lia.
Qed.

(** C1, as the code has it.  For W >= 1, H >= 4 and K in [0,6] the focus,
    secondary and footer rectangles are pairwise disjoint; the focus and
    the secondaries lie in the W x (H-3) region above the footer; the
    footer rectangle is (-1, H-3, W, H-1), the bottom three rows and one
    column beyond the grid on each side.  With all six secondary slots the
    rectangles cover the W x H grid and the areas of focus and secondaries
    sum to W x (H-3); with fewer, the cells of the remaining grid slots are
    in no rectangle. *)
Theorem layout_tiling (W H K : Z) :
  1 <= W -> 4 <= H -> 0 <= K <= 6 ->
  pairwiseDisjoint (layoutRects W H K)
  /\ (forall r x y, r ∈ topRect W H :: secondaryRects W H K ->
        inRect r x y -> 0 <= x < W /\ 0 <= y < H - 3)
  /\ (forall x y, inRect (helpRect W H) x y <-> -1 <= x <= W /\ H - 3 <= y <= H - 1)
  /\ (K = 6 ->
        coversGrid W H (layoutRects W H K)
        /\ areaSum (topRect W H :: secondaryRects W H K) = W * (H - 3)
        /\ area (helpRect W H) = 3 * (W + 2))
  /\ (forall i x y, K < i <= 6 ->
        inRect (bottomRect W H i) x y -> uncovered (layoutRects W H K) x y).
Proof.
  intros HW HH HK. split; [apply layout_disjoint; assumption |].
  split.
  { intros r x y Hr Hin.
    assert (Hr' : r ∈ layoutRects W H K).
    { unfold layoutRects. rewrite app_comm_cons. apply elem_of_app. left. exact Hr. }
    apply elem_of_cons in Hr as [-> | Hr]; [eapply top_inside; eauto |].
    unfold secondaryRects in Hr. apply list_elem_of_fmap in Hr as [i [-> Hi]].
    apply elem_of_seqZ in Hi. eapply (bottom_inside W H i); eauto; lia. }
  split.
  { intros x y. unfold inRect, helpRect; simpl. lia. }
  split.
  { intros ->. split; [apply full_grid_covers; assumption |].
    apply full_grid_area; assumption. }
  intros i x y Hi Hin. eapply empty_slot_uncovered; eauto; lia.
Qed.

Lemma layout_tiling_witness :
  pairwiseDisjoint (layoutRects 80 27 6)
  /\ coversGrid 80 27 (layoutRects 80 27 6)
  /\ uncovered (layoutRects 80 27 4) 30 20.
Proof.
  destruct (layout_tiling 80 27 6) as [Hdis [_ [_ [Hfull _]]]]; [lia | lia | lia |].
  destruct (layout_tiling 80 27 4) as [_ [_ [_ [_ Hgap]]]]; [lia | lia | lia |].
  split; [exact Hdis |].
  split; [exact (proj1 (Hfull eq_refl)) |].
  apply (Hgap 5); [lia |].
  change (bottomRect 80 27 5) with (mkRect 26 16 51 23).
  unfold inRect; simpl. lia.
Defined.

(** C1, as the specification states it, fails: with no secondary slot the
    cell (0,5) of a 3 x 12 grid is in no rectangle, and with all six slots
    the areas sum to 42, not 36, because of the footer's two extra columns. *)
Lemma tiling_counterexample :
  ~ tilesGrid 3 12 (layoutRects 3 12 0) /\ ~ tilesGrid 3 12 (layoutRects 3 12 6).
Proof.
  split.
  - intros [_ [Hcov _]].
    destruct (Hcov 0 5 ltac:(lia) ltac:(lia)) as [r [Hr Hin]].
    destruct (layoutRects_elem 3 12 0 r ltac:(lia) Hr) as [-> | [[i [Hi _]] | ->]].
    + change (topRect 3 12) with (mkRect 0 0 2 2) in Hin.
      unfold inRect in Hin; simpl in Hin. lia.
    + lia.
    + change (helpRect 3 12) with (mkRect (-1) 9 3 11) in Hin.
      unfold inRect in Hin; simpl in Hin. lia.
  - intros [_ [_ Harea]]. vm_compute in Harea. discriminate.
Qed.

(** ** Formatting and the blinking separator *)

Lemma Format_hm_colon (t : Time) :
  Format t "03:04 PM" = hh t ++ [58] ++ mm t ++ [32] ++ ampm t.
Proof.
  transitivity (hh t ++ [58] ++ mm t ++ [32] ++ ampm t ++ []); [reflexivity |].
  rewrite app_nil_r. reflexivity.
Qed.

Lemma Format_hm_blank (t : Time) :
  Format t "03 04 PM" = hh t ++ [32] ++ mm t ++ [32] ++ ampm t.
Proof.
  transitivity (hh t ++ [32] ++ mm t ++ [32] ++ ampm t ++ []); [reflexivity |].
  rewrite app_nil_r. reflexivity.
Qed.

Lemma Format_hms (t : Time) :
  Format t "03:04:05 PM" = hh t ++ [58] ++ mm t ++ [58] ++ ss t ++ [32] ++ ampm t.
Proof.
  transitivity (hh t ++ [58] ++ mm t ++ [58] ++ ss t ++ [32] ++ ampm t ++ []);
    [reflexivity |].
  rewrite app_nil_r. reflexivity.
Qed.

Lemma Format_short_date (t : Time) :
  Format t "Mon, Jan 2"
  = take 3 (weekdayName (TWeekday t)) ++ lit ", "
    ++ take 3 (monthName (TMonth t)) ++ lit " " ++ appendInt (Day t) 0.
Proof.
  transitivity (take 3 (weekdayName (TWeekday t)) ++ lit ", "
    ++ take 3 (monthName (TMonth t)) ++ lit " " ++ appendInt (Day t) 0 ++ []);
    [reflexivity |].
  rewrite app_nil_r. reflexivity.
Qed.

Lemma Format_long_date (t : Time) :
  Format t "Monday, January 2, 2006"
  = weekdayName (TWeekday t) ++ lit ", " ++ monthName (TMonth t) ++ lit " "
    ++ appendInt (Day t) 0 ++ lit ", " ++ appendInt (Year t) 4.
Proof.
  transitivity (weekdayName (TWeekday t) ++ lit ", " ++ monthName (TMonth t) ++ lit " "
    ++ appendInt (Day t) 0 ++ lit ", " ++ appendInt (Year t) 4 ++ []);
    [reflexivity |].
  rewrite app_nil_r. reflexivity.
Qed.

Lemma rem2_even (s : Z) : Z.even s = true -> Z.rem s 2 = 0.
Proof.
  intros He. apply Z.even_spec in He as [k ->].
  rewrite Z.mul_comm. apply Z.rem_mul. lia.
Qed.

Lemma rem2_odd (s : Z) : Z.odd s = true -> Z.rem s 2 <> 0.
Proof.
  intros Ho Hr. pose proof (Z.quot_rem' s 2) as E. rewrite Hr in E.
  rewrite E, Z.add_0_r, Z.odd_mul in Ho. discriminate.
Qed.

(** Two decimal digits for a number below one hundred. *)
Lemma appendInt2_length (n : Z) : 0 <= n < 100 -> length (appendInt n 2) = 2%nat.
Proof.
  intros Hn.
  assert (Hall : forallb (fun k => (length (appendInt k 2) =? 2)%nat) (seqZ 0 100) = true)
    by (vm_compute; reflexivity).
  rewrite forallb_forall in Hall.
  specialize (Hall n). rewrite Nat.eqb_eq in Hall. apply Hall.
  apply list_elem_of_In, elem_of_seqZ. lia.
Qed.

Lemma hh_length (t : Time) : 0 <= Hour t < 24 -> length (hh t) = 2%nat.
Proof.
  intros Hh. apply appendInt2_length. unfold hour12.
  pose proof (Z.rem_bound_pos (Hour t) 12 ltac:(lia) ltac:(lia)).
  destruct (Z.rem (Hour t) 12 =? 0); lia.
Qed.

(** C7. Two instants that differ only in the second, one even and one odd:
    the art-mode layout is "03:04 PM" for the even and "03 04 PM" for the
    odd second, and the formatted times are the same two-digit hour, then a
    colon for the even and a space for the odd second, then the same
    minute, space and AM/PM. *)
Theorem blink_separator (t : Time) (even odd : Z) :
  0 <= Hour t < 24 ->
  Z.even even = true -> Z.odd odd = true ->
  blinkFormat (withSecond t even) = "03:04 PM"%string
  /\ blinkFormat (withSecond t odd) = "03 04 PM"%string
  /\ length (hh t) = 2%nat
  /\ Format (withSecond t even) (blinkFormat (withSecond t even))
     = hh t ++ [58] ++ mm t ++ [32] ++ ampm t
  /\ Format (withSecond t odd) (blinkFormat (withSecond t odd))
     = hh t ++ [32] ++ mm t ++ [32] ++ ampm t.
Proof.
  intros Hh He Ho.
  assert (E1 : blinkFormat (withSecond t even) = "03:04 PM"%string).
  { unfold blinkFormat. simpl Second. rewrite (rem2_even even He). reflexivity. }
  assert (E2 : blinkFormat (withSecond t odd) = "03 04 PM"%string).
  { unfold blinkFormat. simpl Second.
    destruct (Z.rem odd 2 =? 0) eqn:E; [| reflexivity].
    apply Z.eqb_eq in E. destruct (rem2_odd odd Ho E). }
  rewrite E1, E2. repeat split.
  - apply hh_length; assumption.
  - rewrite Format_hm_colon. reflexivity.
  - rewrite Format_hm_blank. reflexivity.
Qed.

Lemma blink_separator_witness :
  Format (withSecond sampleInstant 4) (blinkFormat (withSecond sampleInstant 4))
    = lit "03:04 PM"
  /\ Format (withSecond sampleInstant 5) (blinkFormat (withSecond sampleInstant 5))
    = lit "03 04 PM".
Proof.
  destruct (blink_separator sampleInstant 4 5) as [_ [_ [_ [H4 H5]]]];
    [simpl; lia | reflexivity | reflexivity |].
  split; [exact H4 | exact H5].
Defined.

(** ** The cell renderer *)

Lemma UpdateViewTime_plain (sw : gostring -> Z) (now : Time) (width height : Z) :
  height < 8 ->
  UpdateViewTime sw now width height = plainTextOps sw now width height.
Proof. intros Hh. unfold UpdateViewTime. destruct (height <? 8) eqn:E; [reflexivity | lia]. Qed.

Lemma UpdateViewTime_art (sw : gostring -> Z) (now : Time) (width height : Z) :
  8 <= height ->
  UpdateViewTime sw now width height = artOps sw now width height.
Proof. intros Hh. unfold UpdateViewTime. destruct (height <? 8) eqn:E; [lia | reflexivity]. Qed.

(** ** Centering *)

Lemma Replace_styled :
  Replace repl (ansiBold ++ lit "AB" ++ ansiReset) = lit "AB".
Proof. reflexivity. Qed.

Lemma clamp_quot_div (a : Z) : Z.max 0 (a ÷ 2) = Z.max 0 (a / 2).
Proof.
  destruct (Z_le_gt_dec 0 a) as [Ha | Ha].
  - rewrite Z.quot_div_nonneg by lia. reflexivity.
  - assert (a ÷ 2 <= 0).
    { pose proof (Z.quot_opp_l a 2 ltac:(lia)) as E.
      pose proof (Z.quot_pos (- a) 2 ltac:(lia) ltac:(lia)). lia. }
    assert (a / 2 <= 0).
    { pose proof (Z.div_lt_upper_bound a 2 0 ltac:(lia) ltac:(lia)). lia. }
    lia.
Qed.

Lemma pad_or_not (pad : Z) (s : gostring) :
  (if 0 <? pad then replicate (Z.to_nat pad) 32 ++ s else s)
  = replicate (Z.to_nat (Z.max 0 pad)) 32 ++ s.
Proof.
  destruct (0 <? pad) eqn:E.
  - rewrite Z.max_r by lia. reflexivity.
  - rewrite Z.max_l by lia. reflexivity.
Qed.

(** C8. Both centering functions prepend max(0, (width - w)/2) spaces and
    nothing else, so the text is never truncated; [CenterTime] measures the
    text itself, [CenterDate] measures it with the ANSI style markers
    removed and pads the text with its markers.  A text of display width 2
    centred in width 10 gets four spaces in front. *)
Theorem centering_spec (sw : gostring -> Z) (s : gostring) (width : Z) :
  CenterTime sw s width
    = replicate (Z.to_nat (Z.max 0 ((width - sw s) / 2))) 32 ++ s
  /\ CenterDate sw s width
    = replicate (Z.to_nat (Z.max 0 ((width - sw (Replace repl s)) / 2))) 32 ++ s
  /\ (sw (lit "AB") = 2 -> CenterTime sw (lit "AB") 10 = lit "    AB")
  /\ (sw (Replace repl s) = 2 -> CenterDate sw s 10 = lit "    " ++ s).
Proof.
  split; [| split; [| split]].
  - unfold CenterTime. rewrite pad_or_not, clamp_quot_div. reflexivity.
  - unfold CenterDate. rewrite pad_or_not, clamp_quot_div. reflexivity.
  - intros Hw. unfold CenterTime. rewrite Hw. reflexivity.
  - intros Hw. unfold CenterDate. rewrite Hw. reflexivity.
Qed.

Lemma centering_spec_witness :
  CenterTime sampleWidth (lit "AB") 10 = lit "    AB"
  /\ CenterDate sampleWidth (ansiBold ++ lit "AB" ++ ansiReset) 10
     = lit "    " ++ ansiBold ++ lit "AB" ++ ansiReset.
Proof.
  split.
  - apply (centering_spec sampleWidth (lit "AB") 10). reflexivity.
  - apply (centering_spec sampleWidth (ansiBold ++ lit "AB" ++ ansiReset) 10).
    reflexivity.
Defined.

(** ** The day-progress bar *)

Lemma wrap64_range (z : Z) : - 2 ^ 63 <= wrap64 z < 2 ^ 63.
Proof.
  unfold wrap64. pose proof (Z.mod_pos_bound (z + 2 ^ 63) (2 ^ 64) ltac:(lia)).
  change (2 ^ 64) with (2 * 2 ^ 63) in *. lia.
Qed.

Lemma barWidthOf_range (width : Z) (timeRemaining : gostring) :
  0 <= barWidthOf width timeRemaining < 2 ^ 63.
Proof.
  unfold barWidthOf.
  pose proof (wrap64_range (wrap64 (width - 2) - len timeRemaining)).
  destruct (wrap64 (wrap64 (width - 2) - len timeRemaining) <? 0) eqn:E; lia.
Qed.

Lemma concat_replicate_single (r : rune) (k : nat) :
  concat (replicate k [r]) = replicate k r.
Proof. induction k as [| k IH]; simpl; [| rewrite IH]; reflexivity. Qed.

Lemma Repeat_single (r : rune) (n : Z) :
  0 <= n -> utf8len r * n <= maxInt ->
  Repeat [r] n = Some (replicate (Z.to_nat n) r).
Proof.
  intros Hn Hfit. unfold Repeat. destruct (n <? 0) eqn:E; [lia |].
  change (len [r]) with (utf8len r + 0). rewrite Z.add_0_r.
  unfold maxInt in Hfit.
  destruct (2 ^ 63 - 1 <? utf8len r * n) eqn:E2; [lia |].
  rewrite concat_replicate_single. reflexivity.
Qed.

Lemma Repeat_overflow (r : rune) (n : Z) :
  0 <= n -> maxInt < utf8len r * n -> Repeat [r] n = None.
Proof.
  intros Hn Hfit. unfold Repeat. destruct (n <? 0) eqn:E; [reflexivity |].
  change (len [r]) with (utf8len r + 0). rewrite Z.add_0_r.
  unfold maxInt in Hfit.
  destruct (2 ^ 63 - 1 <? utf8len r * n) eqn:E2; [reflexivity | lia].
Qed.

Lemma timeRemaining_ascii (r : Z) :
  0 <= r <= 86400 ->
  len (timeRemainingOf r) = runeCount (timeRemainingOf r)
  /\ 11 <= runeCount (timeRemainingOf r) <= 13.
Proof.
  intros Hr.
  set (text := fun H M => lit " " ++ itoa H ++ lit "h " ++ itoa M ++ lit "m left").
  assert (Hall : forallb (fun H => forallb (fun M =>
                   (len (text H M) =? runeCount (text H M))
                   && (11 <=? runeCount (text H M)) && (runeCount (text H M) <=? 13))
                   (seqZ 0 60)) (seqZ 0 25) = true) by (vm_compute; reflexivity).
  rewrite forallb_forall in Hall.
  assert (HH : 0 <= r ÷ 3600 < 25).
  { rewrite Z.quot_div_nonneg by lia. split; [apply Z.div_pos; lia |].
    apply Z.div_lt_upper_bound; lia. }
  assert (HM : 0 <= Z.rem r 3600 ÷ 60 < 60).
  { rewrite Z.rem_mod_nonneg by lia.
    pose proof (Z.mod_pos_bound r 3600 ltac:(lia)).
    rewrite Z.quot_div_nonneg by lia. split; [apply Z.div_pos; lia |].
    apply Z.div_lt_upper_bound; lia. }
  specialize (Hall (r ÷ 3600)). rewrite forallb_forall in Hall.
  specialize (Hall ltac:(apply list_elem_of_In, elem_of_seqZ; lia) (Z.rem r 3600 ÷ 60)
                   ltac:(apply list_elem_of_In, elem_of_seqZ; lia)).
  apply andb_true_iff in Hall as [Hall H3]. apply andb_true_iff in Hall as [H1 H2].
  change (text (r ÷ 3600) (Z.rem r 3600 ÷ 60)) with (timeRemainingOf r) in *.
  lia.
Qed.

Lemma wrap64_id (z : Z) : - 2 ^ 63 <= z < 2 ^ 63 -> wrap64 z = z.
Proof.
  intros Hz. unfold wrap64.
  rewrite Z.mod_small by (change (2 ^ 64) with (2 * 2 ^ 63); lia). lia.
Qed.

(** In the range [barFits] the subtractions of the bar width do not wrap
    around, and three times the bar width fits in an [int]. *)
Lemma barWidthOf_fits (now : Time) (width : Z) :
  validClock now -> barFits width ->
  let text := timeRemainingOf (86400 - secsOf now) in
  barWidthOf width text = Z.max 0 (width - 2 - runeCount text)
  /\ 3 * barWidthOf width text <= maxInt.
Proof.
  intros Hv [Hlo Hhi] text. pose proof (secsOf_range now Hv) as Hs.
  destruct (timeRemaining_ascii (86400 - secsOf now) ltac:(lia)) as [Hlen Hrange].
  fold text in Hlen, Hrange.
  change (maxInt ÷ 3) with 3074457345618258602 in Hhi.
  change minInt with (-9223372036854775808) in Hlo.
  change maxInt with 9223372036854775807.
  change (2 ^ 63) with 9223372036854775808 in *.
  assert (E : barWidthOf width text = Z.max 0 (width - 2 - runeCount text)).
  { unfold barWidthOf. rewrite Hlen.
    rewrite (wrap64_id (width - 2))
      by (change (2 ^ 63) with 9223372036854775808; lia).
    rewrite wrap64_id by (change (2 ^ 63) with 9223372036854775808; lia).
    destruct (width - 2 - runeCount text <? 0) eqn:E; lia. }
  split; [exact E | rewrite E; lia].
Qed.

(** The result of [getDayProgressBar] at a valid instant and any width: the
    bar, or the panic of [strings.Repeat] when three bytes for each filled
    column overflow. *)
Lemma progress_bar_form (now : Time) (width : Z) :
  validClock now ->
  let timeRemaining := timeRemainingOf (86400 - secsOf now) in
  let barWidth := barWidthOf width timeRemaining in
  exists fillWidth,
    fillWidthOf barWidth now = Some fillWidth
    /\ 0 <= fillWidth <= barWidth
    /\ (3 * fillWidth <= maxInt ->
        getDayProgressBar now width
        = Some (color now
                ++ (lit "[" ++ replicate (Z.to_nat fillWidth) 9608
                    ++ replicate (Z.to_nat (barWidth - fillWidth)) 32 ++ lit "]")
                ++ timeRemaining ++ ansiReset))
    /\ (maxInt < 3 * fillWidth -> getDayProgressBar now width = None).
Proof.
  intros Hv timeRemaining barWidth.
  pose proof (barWidthOf_range width timeRemaining) as Hbw. fold barWidth in Hbw.
  destruct (fillWidth_spec now barWidth Hv Hbw) as [fillWidth [Hf Hr]].
  exists fillWidth. split; [exact Hf |]. split; [exact Hr |].
  assert (Hstart : getDayProgressBar now width
                   = (filled ← Repeat fullBlock fillWidth;
                      blank ← Repeat (lit " ") (barWidth - fillWidth);
                      Some (color now ++ (lit "[" ++ filled ++ blank ++ lit "]")
                            ++ timeRemaining ++ ansiReset))).
  { unfold getDayProgressBar. rewrite (remainingSecs_spec now Hv). simpl mbind.
    fold timeRemaining. fold barWidth. rewrite Hf. reflexivity. }
  rewrite Hstart. unfold fullBlock. split.
  - intros Hfit. rewrite Repeat_single by (change (utf8len 9608) with 3; lia).
    simpl mbind. change (lit " ") with [32].
    rewrite Repeat_single
      by (change (utf8len 32) with 1; unfold maxInt in *; lia).
    reflexivity.
  - intros Hover. rewrite Repeat_overflow by (change (utf8len 9608) with 3; lia).
    reflexivity.
Qed.

(** In the range [barFits] the bar is built. *)
Lemma progress_bar_fits (now : Time) (width : Z) :
  validClock now -> barFits width ->
  let timeRemaining := timeRemainingOf (86400 - secsOf now) in
  let barWidth := barWidthOf width timeRemaining in
  exists fillWidth,
    fillWidthOf barWidth now = Some fillWidth
    /\ 0 <= fillWidth <= barWidth
    /\ getDayProgressBar now width
       = Some (color now
               ++ (lit "[" ++ replicate (Z.to_nat fillWidth) 9608
                   ++ replicate (Z.to_nat (barWidth - fillWidth)) 32 ++ lit "]")
               ++ timeRemaining ++ ansiReset).
Proof.
  intros Hv Hw timeRemaining barWidth.
  destruct (progress_bar_form now width Hv) as [fillWidth [Hf [Hr [Hbar _]]]].
  destruct (barWidthOf_fits now width Hv Hw) as [_ Hfit].
  exists fillWidth. split; [exact Hf |]. split; [exact Hr |].
  apply Hbar. fold timeRemaining barWidth in Hfit, Hr. lia.
Qed.




Lemma half_R : (IZR (Zpos 4503599627370496) * powerRZ 2 (-53) = 1 / 2)%R.
Proof.
  replace (-53) with (- (53)) by reflexivity.
  rewrite powerRZ_neg', <- IZR_pow2 by lia.
  change (IZR (2 ^ 53)) with 9007199254740992%R. lra.
Qed.

Lemma timeRemaining_text (remainingSecs : Z) :
  0 <= remainingSecs ->
  timeRemainingOf remainingSecs
  = lit " " ++ remainingText (remainingSecs / 3600) (remainingSecs mod 3600 / 60).
Proof.
  intros Hr. unfold timeRemainingOf, remainingText.
  rewrite Z.rem_mod_nonneg by lia.
  rewrite !Z.quot_div_nonneg; try lia.
  - reflexivity.
  - apply Z.mod_pos_bound. lia.
Qed.

(** C5. The day progress: at 00:00:00 the fraction is 0 and the text is
    "24h 0m left"; at 12:00:00 the fraction is 0.5; at 23:59:59 the text is
    "0h 0m left"; at every instant the text is "{H}h {M}m left" with H and
    M the whole hours and the whole minutes of 86400 minus the seconds
    since midnight, and it is what the bar returned by [getDayProgressBar]
    ends with (after a blank, before the style reset); the bar is
    returned at every width in the range [barFits]. *)
Theorem day_progress_spec :
  (forall y mo d wd,
      percent (mkTime y mo d wd 0 0 0) = S754_zero false
      /\ B2R (percent (mkTime y mo d wd 0 0 0)) = 0%R
      /\ DayProgress.remainingSecs (mkTime y mo d wd 0 0 0) = Some 86400
      /\ timeRemainingOf 86400 = lit " " ++ lit "24h 0m left")
  /\ (forall y mo d wd,
      B2R (percent (mkTime y mo d wd 12 0 0)) = (1 / 2)%R)
  /\ (forall y mo d wd,
      DayProgress.remainingSecs (mkTime y mo d wd 23 59 59) = Some 1
      /\ timeRemainingOf 1 = lit " " ++ lit "0h 0m left")
  /\ (forall now width, validClock now ->
      let left := 86400 - secsOf now in
      DayProgress.remainingSecs now = Some left
      /\ timeRemainingOf left
         = lit " " ++ remainingText (left / 3600) (left mod 3600 / 60)
      /\ (forall out, getDayProgressBar now width = Some out ->
           exists bar,
             out = color now ++ bar ++ lit " "
                   ++ remainingText (left / 3600) (left mod 3600 / 60) ++ ansiReset)
      /\ (barFits width ->
           exists bar,
             getDayProgressBar now width
             = Some (color now ++ bar ++ lit " "
                     ++ remainingText (left / 3600) (left mod 3600 / 60) ++ ansiReset))).
Proof.
  split; [| split; [| split]].
  - intros.
    assert (E : percent (mkTime y mo d wd 0 0 0) = S754_zero false)
      by (vm_compute; reflexivity).
    rewrite E. repeat split; vm_compute; reflexivity.
  - intros.
    assert (E : percent (mkTime y mo d wd 12 0 0)
                = S754_finite false 4503599627370496 (-53))
      by (vm_compute; reflexivity).
    rewrite E. exact half_R.
  - intros. split; vm_compute; reflexivity.
  - intros now width Hv left.
    pose proof (secsOf_range now Hv) as Hs.
    split; [apply remainingSecs_spec; exact Hv |].
    split; [apply timeRemaining_text; unfold left; lia |].
    destruct (progress_bar_form now width Hv) as [fw [_ [Hfw [Hbar Hpanic]]]].
    fold left in Hbar, Hpanic, Hfw.
    rewrite (timeRemaining_text left) in Hbar by (unfold left; lia).
    pose proof (barWidthOf_fits now width Hv) as Hfits. cbv zeta in Hfits.
    fold left in Hfits.
    set (bar := lit "["
            ++ replicate (Z.to_nat fw) 9608
            ++ replicate
                 (Z.to_nat
                    (barWidthOf width
                       (lit " " ++ remainingText (left / 3600) (left mod 3600 / 60)) - fw))
                 32
            ++ lit "]").
    assert (Hform : 3 * fw <= maxInt ->
              getDayProgressBar now width
              = Some (color now ++ bar ++ lit " "
                      ++ remainingText (left / 3600) (left mod 3600 / 60) ++ ansiReset)).
    { intros Hfit. rewrite (Hbar Hfit). unfold bar. rewrite <- !app_assoc. reflexivity. }
    split.
    + intros out Hout. exists bar.
      destruct (Z_le_gt_dec (3 * fw) maxInt) as [Hfit | Hover].
      * rewrite (Hform Hfit) in Hout. injection Hout as <-. reflexivity.
      * rewrite Hpanic in Hout by lia. discriminate.
    + intros Hw. exists bar. apply Hform.
      destruct (Hfits Hw) as [_ H3]. lia.
Qed.

Lemma day_progress_spec_witness :
  DayProgress.remainingSecs sampleInstant = Some 32155
  /\ timeRemainingOf 32155 = lit " 8h 55m left".
Proof.
  destruct day_progress_spec as [_ [_ [_ Hgen]]].
  destruct (Hgen sampleInstant 40) as [Hr [Ht _]].
  - unfold validClock; simpl; lia.
  - split; [exact Hr | exact Ht].
Defined.

(** ** Plain-text mode and the blink *)

Lemma mm_length (t : Time) : 0 <= Minute t < 60 -> length (mm t) = 2%nat.
Proof. intros Hm. apply appendInt2_length. lia. Qed.

Lemma time_text_colons (t : Time) :
  0 <= Hour t < 24 -> 0 <= Minute t < 60 ->
  (hh t ++ [58] ++ mm t ++ [58] ++ ss t ++ [32] ++ ampm t) !! 2%nat = Some 58
  /\ (hh t ++ [58] ++ mm t ++ [58] ++ ss t ++ [32] ++ ampm t) !! 5%nat = Some 58.
Proof.
  intros Hh Hm. pose proof (hh_length t Hh) as L1. pose proof (mm_length t Hm) as L2.
  destruct (hh t) as [| a [| b [| c l]]]; try discriminate.
  destruct (mm t) as [| a' [| b' [| c' l']]]; try discriminate.
  split; reflexivity.
Qed.

(** C10. In plain-text mode (height below 8) the view gets, at every valid
    instant and whatever the parity of its second, the centred
    "03:04:05 PM" rendering as its time line, with a colon after the hour
    and a colon after the minute; the blink layout is not used.  The frame
    is written at every width at which the progress bar is built, so in the
    range [barFits]. *)
Theorem plain_text_no_blink (sw : gostring -> Z) (now : Time) (width height : Z) :
  height < 8 -> validClock now ->
  UpdateViewTime sw now width height
  = (bar ← getDayProgressBar now width;
     Some [ Clear;
            Write (10 :: CenterDate sw
                     (hh now ++ [58] ++ mm now ++ [58] ++ ss now ++ [32] ++ ampm now)
                     width);
            Write (10 :: CenterDate sw (Format now "Mon, Jan 2") width);
            SetCursor 0 (height - 1);
            Write bar ])
  /\ (barFits width ->
      exists bar,
        getDayProgressBar now width = Some bar
        /\ UpdateViewTime sw now width height
           = Some [ Clear;
                    Write (10 :: CenterDate sw
                             (hh now ++ [58] ++ mm now ++ [58] ++ ss now ++ [32]
                              ++ ampm now)
                             width);
                    Write (10 :: CenterDate sw (Format now "Mon, Jan 2") width);
                    SetCursor 0 (height - 1);
                    Write bar ])
  /\ Format now "03:04:05 PM"
     = hh now ++ [58] ++ mm now ++ [58] ++ ss now ++ [32] ++ ampm now
  /\ Format now "03:04:05 PM" !! 2%nat = Some 58
  /\ Format now "03:04:05 PM" !! 5%nat = Some 58.
Proof.
  intros Hh Hv.
  assert (Hplain : UpdateViewTime sw now width height
            = (bar ← getDayProgressBar now width;
               Some [ Clear;
                      Write (10 :: CenterDate sw
                               (hh now ++ [58] ++ mm now ++ [58] ++ ss now ++ [32]
                                ++ ampm now)
                               width);
                      Write (10 :: CenterDate sw (Format now "Mon, Jan 2") width);
                      SetCursor 0 (height - 1);
                      Write bar ])).
  { rewrite UpdateViewTime_plain by assumption.
    unfold plainTextOps. rewrite Format_hms. reflexivity. }
  split; [exact Hplain |]. split.
  - intros Hw.
    destruct (progress_bar_fits now width Hv Hw) as [fw [_ [_ Hbar]]].
    eexists. split; [exact Hbar |].
    rewrite Hplain, Hbar. reflexivity.
  - rewrite Format_hms. split; [reflexivity |].
    destruct Hv as [H1 [H2 _]]. apply time_text_colons; assumption.
Qed.

Lemma plain_text_no_blink_witness :
  exists bar,
    UpdateViewTime sampleWidth sampleInstant 40 7
    = Some [ Clear;
             Write (10 :: CenterDate sampleWidth (lit "03:04:05 PM") 40);
             Write (10 :: CenterDate sampleWidth (lit "Tue, Feb 3") 40);
             SetCursor 0 6;
             Write bar ].
Proof.
  destruct (plain_text_no_blink sampleWidth sampleInstant 40 7) as [_ [H _]].
  - lia.
  - unfold validClock; simpl; lia.
  - destruct (H ltac:(split; vm_compute; discriminate)) as [bar [_ Hops]].
    exists bar. exact Hops.
Defined.

(** ** The render mode *)

(** C6, as the code has it.  The renderer selects its mode by the height
    alone.  In the current program text the threshold is 8: below 8 (so at
    height 7) it renders plain-text mode - a single centred time line, the
    centred short date, the progress bar on the last row - and from 8 on
    ASCII-art mode.  In the third program text the threshold is 7, so
    height 7 is rendered in ASCII-art mode there.  The frame is written at
    every width at which the progress bar is built, so in the range
    [barFits]. *)
Theorem render_mode_threshold (sw : gostring -> Z) (now : Time) (width : Z) :
  (forall height, height < 8 ->
     UpdateViewTime sw now width height
     = (bar ← getDayProgressBar now width;
        Some [ Clear;
               Write (10 :: CenterDate sw (Format now "03:04:05 PM") width);
               Write (10 :: CenterDate sw (Format now "Mon, Jan 2") width);
               SetCursor 0 (height - 1);
               Write bar ]))
  /\ (forall height, 8 <= height ->
     UpdateViewTime sw now width height
     = (bar ← getDayProgressBar now width;
        Some ([ Clear; Write [10] ]
              ++ map (fun line => Write (CenterTime sw line width ++ [10]))
                     (PrintTimeASCII (Format now (blinkFormat now)))
              ++ [ Write (CenterDate sw
                            (ansiBold ++ Format now "Monday, January 2, 2006" ++ ansiReset)
                            width ++ [10]);
                   Write (CenterDate sw (getBusinessHoursIndicator now) width ++ [10]);
                   SetCursor 0 (height - 1);
                   Write bar ])))
  /\ (forall height, height < 7 ->
     Variant3.UpdateViewTime sw now width height
     = [ Clear; SetCursor 2 1;
         Write ([10; 10] ++ Variant3.CenterDate sw (Format now "03:04:05 PM") width);
         Write (10 :: Variant3.CenterDate sw (Format now "Mon, Jan 2") width) ])
  /\ (forall height, 7 <= height ->
     Variant3.UpdateViewTime sw now width height
     = [ Clear; SetCursor 2 1; Write [10; 10] ]
       ++ map (fun line => Write (Variant3.CenterTime sw line width ++ [10]))
              (PrintTimeASCII (Format now "03:04 PM"))
       ++ [ Write [10];
            Write (Variant3.CenterDate sw
                     (ansiBold ++ Format now "Monday, January 2, 2006" ++ ansiReset)
                     width ++ [10]) ])
  /\ (validClock now -> barFits width ->
     forall height, exists ops, UpdateViewTime sw now width height = Some ops).
Proof.
  split; [| split; [| split; [| split]]]. 1,2,3,4: intros height Hh.
  - rewrite UpdateViewTime_plain by assumption. reflexivity.
  - rewrite UpdateViewTime_art by assumption. reflexivity.
  - unfold Variant3.UpdateViewTime.
    destruct (height <? 7) eqn:E; [reflexivity | lia].
  - unfold Variant3.UpdateViewTime.
    destruct (height <? 7) eqn:E; [lia | reflexivity].
  - intros Hv Hw height.
    destruct (progress_bar_fits now width Hv Hw) as [fw [_ [_ Hbar]]].
    unfold UpdateViewTime, plainTextOps, artOps. rewrite Hbar.
    destruct (height <? 8); eexists; reflexivity.
Qed.

Lemma render_mode_threshold_witness :
  (exists ops, UpdateViewTime sampleWidth sampleInstant 40 7 = Some ops)
  /\ UpdateViewTime sampleWidth sampleInstant 40 7
     = plainTextOps sampleWidth sampleInstant 40 7
  /\ UpdateViewTime sampleWidth sampleInstant 40 8
     = artOps sampleWidth sampleInstant 40 8
  /\ Variant3.UpdateViewTime sampleWidth sampleInstant 40 6
     = Variant3.plainTextOps sampleWidth sampleInstant 40
  /\ Variant3.UpdateViewTime sampleWidth sampleInstant 40 7
     = Variant3.artOps sampleWidth sampleInstant 40.
Proof.
  destruct (render_mode_threshold sampleWidth sampleInstant 40)
    as [H1 [H2 [H3 [H4 H5]]]].
  split; [apply H5; [unfold validClock; simpl; lia
                    | split; vm_compute; discriminate] |].
  split; [exact (H1 7 ltac:(lia)) |].
  split; [exact (H2 8 ltac:(lia)) |].
  split; [exact (H3 6 ltac:(lia)) | exact (H4 7 ltac:(lia))].
Defined.

(** C6, as the specification states it, fails on the third program text:
    at height 7 its renderer produces the ASCII-art content, not the
    plain-text one. *)
Lemma render_mode_counterexample :
  Variant3.UpdateViewTime sampleWidth sampleInstant 80 7
    = Variant3.artOps sampleWidth sampleInstant 80
  /\ Variant3.UpdateViewTime sampleWidth sampleInstant 80 7
    <> Variant3.plainTextOps sampleWidth sampleInstant 80.
Proof.
  split; [reflexivity |].
  intros E. apply (f_equal length) in E. vm_compute in E. discriminate.
Qed.

(** * Further properties of the code *)

(** ** Day and night, colour bands *)

(** X1. The icon is the sun exactly from 06:00 to 17:59, the moon otherwise,
    and whenever the business-hours indicator is open the icon is the sun. *)
Theorem day_night_icon (now : Time) :
  (getDayNightIcon now = sunFace <-> 6 <= Hour now < 18)
  /\ (getDayNightIcon now = crescentMoon <-> ~ 6 <= Hour now < 18)
  /\ (getBusinessHoursIndicator now = greenCircle -> getDayNightIcon now = sunFace).
Proof.
  assert (Hsun : getDayNightIcon now = sunFace <-> 6 <= Hour now < 18).
  { unfold getDayNightIcon.
    destruct (6 <=? Hour now) eqn:E1; destruct (Hour now <? 18) eqn:E2; simpl;
      split; intros; try discriminate; try reflexivity; lia. }
  split; [exact Hsun |]. split.
  - rewrite <- Hsun. unfold getDayNightIcon.
    destruct ((6 <=? Hour now) && (Hour now <? 18)); split; intros;
      try discriminate; try reflexivity; tauto.
  - intros Hopen. apply indicator_open_iff in Hopen as [_ Hh].
    apply Hsun. lia.
Qed.

Lemma day_night_icon_witness :
  getDayNightIcon sampleInstant = sunFace.
Proof.
  apply (day_night_icon sampleInstant). reflexivity.
Defined.

(** X2. The colour of the progress bar: green from 05:00 to 16:59, yellow
    from 17:00 to 20:59, red from 21:00 to 04:59. *)
Theorem color_bands (now : Time) :
  (color now = ansiGreen <-> 5 <= Hour now < 17)
  /\ (color now = ansiYellow <-> 17 <= Hour now < 21)
  /\ (color now = ansiRed <-> Hour now < 5 \/ 21 <= Hour now).
Proof.
  unfold color.
  destruct (17 <=? Hour now) eqn:E1; destruct (Hour now <? 21) eqn:E2;
    destruct (21 <=? Hour now) eqn:E3; destruct (Hour now <? 5) eqn:E4; simpl;
    repeat split; intros; try discriminate; try reflexivity; lia.
Qed.

(** ** More on the progress bar *)

(** X3. On a view of width [width], from 0 to a third of the largest
    [int] (beyond which [strings.Repeat] can overflow), the bar with its
    text has exactly [width] characters as soon as the width is at least
    that of the two brackets and the text, 13 to 15 characters in all; on a
    narrower view it has the brackets and the text, and so is wider than
    the view. *)
Theorem progress_bar_width (now : Time) (width : Z) :
  validClock now -> 0 <= width <= maxInt ÷ 3 ->
  let text := timeRemainingOf (86400 - secsOf now) in
  exists visible,
    getDayProgressBar now width = Some (color now ++ visible ++ ansiReset)
    /\ runeCount visible = Z.max width (2 + runeCount text)
    /\ 13 <= 2 + runeCount text <= 15.
Proof.
  intros Hv Hw text. pose proof (secsOf_range now Hv) as Hs.
  destruct (timeRemaining_ascii (86400 - secsOf now) ltac:(lia)) as [Hlen Hrange].
  fold text in Hlen, Hrange.
  assert (Hfit : barFits width).
  { unfold barFits. change minInt with (-9223372036854775808). lia. }
  destruct (progress_bar_fits now width Hv Hfit) as [fw [_ [Hfw Hbar]]].
  fold text in Hfw, Hbar.
  destruct (barWidthOf_fits now width Hv Hfit) as [Hbw _]. fold text in Hbw.
  exists ((lit "[" ++ replicate (Z.to_nat fw) 9608
           ++ replicate (Z.to_nat (barWidthOf width text - fw)) 32 ++ lit "]") ++ text).
  split; [rewrite Hbar, <- !app_assoc; reflexivity |].
  split; [| lia].
  unfold runeCount in *. rewrite !length_app, !length_replicate.
  change (length (lit "[")) with 1%nat. change (length (lit "]")) with 1%nat.
  rewrite Hbw in *. lia.
Qed.

Lemma progress_bar_width_witness :
  exists visible,
    getDayProgressBar sampleInstant 40 = Some (color sampleInstant ++ visible ++ ansiReset)
    /\ runeCount visible = 40.
Proof.
  destruct (progress_bar_width sampleInstant 40) as [visible [H1 [H2 H3]]].
  - unfold validClock; simpl; lia.
  - split; vm_compute; discriminate.
  - exists visible. split; [exact H1 |]. rewrite H2. cbv zeta in H3. lia.
Defined.

(** X4. The bar is never full: with a bar of at least one column the fill
    leaves at least one of them blank, and at midnight nothing is filled. *)
Theorem progress_bar_never_full (now : Time) (barWidth : Z) :
  validClock now -> 1 <= barWidth < 2 ^ 63 ->
  exists fillWidth,
    fillWidthOf barWidth now = Some fillWidth
    /\ 0 <= fillWidth < barWidth
    /\ (secsOf now = 0 -> fillWidth = 0).
Proof.
  intros Hv Hbw. pose proof (secsOf_range now Hv) as Hs. unfold fillWidthOf.
  destruct (ofInt_R barWidth ltac:(lia)) as [mb [eb [Eb [Hcb [Heb [Hupb _]]]]]].
  rewrite Eb in *. simpl B2R in Hupb.
  destruct (Z.eq_dec (secsOf now) 0) as [H0 | H0].
  { rewrite percent_midnight by assumption. exists 0.
    split; [reflexivity |]. split; [lia | reflexivity]. }
  destruct (percent_spec now Hv ltac:(lia)) as [mp [ep [Ep [Hcp [Hep Hupp]]]]].
  rewrite Ep.
  destruct (mul_R mb mp eb ep) as [m [e [E Hup]]]; try lia.
  rewrite E.
  destruct (toInt_floor m e (barWidth - 1)) as [v [Hv1 Hv2]].
  - set (X := (IZR (Zpos mb) * powerRZ 2 eb)%R) in *.
    set (P := (IZR (Zpos mp) * powerRZ 2 ep)%R) in *.
    assert (HX0 : (0 <= X)%R).
    { unfold X. apply Rmult_le_pos; [apply IZR_le; lia | pose proof (bpow_pos eb); lra]. }
    assert (HP0 : (0 <= P)%R).
    { unfold P. apply Rmult_le_pos; [apply IZR_le; lia | pose proof (bpow_pos ep); lra]. }
    assert (Hsecs : (IZR (secsOf now) <= 86399)%R) by (apply IZR_le; lia).
    assert (Hbw0 : (1 <= IZR barWidth)%R) by (apply IZR_le; lia).
    unfold eps in *.
    assert (HP : (P <= 86399 * (1 + / 9007199254740992) / 86400)%R) by lra.
    assert (HXP : (X * P <= (IZR barWidth * (1 + / 9007199254740992))
                            * (86399 * (1 + / 9007199254740992) / 86400))%R).
    { apply Rmult_le_compat; lra. }
    replace (barWidth - 1 + 1) with barWidth by lia.
    assert (Hc1 : (0 <= 1 + / 9007199254740992)%R) by lra.
    pose proof (Rmult_le_compat_r _ _ _ Hc1 HXP) as Hfin.
    lra.
  - unfold maxInt. lia.
  - exists v. split; [exact Hv1 |]. split; [lia | intros; contradiction].
Qed.

Lemma progress_bar_never_full_witness :
  exists fillWidth,
    fillWidthOf 25 sampleInstant = Some fillWidth /\ 0 <= fillWidth < 25.
Proof.
  destruct (progress_bar_never_full sampleInstant 25) as [fw [H1 [H2 _]]].
  - unfold validClock; simpl; lia.
  - lia.
  - exists fw. split; assumption.
Defined.

(** ** The glyph atlas and the ASCII art *)

Lemma digits_rows (r : rune) (g : list gostring) :
  digits r = Some g ->
  exists a b c d e, g = [a; b; c; d; e]
    /\ length a = 5%nat /\ length b = 5%nat /\ length c = 5%nat
    /\ length d = 5%nat /\ length e = 5%nat.
Proof.
  unfold digits. intros H.
  repeat (match type of H with
          | (if ?c then _ else _) = _ => destruct c
          end);
    try discriminate; injection H as <-;
    do 5 eexists; (split; [reflexivity | repeat split; reflexivity]).
Qed.

Lemma PrintTimeASCII_fold (t : gostring) :
  PrintTimeASCII t = fold_left artStep t (replicate 5 []).
Proof. reflexivity. Qed.

Lemma artStep_shape (n : nat) (lines : list gostring) (char : rune) :
  artShape n lines ->
  artShape (if hasGlyph char then n + 6 else n) (artStep lines char).
Proof.
  intros [Hlen Hall]. unfold artStep, hasGlyph.
  destruct (digits char) as [g |] eqn:E; [| split; assumption].
  destruct (digits_rows char g E) as [a [b [c [d [e [-> [La [Lb [Lc [Ld Le]]]]]]]]]].
  destruct lines as [| l1 [| l2 [| l3 [| l4 [| l5 [| l6 rest]]]]]]; try discriminate.
  inversion Hall as [| ? ? H1 Hall1]; subst.
  inversion Hall1 as [| ? ? H2 Hall2]; subst.
  inversion Hall2 as [| ? ? H3 Hall3]; subst.
  inversion Hall3 as [| ? ? H4 Hall4]; subst.
  inversion Hall4 as [| ? ? H5 _]; subst.
  split; [reflexivity |]. simpl. unfold gostring, rune in *.
  repeat (apply Forall_cons_2; [rewrite !length_app; simpl; lia |]).
  apply Forall_nil_2.
Qed.

Lemma fold_artStep_shape (t : gostring) (n : nat) (lines : list gostring) :
  artShape n lines ->
  artShape (n + 6 * length (List.filter hasGlyph t))
           (fold_left artStep t lines).
Proof.
  revert n lines. induction t as [| c t IH]; intros n lines Hs; simpl fold_left.
  - simpl. rewrite Nat.add_0_r. exact Hs.
  - pose proof (artStep_shape n lines c Hs) as Hs'.
    apply IH in Hs'. simpl List.filter.
    destruct (hasGlyph c); [| exact Hs'].
    simpl length.
    replace (n + 6 * S (length (List.filter hasGlyph t)))%nat
      with (n + 6 + 6 * length (List.filter hasGlyph t))%nat by lia.
    exact Hs'.
Qed.

Lemma fold_artStep_skip (t : gostring) (lines : list gostring) :
  fold_left artStep (List.filter hasGlyph t) lines = fold_left artStep t lines.
Proof.
  revert lines. induction t as [| c t IH]; intros lines; [reflexivity |].
  simpl List.filter. destruct (hasGlyph c) eqn:Hg.
  - simpl. apply IH.
  - simpl. rewrite IH. f_equal. unfold artStep. unfold hasGlyph in Hg.
    destruct (digits c); [discriminate | reflexivity].
Qed.

Lemma art_shape (t : gostring) :
  artShape (6 * length (List.filter hasGlyph t)) (PrintTimeASCII t).
Proof.
  rewrite PrintTimeASCII_fold.
  apply (fold_artStep_shape t 0 (replicate 5 [])).
  split; [reflexivity |]. repeat constructor.
Qed.

(** X5. [PrintTimeASCII] always returns five lines of one common length,
    six columns for each character that has a glyph; a character without a
    glyph leaves no trace, the result is that of the text without it. *)
Theorem PrintTimeASCII_shape (t : gostring) :
  length (PrintTimeASCII t) = 5%nat
  /\ Forall (fun line =>
              length line = (6 * length (List.filter hasGlyph t))%nat)
            (PrintTimeASCII t)
  /\ PrintTimeASCII (List.filter hasGlyph t) = PrintTimeASCII t.
Proof.
  destruct (art_shape t) as [H1 H2].
  split; [exact H1 |]. split; [exact H2 |].
  rewrite !PrintTimeASCII_fold. apply fold_artStep_skip.
Qed.

Lemma artStep_app (lines art : list gostring) (c : rune) :
  length lines = 5%nat -> length art = 5%nat ->
  artStep (zip_with app lines art) c = zip_with app lines (artStep art c).
Proof.
  intros Hl Ha. unfold artStep. destruct (digits c) as [g |] eqn:E; [| reflexivity].
  destruct (digits_rows c g E) as [a [b [c' [d [e [-> _]]]]]].
  destruct lines as [| l1 [| l2 [| l3 [| l4 [| l5 [| l6 rest]]]]]]; try discriminate.
  destruct art as [| a1 [| a2 [| a3 [| a4 [| a5 [| a6 rest]]]]]]; try discriminate.
  simpl. rewrite <- !app_assoc. reflexivity.
Qed.

Lemma fold_artStep_app (t : gostring) (lines art : list gostring) :
  length lines = 5%nat -> artShape (length (hd [] art)) art ->
  fold_left artStep t (zip_with app lines art)
  = zip_with app lines (fold_left artStep t art).
Proof.
  revert art. induction t as [| c t IH]; intros art Hl Ha; [reflexivity |].
  simpl fold_left. rewrite artStep_app by (try apply Ha; assumption).
  apply IH; [assumption |].
  pose proof (artStep_shape _ art c Ha) as Hs.
  destruct Hs as [H5 Hall]. split; [exact H5 |].
  destruct (artStep art c) as [| x xs]; [discriminate |].
  inversion Hall; subst. simpl hd.
  eapply Forall_impl; [exact Hall |]. intros y Hy. simpl in Hy. congruence.
Qed.

(** X6. The art of a concatenation is the art of the parts side by side,
    line by line. *)
Theorem PrintTimeASCII_app (s t : gostring) :
  PrintTimeASCII (s ++ t) = zip_with app (PrintTimeASCII s) (PrintTimeASCII t).
Proof.
  rewrite !PrintTimeASCII_fold, fold_left_app.
  destruct (art_shape s) as [H5 _]. rewrite PrintTimeASCII_fold in H5.
  set (L := fold_left artStep s (replicate 5 [])) in *.
  assert (HL : L = zip_with app L (replicate 5 [])).
  { destruct L as [| l1 [| l2 [| l3 [| l4 [| l5 [| l6 rest]]]]]]; try discriminate.
    simpl. rewrite !app_nil_r. reflexivity. }
  rewrite HL at 1. apply fold_artStep_app; [exact H5 |].
  split; [reflexivity |]. repeat constructor.
Qed.

Lemma appendInt2_glyphs (n : Z) :
  0 <= n < 100 -> forallb hasGlyph (appendInt n 2) = true.
Proof.
  intros Hn.
  assert (Hall : forallb (fun k => forallb hasGlyph (appendInt k 2)) (seqZ 0 100) = true)
    by (vm_compute; reflexivity).
  rewrite forallb_forall in Hall. apply Hall.
  apply list_elem_of_In, elem_of_seqZ. lia.
Qed.

Lemma filter_all {A} (f : A -> bool) (l : list A) :
  forallb f l = true -> List.filter f l = l.
Proof.
  induction l as [| x l IH]; [reflexivity |]. simpl.
  intros H. apply andb_true_iff in H as [Hx Hl]. rewrite Hx, IH by assumption.
  reflexivity.
Qed.

Lemma hour12_range (t : Time) : 0 <= Hour t < 24 -> 1 <= hour12 t <= 12.
Proof.
  intros Hh. unfold hour12.
  pose proof (Z.rem_bound_pos (Hour t) 12 ltac:(lia) ltac:(lia)).
  destruct (Z.rem (Hour t) 12 =? 0) eqn:E; lia.
Qed.

Lemma art_time_glyphs (t : Time) (sep : rune) :
  validClock t -> hasGlyph sep = true ->
  forallb hasGlyph (hh t ++ [sep] ++ mm t ++ [32] ++ ampm t) = true
  /\ length (hh t ++ [sep] ++ mm t ++ [32] ++ ampm t) = 8%nat.
Proof.
  intros [Hh [Hm _]] Hsep. pose proof (hour12_range t Hh) as H12.
  split.
  - rewrite !forallb_app. unfold hh, mm.
    rewrite !appendInt2_glyphs by lia. simpl. rewrite Hsep. simpl.
    unfold ampm. destruct (12 <=? Hour t); reflexivity.
  - rewrite !length_app, hh_length, mm_length by assumption.
    unfold ampm. destruct (12 <=? Hour t); reflexivity.
Qed.

(** X7. At every valid instant the time of art mode has eight characters,
    every one with a glyph, in both phases of the blink; so each of the five
    art lines is 48 columns wide and the blink never shifts the digits. *)
Theorem art_width (now : Time) :
  validClock now ->
  length (Format now (blinkFormat now)) = 8%nat
  /\ forallb hasGlyph (Format now (blinkFormat now)) = true
  /\ length (PrintTimeASCII (Format now (blinkFormat now))) = 5%nat
  /\ Forall (fun line => length line = 48%nat)
            (PrintTimeASCII (Format now (blinkFormat now))).
Proof.
  intros Hv.
  assert (Hf : exists sep, hasGlyph sep = true
             /\ Format now (blinkFormat now) = hh now ++ [sep] ++ mm now ++ [32] ++ ampm now).
  { unfold blinkFormat. destruct (negb (Z.rem (Second now) 2 =? 0)).
    - exists 32. split; [reflexivity | apply Format_hm_blank].
    - exists 58. split; [reflexivity | apply Format_hm_colon]. }
  destruct Hf as [sep [Hsep ->]].
  destruct (art_time_glyphs now sep Hv Hsep) as [Hg Hl].
  destruct (art_shape (hh now ++ [sep] ++ mm now ++ [32] ++ ampm now))
    as [H5 Hall].
  split; [exact Hl |]. split; [exact Hg |]. split; [exact H5 |].
  rewrite (filter_all _ _ Hg), Hl in Hall. exact Hall.
Qed.

Lemma art_width_witness :
  Forall (fun line => length line = 48%nat)
         (PrintTimeASCII (Format sampleInstant (blinkFormat sampleInstant))).
Proof.
  apply (art_width sampleInstant). unfold validClock; simpl; lia.
Defined.

(** X8. The 12-hour clock of the layouts "03" and "PM": the hour shown is
    between 1 and 12 and congruent to the hour modulo 12, so midnight and
    noon both read 12, and the marker is AM before noon and PM from noon. *)
Theorem twelve_hour_clock (t : Time) :
  0 <= Hour t < 24 ->
  1 <= hour12 t <= 12
  /\ hour12 t mod 12 = Hour t mod 12
  /\ (Hour t < 12 -> ampm t = lit "AM")
  /\ (12 <= Hour t -> ampm t = lit "PM")
  /\ Format t "03:04 PM" = appendInt (hour12 t) 2 ++ lit ":" ++ appendInt (Minute t) 2
                           ++ lit " " ++ ampm t.
Proof.
  intros Hh. split; [apply hour12_range; assumption |].
  split.
  - unfold hour12. rewrite Z.rem_mod_nonneg by lia.
    pose proof (Z.mod_pos_bound (Hour t) 12 ltac:(lia)).
    destruct (Hour t mod 12 =? 0) eqn:E.
    + apply Z.eqb_eq in E. rewrite E. reflexivity.
    + rewrite Z.mod_mod by lia. reflexivity.
  - unfold ampm. split; [| split].
    + intros H. destruct (12 <=? Hour t) eqn:E; [lia | reflexivity].
    + intros H. destruct (12 <=? Hour t) eqn:E; [reflexivity | lia].
    + apply Format_hm_colon.
Qed.

Lemma twelve_hour_clock_witness :
  Format (mkTime 2026 February 3 Tuesday 0 4 5) "03:04 PM" = lit "12:04 AM".
Proof.
  destruct (twelve_hour_clock (mkTime 2026 February 3 Tuesday 0 4 5)) as [_ [_ [_ [_ H]]]].
  - simpl. lia.
  - rewrite H. reflexivity.
Defined.

(** ** More on the ordering store *)

Lemma index_nonneg {A} (l : list A) (i : Z) :
  0 <= i -> index l i = l !! Z.to_nat i.
Proof. intros Hi. unfold index. destruct (i <? 0) eqn:E; [lia | reflexivity]. Qed.

Lemma swapSlots_value {A} (l : list A) (k : Z) (a b : A) :
  0 <= k -> l !! 0%nat = Some a -> l !! Z.to_nat k = Some b ->
  swapSlots l 0 k = Some (<[Z.to_nat k := a]> (<[0%nat := b]> l)).
Proof.
  intros Hk Ha Hb. unfold swapSlots, index. simpl.
  change (Z.to_nat 0) with 0%nat. rewrite Ha. simpl.
  destruct (k <? 0) eqn:E; [lia |]. rewrite Hb. reflexivity.
Qed.

Lemma swap_perm {A} (t : list A) (j : nat) (a b : A) :
  t !! j = Some b -> a :: t ≡ₚ b :: <[j := a]> t.
Proof.
  revert j. induction t as [| x t IH]; intros j Hj; [discriminate |].
  destruct j as [| j]; simpl in *.
  - injection Hj as ->. apply perm_swap.
  - rewrite (perm_swap x a t). rewrite (IH j Hj).
    rewrite (perm_swap b x). reflexivity.
Qed.

Lemma swapSlots_perm {A} (l l' : list A) (k : Z) :
  swapSlots l 0 k = Some l' -> l' ≡ₚ l.
Proof.
  unfold swapSlots, index. simpl. change (Z.to_nat 0) with 0%nat.
  destruct (l !! 0%nat) as [a |] eqn:Ha; [| discriminate]. simpl.
  destruct (k <? 0) eqn:E; [discriminate |].
  destruct (l !! Z.to_nat k) as [b |] eqn:Hb; [| discriminate]. simpl.
  intros H. injection H as <-.
  destruct l as [| x t]; [discriminate |]. injection Ha as ->.
  destruct (Z.to_nat k) as [| j] eqn:Ek; simpl in *.
  - injection Hb as ->. reflexivity.
  - symmetry. apply swap_perm. exact Hb.
Qed.

Lemma swapSlots_twice {A} (l l' : list A) (k : Z) :
  swapSlots l 0 k = Some l' -> swapSlots l' 0 k = Some l.
Proof.
  unfold swapSlots at 1. unfold index. simpl. change (Z.to_nat 0) with 0%nat.
  destruct (l !! 0%nat) as [a |] eqn:Ha; [| discriminate]. simpl.
  destruct (k <? 0) eqn:E; [discriminate |].
  destruct (l !! Z.to_nat k) as [b |] eqn:Hb; [| discriminate]. simpl.
  intros H. injection H as <-.
  assert (Hlen : (Z.to_nat k < length l)%nat) by (eapply lookup_lt_Some; eauto).
  destruct (decide (Z.to_nat k = 0%nat)) as [E0 | E0].
  - rewrite E0 in *. assert (a = b) by congruence. subst b.
    assert (Hid : <[0%nat := a]> l = l) by (apply list_insert_id; exact Ha).
    rewrite !Hid.
    rewrite (swapSlots_value l k a a); try lia; try (rewrite ?E0; assumption).
    rewrite E0, !Hid. reflexivity.
  - rewrite (swapSlots_value _ k b a); try lia.
    + f_equal.
      rewrite (list_insert_insert_ne _ 0 (Z.to_nat k) a a) by lia.
      rewrite (list_insert_insert_eq _ 0 a b).
      rewrite (list_insert_insert_eq _ (Z.to_nat k) b a).
      rewrite (list_insert_id l 0 a Ha).
      apply list_insert_id. exact Hb.
    + rewrite list_lookup_insert_ne by lia.
      apply list_lookup_insert_eq. lia.
    + apply list_lookup_insert_eq. rewrite length_insert. lia.
Qed.

(** X9. A swap only reorders: whatever the key, the ordering after the
    handler of [KeyBindings] (and after [SwapTimezones]) is a permutation of
    the ordering before, so no timezone is lost or duplicated. *)
Theorem swap_permutation (st st' : Store) (k : Z) :
  swapKey k st = Some st' ->
  timezones st' ≡ₚ timezones st
  /\ forall tzs', Variant3.SwapTimezones (timezones st) 0 k = Some tzs' ->
                  tzs' ≡ₚ timezones st.
Proof.
  intros H. split.
  - unfold swapKey in H.
    destruct (Z.of_nat (length (timezones st)) <=? k); [injection H as <-; reflexivity |].
    destruct (index (timezones st) 0) as [top |]; [| discriminate]. simpl in H.
    destruct (swapSlots (timezones st) 0 k) as [tzs |] eqn:Es; [| discriminate].
    simpl in H. destruct (index tzs 0) as [newTop |]; [| discriminate].
    simpl in H. injection H as <-. simpl. eapply swapSlots_perm; eauto.
  - intros tzs' H'. unfold Variant3.SwapTimezones in H'.
    destruct (k <? Z.of_nat (length (timezones st))).
    + eapply swapSlots_perm; eauto.
    + injection H' as <-. reflexivity.
Qed.

Lemma swap_permutation_witness :
  map (fun n => mkTimezone (lit n) (lit n))
      ["PHL"; "PST"; "GMT"; "UTC"; "CST"; "MST"; "EST"]%string
  ≡ₚ sevenZones.
Proof.
  exact (proj1 (swap_permutation (mkStore sevenZones [])
                  (mkStore
                     (map (fun n => mkTimezone (lit n) (lit n))
                          ["PHL"; "PST"; "GMT"; "UTC"; "CST"; "MST"; "EST"]%string)
                     (lit "Swapped UTC with PHL")) 3 eq_refl)).
Defined.

(** X10. Pressing the same key twice restores the ordering: the second
    swap undoes the first (the notification then names the slots the other
    way round). *)
Theorem swap_twice (st st' : Store) (k : Z) :
  swapKey k st = Some st' ->
  exists st'', swapKey k st' = Some st'' /\ timezones st'' = timezones st.
Proof.
  intros H. unfold swapKey in H.
  destruct (Z.of_nat (length (timezones st)) <=? k) eqn:Ek.
  - injection H as <-. exists st. unfold swapKey. rewrite Ek. split; reflexivity.
  - destruct (index (timezones st) 0) as [top |] eqn:E0; [| discriminate].
    simpl in H.
    destruct (swapSlots (timezones st) 0 k) as [tzs |] eqn:Es; [| discriminate].
    simpl in H. destruct (index tzs 0) as [newTop |] eqn:E1; [| discriminate].
    simpl in H. injection H as <-.
    pose proof (swapSlots_twice _ _ _ Es) as Hback.
    pose proof (Permutation_length (swapSlots_perm _ _ _ Es)) as Hlen.
    unfold swapKey. simpl timezones. rewrite Hlen, Ek, E1. simpl.
    rewrite Hback. simpl. rewrite E0. simpl.
    eexists. split; reflexivity.
Qed.

Lemma swap_twice_witness :
  exists st'',
    swapKey 3 (mkStore
                 (map (fun n => mkTimezone (lit n) (lit n))
                      ["PHL"; "PST"; "GMT"; "UTC"; "CST"; "MST"; "EST"]%string)
                 (lit "Swapped UTC with PHL")) = Some st''
    /\ timezones st'' = sevenZones.
Proof.
  exact (swap_twice (mkStore sevenZones [])
           (mkStore
              (map (fun n => mkTimezone (lit n) (lit n))
                   ["PHL"; "PST"; "GMT"; "UTC"; "CST"; "MST"; "EST"]%string)
              (lit "Swapped UTC with PHL")) 3 eq_refl).
Defined.

(** X11. The notification of a swap names the old focus and then the new
    one: after a swap of slot [k] it reads "Swapped A with B" with A the
    name that was in slot 0 and B the name that was in slot [k]; a key
    beyond the ordering leaves the notification as it was. *)
Theorem swap_notification (st : Store) (k : Z) (a b : TimezoneConfig) :
  1 <= k ->
  timezones st !! 0%nat = Some a -> timezones st !! Z.to_nat k = Some b ->
  exists st', swapKey k st = Some st'
    /\ notification st' = lit "Swapped " ++ Name a ++ lit " with " ++ Name b
    /\ timezones st' !! 0%nat = Some b.
Proof.
  intros Hk Ha Hb.
  assert (Hlen : (Z.to_nat k < length (timezones st))%nat) by (eapply lookup_lt_Some; eauto).
  unfold swapKey.
  destruct (Z.of_nat (length (timezones st)) <=? k) eqn:Ek; [lia |].
  rewrite (index_nonneg (timezones st) 0) by lia.
  change (Z.to_nat 0) with 0%nat. rewrite Ha.
  cbn [mbind option_bind].
  rewrite (swapSlots_value _ k a b) by (assumption || lia).
  cbn [mbind option_bind].
  assert (Hnew : <[Z.to_nat k := a]> (<[0%nat := b]> (timezones st)) !! 0%nat = Some b).
  { rewrite list_lookup_insert_ne by lia. apply list_lookup_insert_eq. lia. }
  rewrite (index_nonneg _ 0) by lia. change (Z.to_nat 0) with 0%nat.
  rewrite Hnew. cbn [mbind option_bind].
  eexists. split; [reflexivity |]. split; [reflexivity | exact Hnew].
Qed.

Lemma swap_notification_witness :
  exists st', swapKey 3 (mkStore sevenZones []) = Some st'
    /\ notification st' = lit "Swapped UTC with PHL".
Proof.
  destruct (swap_notification (mkStore sevenZones []) 3
              (mkTimezone (lit "UTC") (lit "UTC")) (mkTimezone (lit "PHL") (lit "PHL")))
    as [st' [H1 [H2 _]]]; [lia | reflexivity | reflexivity |].
  exists st'. split; [exact H1 | exact H2].
Defined.

(** X12. The key handler of the first program text has no bounds check:
    on a non-empty ordering it panics exactly for a key at or beyond the
    length (or a negative one), and otherwise computes the same ordering as
    [SwapTimezones]. *)
Theorem unchecked_swap_panics {A} (tzs : list A) (k : Z) :
  tzs <> [] ->
  (Variant1.swapKey k tzs = None <-> k < 0 \/ Z.of_nat (length tzs) <= k)
  /\ (0 <= k < Z.of_nat (length tzs) ->
      Variant1.swapKey k tzs = Variant3.SwapTimezones tzs 0 k).
Proof.
  intros Hne. destruct tzs as [| a t]; [congruence |].
  unfold Variant1.swapKey, Variant3.SwapTimezones, swapSlots.
  rewrite (index_nonneg (a :: t) 0) by lia. change (Z.to_nat 0) with 0%nat.
  simpl ((a :: t) !! 0%nat). cbn [mbind option_bind].
  split.
  - unfold index. destruct (k <? 0) eqn:E.
    + cbn [mbind option_bind]. split; [intros; lia | reflexivity].
    + destruct ((a :: t) !! Z.to_nat k) as [b |] eqn:Hb; cbn [mbind option_bind].
      * apply lookup_lt_Some in Hb. split; [discriminate | intros; lia].
      * apply lookup_ge_None in Hb. split; [intros; lia | reflexivity].
  - intros Hk. destruct (k <? Z.of_nat (length (a :: t))) eqn:E; [reflexivity | lia].
Qed.

Lemma unchecked_swap_panics_witness :
  Variant1.swapKey 3 (take 2 sevenZones) = None.
Proof.
  apply (unchecked_swap_panics (take 2 sevenZones) 3); [discriminate |].
  right. simpl. lia.
Defined.

(** ** More on the layout *)



(** ** The layouts of the other program texts *)

Lemma grid_list_lookup (top help : Rect) (f : Z -> Rect) (K : Z) (n : nat) (r : Rect) :
  0 <= K ->
  (top :: map f (seqZ 1 K) ++ [help]) !! n = Some r ->
  (n = 0%nat /\ r = top)
  \/ (exists i, 1 <= i <= K /\ n = Z.to_nat i /\ r = f i)
  \/ (n = S (Z.to_nat K) /\ r = help).
Proof.
  intros HK Hn. destruct n as [| n]; simpl in Hn.
  - left. split; congruence.
  - right.
    assert (Hlen : length (map f (seqZ 1 K)) = Z.to_nat K).
    { rewrite length_map, length_seqZ. reflexivity. }
    destruct (decide (n < Z.to_nat K)%nat) as [Hlt | Hge].
    + left. rewrite lookup_app_l in Hn by lia.
      rewrite list_lookup_fmap in Hn.
      rewrite (lookup_seqZ_lt 1 K n) in Hn by lia. simpl in Hn.
      exists (1 + Z.of_nat n). split; [lia |]. split; [lia | congruence].
    + right. rewrite lookup_app_r in Hn by lia. rewrite Hlen in Hn.
      destruct (n - Z.to_nat K)%nat as [| m] eqn:E; simpl in Hn; [| discriminate].
      split; [lia | congruence].
Qed.

Lemma variant1_rects (W H i : Z) :
  Variant1.topRect W H = topRect W (H + 1)
  /\ Variant1.bottomRect W H i = bottomRect W (H + 1) i.
Proof.
  unfold Variant1.topRect, Variant1.bottomRect, Variant1.rowHeight, Variant1.gridMaxY,
    topRect, bottomRect, rowHeight, gridMaxY.
  replace (H + 1 - 3) with (H - 2) by lia. split; reflexivity.
Qed.

Lemma variant1_top (W H : Z) : Variant1.topRect W H = topRect W (H + 1).
Proof. apply (variant1_rects W H 0). Qed.

Lemma variant1_bottom (W H i : Z) :
  Variant1.bottomRect W H i = bottomRect W (H + 1) i.
Proof. apply variant1_rects. Qed.

Lemma variant1_disjoint (W H K : Z) :
  1 <= W -> 3 <= H -> 0 <= K <= 6 -> pairwiseDisjoint (Variant1.layoutRects W H K).
Proof.
  intros HW HH HK a b ra rb x y Ha Hb Hne Hina Hinb.
  unfold Variant1.layoutRects in Ha, Hb.
  assert (Hhelp : forall r, inRect r x y ->
            (r = topRect W (H + 1) \/ exists i, 1 <= i <= K /\ r = bottomRect W (H + 1) i) ->
            inRect (Variant1.helpRect W H) x y -> False).
  { intros r Hin Hr Hh.
    assert (Hins : 0 <= x < W /\ 0 <= y < H + 1 - 3).
    { destruct Hr as [-> | [i [Hi ->]]].
      - apply top_inside; [lia | lia | exact Hin].
      - apply (bottom_inside W (H + 1) i); [lia | lia | lia | exact Hin]. }
    unfold inRect, Variant1.helpRect in Hh. simpl in Hh. lia. }
  destruct (grid_list_lookup _ _ _ K a ra ltac:(lia) Ha)
    as [[Ea ->] | [[i [Hi [Ea ->]]] | [Ea ->]]];
  destruct (grid_list_lookup _ _ _ K b rb ltac:(lia) Hb)
    as [[Eb ->] | [[j [Hj [Eb ->]]] | [Eb ->]]];
  rewrite ?variant1_top, ?variant1_bottom in *.
  - lia.
  - exact (top_bottom_disjoint W (H + 1) j x y ltac:(lia) ltac:(lia) ltac:(lia) Hina Hinb).
  - exact (Hhelp _ Hina (or_introl eq_refl) Hinb).
  - exact (top_bottom_disjoint W (H + 1) i x y ltac:(lia) ltac:(lia) ltac:(lia) Hinb Hina).
  - assert (i <> j) by (intros ->; lia).
    exact (bottom_bottom_disjoint W (H + 1) i j x y ltac:(lia) ltac:(lia) ltac:(lia)
             ltac:(lia) ltac:(assumption) Hina Hinb).
  - exact (Hhelp _ Hina (or_intror (ex_intro _ i (conj Hi eq_refl))) Hinb).
  - exact (Hhelp _ Hinb (or_introl eq_refl) Hina).
  - exact (Hhelp _ Hinb (or_intror (ex_intro _ j (conj Hj eq_refl))) Hina).
  - lia.
Qed.

(** X14. The layout of the first program text, whose footer is the
    rectangle (0, H-2, W-1, H-1): for W >= 1 and H >= 3 its rectangles are
    pairwise disjoint for up to six secondary slots, and with all six they
    tile the W x H grid exactly - every cell is in one rectangle and the
    areas sum to W x H. *)
Theorem variant1_tiling (W H : Z) :
  1 <= W -> 3 <= H ->
  (forall K, 0 <= K <= 6 -> pairwiseDisjoint (Variant1.layoutRects W H K))
  /\ tilesGrid W H (Variant1.layoutRects W H 6).
Proof.
  intros HW HH. split; [intros K HK; apply variant1_disjoint; assumption |].
  split; [apply variant1_disjoint; lia |]. split.
  - intros x y Hx Hy.
    destruct (Z_lt_le_dec y (H - 2)) as [Hy1 | Hy1].
    + destruct (full_grid_covers W (H + 1) HW ltac:(lia) x y Hx ltac:(lia))
        as [r [Hr Hin]].
      exists r. split; [| exact Hin].
      apply list_elem_of_lookup in Hr as [n Hn].
      destruct (layoutRects_lookup W (H + 1) 6 n r ltac:(lia) Hn)
        as [[-> ->] | [[i [Hi [-> ->]]] | [_ ->]]].
      * apply list_elem_of_lookup. exists 0%nat.
        unfold Variant1.layoutRects. simpl. f_equal.
        apply variant1_top.
      * apply list_elem_of_lookup. exists (Z.to_nat i).
        unfold Variant1.layoutRects.
        destruct (Z.to_nat i) as [| m] eqn:Em; [lia |].
        change ((map (Variant1.bottomRect W H) (seqZ 1 6) ++ [Variant1.helpRect W H]) !! m
                = Some (bottomRect W (H + 1) i)).
        rewrite lookup_app_l by (rewrite length_map, length_seqZ; lia).
        rewrite list_lookup_fmap, (lookup_seqZ_lt 1 6 m) by lia. simpl.
        f_equal. rewrite variant1_bottom. f_equal. lia.
      * unfold inRect, helpRect in Hin. simpl in Hin. lia.
    + exists (Variant1.helpRect W H). split.
      * apply list_elem_of_lookup. exists 7%nat. reflexivity.
      * unfold inRect, Variant1.helpRect. simpl. lia.
  - destruct (full_grid_area W (H + 1) HW ltac:(lia)) as [Ha _].
    unfold Variant1.layoutRects.
    assert (E : Variant1.topRect W H :: map (Variant1.bottomRect W H) (seqZ 1 6)
                = topRect W (H + 1) :: secondaryRects W (H + 1) 6).
    { unfold secondaryRects. f_equal; [apply variant1_top |].
      apply map_ext. intros i. apply variant1_bottom. }
    rewrite app_comm_cons, E.
    assert (Hsum : forall l1 l2, areaSum (l1 ++ l2) = areaSum l1 + areaSum l2).
    { induction l1 as [| r l1 IH]; intros l2; simpl; [reflexivity |].
      rewrite IH. lia. }
    rewrite Hsum, Ha. unfold areaSum, area, Variant1.helpRect. simpl.
    rewrite !Z.max_r by lia. lia.
Qed.

Lemma variant1_tiling_witness : tilesGrid 80 24 (Variant1.layoutRects 80 24 6).
Proof. apply (variant1_tiling 80 24); lia. Defined.

(** ** The add and remove commands *)

Lemma removeLoop_acc (name : gostring) (tzs acc : list TimezoneConfig) (f : bool) :
  fold_left
    (fun '(newList, found) tz =>
       if bool_decide (Name tz <> name) then (newList ++ [tz], found)
       else (newList, true))
    tzs (acc, f)
  = (acc ++ List.filter (fun tz => bool_decide (Name tz <> name)) tzs,
     f || existsb (fun tz => bool_decide (Name tz = name)) tzs).
Proof.
  revert acc f. induction tzs as [| tz tzs IH]; intros acc f; simpl.
  - rewrite app_nil_r, orb_false_r. reflexivity.
  - destruct (decide (Name tz = name)) as [E | E].
    + rewrite (bool_decide_eq_false_2 (Name tz <> name)) by tauto.
      rewrite (bool_decide_eq_true_2 (Name tz = name)) by exact E.
      rewrite IH. simpl. rewrite orb_true_r. reflexivity.
    + rewrite (bool_decide_eq_true_2 (Name tz <> name)) by exact E.
      rewrite (bool_decide_eq_false_2 (Name tz = name)) by exact E.
      rewrite IH. simpl. rewrite <- app_assoc. reflexivity.
Qed.

Lemma removeLoop_spec (name : gostring) (tzs : list TimezoneConfig) :
  removeLoop name tzs
  = (List.filter (fun tz => bool_decide (Name tz <> name)) tzs,
     existsb (fun tz => bool_decide (Name tz = name)) tzs).
Proof. unfold removeLoop. rewrite removeLoop_acc. reflexivity. Qed.

Lemma filter_absent (name : gostring) (tzs : list TimezoneConfig) :
  Forall (fun tz => Name tz <> name) tzs ->
  List.filter (fun tz => bool_decide (Name tz <> name)) tzs = tzs
  /\ existsb (fun tz => bool_decide (Name tz = name)) tzs = false.
Proof.
  induction 1 as [| tz tzs Htz _ [IH1 IH2]]; simpl; [split; reflexivity |].
  rewrite (bool_decide_eq_true_2 (Name tz <> name)) by exact Htz.
  rewrite (bool_decide_eq_false_2 (Name tz = name)) by exact Htz.
  rewrite IH1, IH2. split; reflexivity.
Qed.

Lemma existsb_present (name : gostring) (tzs : list TimezoneConfig) :
  existsb (fun tz => bool_decide (Name tz = name)) tzs = true
  <-> exists tz, In tz tzs /\ Name tz = name.
Proof.
  rewrite existsb_exists. split; intros [tz [Hin H]]; exists tz; split; try exact Hin.
  - apply bool_decide_eq_true_1 in H. exact H.
  - apply bool_decide_eq_true_2. exact H.
Qed.

(** X15. The remove command drops every entry of the given name, not only
    the first, and keeps the others in their order; it saves the
    configuration exactly when some entry had that name, and leaves the
    list as it was otherwise. *)
Theorem remove_command (name : gostring) (tzs : list TimezoneConfig) :
  let r := removeCommand name tzs in
  (resultSaved r = true <-> exists tz, In tz tzs /\ Name tz = name)
  /\ (resultSaved r = false -> resultTimezones r = tzs)
  /\ (resultSaved r = true ->
        resultTimezones r = List.filter (fun tz => bool_decide (Name tz <> name)) tzs
        /\ (forall tz, In tz (resultTimezones r) <-> In tz tzs /\ Name tz <> name)
        /\ (length (resultTimezones r) < length tzs)%nat).
Proof.
  unfold removeCommand. rewrite removeLoop_spec.
  destruct (existsb (fun tz => bool_decide (Name tz = name)) tzs) eqn:E; simpl.
  - split; [| split].
    + rewrite <- existsb_present. tauto.
    + discriminate.
    + intros _. split; [reflexivity |]. split.
      * intros tz. rewrite List.filter_In.
        split; intros [H1 H2]; split; try exact H1.
        -- apply bool_decide_eq_true_1 in H2. exact H2.
        -- apply bool_decide_eq_true_2. exact H2.
      * apply existsb_present in E as [tz [Hin Hn]].
        clear - Hin Hn. induction tzs as [| a tzs IH]; [destruct Hin |].
        simpl.
        pose proof (List.filter_length_le
                      (fun tz => bool_decide (Name tz <> name)) tzs) as Hle.
        destruct Hin as [-> | Hin].
        -- rewrite (bool_decide_eq_false_2 (Name tz <> name)) by tauto. lia.
        -- specialize (IH Hin).
           destruct (bool_decide (Name a <> name)); simpl; lia.
  - split; [| split].
    + rewrite <- existsb_present, E. tauto.
    + reflexivity.
    + discriminate.
Qed.

(** X16. Adding a timezone appends it after the configured ones, so the
    focus slot is unchanged when the list was not empty; removing a name
    that was just added, and that no other entry carries, gives back the
    list there was. *)
Theorem add_then_remove (name location : gostring) (tzs : list TimezoneConfig) :
  Forall (fun tz => Name tz <> name) tzs ->
  let added := resultTimezones (addCommand name location tzs) in
  length added = S (length tzs)
  /\ (forall i tz, tzs !! i = Some tz -> added !! i = Some tz)
  /\ added !! length tzs = Some (mkTimezone name location)
  /\ removeCommand name added
     = mkCommandResult tzs true (lit "Removed " ++ name ++ lit " successfully!" ++ [10]).
Proof.
  intros Habs. simpl. split; [| split; [| split]].
  - rewrite length_app. simpl. lia.
  - intros i tz Hi. apply lookup_app_l_Some. exact Hi.
  - rewrite lookup_app_r by lia. rewrite Nat.sub_diag. reflexivity.
  - unfold removeCommand. rewrite removeLoop_spec.
    rewrite List.filter_app, existsb_app.
    destruct (filter_absent name tzs Habs) as [-> ->]. simpl.
    rewrite (bool_decide_eq_false_2 (name <> name)) by tauto.
    rewrite (bool_decide_eq_true_2 (name = name)) by reflexivity.
    simpl. rewrite app_nil_r. reflexivity.
Qed.

Lemma add_then_remove_witness :
  removeCommand (lit "JST") (resultTimezones (addCommand (lit "JST") (lit "Asia/Tokyo") sevenZones))
  = mkCommandResult sevenZones true (lit "Removed JST successfully!" ++ [10]).
Proof.
  apply (add_then_remove (lit "JST") (lit "Asia/Tokyo") sevenZones).
  unfold sevenZones. repeat (apply Forall_cons_2; [discriminate |]). apply Forall_nil_2.
Defined.

(** ** The grid of the third program text *)

Lemma v3_bottomRect_at (W H row col : Z) :
  0 <= row -> 0 <= col < 3 ->
  Variant3Grid.bottomRect W H (3 * row + col + 1)
  = mkRect (col * (W ÷ 3)) ((row + 1) * Variant3Grid.rowHeight H)
      (if col =? 2 then W - 1 else col * (W ÷ 3) + W ÷ 3 - 1)
      ((row + 1) * Variant3Grid.rowHeight H + Variant3Grid.rowHeight H - 1).
Proof.
  intros Hrow Hcol. unfold Variant3Grid.bottomRect, itemsPerRow.
  replace (3 * row + col + 1 - 1) with (col + row * 3) by lia.
  assert (Hq : (col + row * 3) ÷ 3 = row).
  { rewrite Z.quot_div_nonneg by lia. rewrite Z.div_add by lia.
    rewrite Z.div_small by lia. lia. }
  assert (Hr : Z.rem (col + row * 3) 3 = col).
  { rewrite Z.rem_mod_nonneg by lia. rewrite Z.mod_add by lia.
    apply Z.mod_small. lia. }
  rewrite Hq, Hr. reflexivity.
Qed.

Ltac v3_slot W H i Hi :=
  let row := fresh "row" in
  let col := fresh "col" in
  let E := fresh "E" in
  let Hr := fresh "Hr" in
  let Hc := fresh "Hc" in
  destruct (slot_cases i Hi) as [row [col [E [Hr Hc]]]];
  rewrite E in *;
  rewrite (v3_bottomRect_at W H row col) in * by lia;
  destruct Hr as [-> | ->]; destruct Hc as [-> | [-> | ->]].

Ltac v3_bounds W H :=
  pose proof (quot3_bounds W ltac:(lia));
  pose proof (quot3_bounds (H - 2) ltac:(lia));
  unfold inRect, Variant3Grid.topRect, Variant3Grid.helpRect,
    Variant3Grid.rowHeight, Variant3Grid.gridMaxY in *;
  generalize dependent (W ÷ 3); generalize dependent ((H - 2) ÷ 3);
  intros; simpl in *.

(** A cell of a view of the third text's grid lies above the row
    3 * rowHeight. *)
Lemma v3_bottom_inside (W H i x y : Z) :
  1 <= W -> 2 <= H -> 1 <= i <= 6 ->
  inRect (Variant3Grid.bottomRect W H i) x y ->
  0 <= x < W /\ Variant3Grid.rowHeight H <= y < 3 * Variant3Grid.rowHeight H.
Proof.
  intros HW HH Hi.
  v3_slot W H i Hi; intros Hin1; v3_bounds W H; lia.
Qed.

Lemma v3_bottom_bottom_disjoint (W H i j x y : Z) :
  1 <= W -> 2 <= H -> 1 <= i <= 6 -> 1 <= j <= 6 -> i <> j ->
  inRect (Variant3Grid.bottomRect W H i) x y ->
  inRect (Variant3Grid.bottomRect W H j) x y -> False.
Proof.
  intros HW HH Hi Hj Hne.
  v3_slot W H i Hi; v3_slot W H j Hj; intros Hin1 Hin2; v3_bounds W H; lia.
Qed.

Lemma v3_top_inside (W H x y : Z) :
  1 <= W -> 2 <= H ->
  inRect (Variant3Grid.topRect W H) x y ->
  0 <= x < W /\ 0 <= y < Variant3Grid.rowHeight H.
Proof. intros HW HH Hin. v3_bounds W H. lia. Qed.

Lemma v3_help_inside (W H x y : Z) :
  inRect (Variant3Grid.helpRect W H) x y -> 0 <= x <= W - 1 /\ H - 2 <= y <= H - 1.
Proof. unfold inRect, Variant3Grid.helpRect. simpl. tauto. Qed.

Lemma v3_rowHeight_bounds (H : Z) :
  2 <= H ->
  0 <= Variant3Grid.rowHeight H
  /\ 3 * Variant3Grid.rowHeight H = H - 2 - Z.rem (H - 2) 3
  /\ 0 <= Z.rem (H - 2) 3 < 3.
Proof.
  intros HH. unfold Variant3Grid.rowHeight, Variant3Grid.gridMaxY.
  pose proof (Z.quot_rem' (H - 2) 3).
  pose proof (Z.rem_bound_pos (H - 2) 3 ltac:(lia) ltac:(lia)).
  pose proof (quot3_bounds (H - 2) ltac:(lia)). lia.
Qed.

Ltac v3_locate Hin :=
  let Hloc := fresh "Hloc" in
  pose proof Hin as Hloc;
  first
    [ apply v3_top_inside in Hloc; [| lia | lia]
    | apply v3_bottom_inside in Hloc; [| lia | lia | lia]
    | apply v3_help_inside in Hloc ].

Lemma v3_disjoint (W H K : Z) :
  1 <= W -> 2 <= H -> 0 <= K <= 6 ->
  pairwiseDisjoint (Variant3Grid.layoutRects W H K).
Proof.
  intros HW HH HK a b ra rb x y Ha Hb Hne Hina Hinb.
  unfold Variant3Grid.layoutRects in Ha, Hb.
  pose proof (v3_rowHeight_bounds H HH) as [Hrh0 [Hrh Hrem]].
  destruct (grid_list_lookup _ _ _ K a ra ltac:(lia) Ha)
    as [[Ea ->] | [[i [Hi [Ea ->]]] | [Ea ->]]];
  destruct (grid_list_lookup _ _ _ K b rb ltac:(lia) Hb)
    as [[Eb ->] | [[j [Hj [Eb ->]]] | [Eb ->]]];
  v3_locate Hina; v3_locate Hinb; try lia.
  assert (i <> j) by (intros ->; lia).
  exact (v3_bottom_bottom_disjoint W H i j x y ltac:(lia) ltac:(lia) ltac:(lia)
           ltac:(lia) ltac:(assumption) Hina Hinb).
Qed.

Lemma v3_layoutRects_full (W H : Z) :
  Variant3Grid.layoutRects W H 6
  = Variant3Grid.topRect W H
    :: map (fun rc => Variant3Grid.bottomRect W H (3 * fst rc + snd rc + 1))
           [(0, 0); (0, 1); (0, 2); (1, 0); (1, 1); (1, 2)]
    ++ [Variant3Grid.helpRect W H].
Proof. reflexivity. Qed.

(** X17. The layout of the third program text gives no row the remainder
    of the height. For W >= 1 and H >= 2 its rectangles are pairwise
    disjoint for up to six secondary slots; with all six a cell of the
    W x H grid is in a rectangle exactly when its row is below
    3 * ((H-2)/3) or is one of the two footer rows, so (H-2) mod 3 rows
    above the footer stay empty and the areas sum to
    W x (H - (H-2) mod 3). *)
Theorem variant3_grid_gap (W H : Z) :
  1 <= W -> 2 <= H ->
  (forall K, 0 <= K <= 6 -> pairwiseDisjoint (Variant3Grid.layoutRects W H K))
  /\ (forall x y, 0 <= x < W -> 0 <= y < H ->
        ((exists r, r ∈ Variant3Grid.layoutRects W H 6 /\ inRect r x y)
         <-> y < 3 * ((H - 2) ÷ 3) \/ H - 2 <= y))
  /\ areaSum (Variant3Grid.layoutRects W H 6) = W * (H - Z.rem (H - 2) 3).
Proof.
  intros HW HH. split; [intros K HK; apply v3_disjoint; assumption |].
  pose proof (v3_rowHeight_bounds H HH) as [Hrh0 [Hrh Hrem]].
  split.
  - intros x y Hx Hy. split.
    + intros [r [Hr Hin]].
      apply list_elem_of_lookup in Hr as [n Hn].
      unfold Variant3Grid.layoutRects in Hn.
      change ((H - 2) ÷ 3) with (Variant3Grid.rowHeight H).
      destruct (grid_list_lookup _ _ _ 6 n r ltac:(lia) Hn)
        as [[_ ->] | [[i [Hi [_ ->]]] | [_ ->]]].
      * apply v3_top_inside in Hin; lia.
      * apply v3_bottom_inside in Hin; lia.
      * apply v3_help_inside in Hin. lia.
    + intros Hrow. rewrite v3_layoutRects_full. simpl map.
      rewrite !(v3_bottomRect_at W H) by lia.
      pose proof (quot3_bounds W ltac:(lia)) as [Hc0 Hc].
      unfold Variant3Grid.topRect, Variant3Grid.helpRect, Variant3Grid.rowHeight,
        Variant3Grid.gridMaxY in *.
      generalize dependent (W ÷ 3). generalize dependent ((H - 2) ÷ 3).
      intros rh Hr0 Hr Hrow cw Hc0 Hc. simpl.
      assert (Hy3 : y < rh \/ (rh <= y < 2 * rh) \/ (2 * rh <= y < 3 * rh) \/ H - 2 <= y)
        by lia.
      assert (Hx3 : x < cw \/ (cw <= x < 2 * cw) \/ 2 * cw <= x) by lia.
      destruct Hy3 as [Hy1 | [Hy1 | [Hy1 | Hy1]]].
      * pick_rect 0%nat.
      * destruct Hx3 as [Hx1 | [Hx1 | Hx1]];
          [pick_rect 1%nat | pick_rect 2%nat | pick_rect 3%nat].
      * destruct Hx3 as [Hx1 | [Hx1 | Hx1]];
          [pick_rect 4%nat | pick_rect 5%nat | pick_rect 6%nat].
      * pick_rect 7%nat.
  - rewrite v3_layoutRects_full. simpl map.
    rewrite !(v3_bottomRect_at W H) by lia.
    pose proof (quot3_bounds W ltac:(lia)) as [Hc0 Hc].
    assert (E : H - Z.rem (H - 2) 3 = 3 * Variant3Grid.rowHeight H + 2) by lia.
    rewrite E. clear E Hrh Hrem.
    unfold areaSum, area, Variant3Grid.topRect, Variant3Grid.helpRect,
      Variant3Grid.rowHeight, Variant3Grid.gridMaxY in *.
    generalize dependent (W ÷ 3). generalize dependent ((H - 2) ÷ 3).
    intros rh Hr0 cw Hc0 Hc. simpl.
    rewrite !Z.max_r by lia. nia.
Qed.

Lemma variant3_grid_gap_witness :
  ~ (exists r, r ∈ Variant3Grid.layoutRects 80 24 6 /\ inRect r 40 21)
  /\ areaSum (Variant3Grid.layoutRects 80 24 6) = 80 * 23.
Proof.
  destruct (variant3_grid_gap 80 24 ltac:(lia) ltac:(lia)) as [_ [Hcov Harea]].
  split.
  - intros Hex. apply (Hcov 40 21) in Hex; [| lia | lia].
    change ((24 - 2) ÷ 3) with 7 in Hex. lia.
  - exact Harea.
Defined.

(** ** Style markers and centering *)

Lemma replaceFrom_skip (pairs : list (gostring * gostring)) (m s : gostring) :
  replaceFrom pairs (m ++ s) (length m) = replaceFrom pairs s 0.
Proof.
  induction m as [| c m IH]; simpl; [reflexivity | exact IH].
Qed.

Lemma Replace_marker_app (m t : gostring) :
  isMarker m -> Replace repl (m ++ t) = Replace repl t.
Proof.
  intros Hm. unfold isMarker in Hm. simpl in Hm.
  destruct Hm as [<- | [<- | [<- | [<- | [<- | []]]]]]; reflexivity.
Qed.

Lemma find_marker_None (c : rune) (rest : gostring) :
  c <> ESC -> List.find (fun p => isPrefix (fst p) (c :: rest)) repl = None.
Proof.
  intros Hc. unfold ESC in Hc.
  assert (E : (27 =? c) = false) by lia.
  unfold repl, ansiBold, ansiReset, ansiYellow, ansiGreen, ansiRed, ESC.
  cbn [List.find fst isPrefix]. rewrite E. reflexivity.
Qed.

Lemma Replace_plain_app (s t : gostring) :
  plainText s -> Replace repl (s ++ t) = s ++ Replace repl t.
Proof.
  unfold Replace. induction 1 as [| c s Hc _ IH]; [reflexivity |].
  simpl app. cbn [replaceFrom]. rewrite (find_marker_None c (s ++ t) Hc).
  rewrite IH. reflexivity.
Qed.

Lemma Replace_segments (segs : list Segment) :
  Forall segmentOk segs -> Replace repl (styled segs) = visibleText segs.
Proof.
  induction 1 as [| seg segs Hseg _ IH]; [reflexivity |].
  unfold styled, visibleText in *. simpl.
  destruct seg as [s | m]; simpl in Hseg.
  - rewrite Replace_plain_app by exact Hseg. rewrite IH. reflexivity.
  - rewrite Replace_marker_app by exact Hseg. exact IH.
Qed.

Lemma plainText_app (s t : gostring) :
  plainText s -> plainText t -> plainText (s ++ t).
Proof. unfold plainText. intros Hs Ht. apply Forall_app. split; assumption. Qed.

Lemma plainText_check (s : gostring) :
  forallb (fun r => negb (r =? ESC)) s = true -> plainText s.
Proof.
  intros H. unfold plainText. apply Forall_forall. intros r Hr.
  rewrite forallb_forall in H. specialize (H r ltac:(apply list_elem_of_In; exact Hr)).
  apply negb_true_iff in H. lia.
Qed.

Lemma digitsOf_plain (fuel : nat) (n : Z) (acc : gostring) :
  plainText acc -> plainText (digitsOf fuel n acc).
Proof.
  revert n acc. induction fuel as [| fuel IH]; intros n acc Hacc; simpl; [exact Hacc |].
  assert (Hd : plainText ((48 + n mod 10) :: acc)).
  { apply Forall_cons_2; [| exact Hacc].
    pose proof (Z.mod_pos_bound n 10 ltac:(lia)). unfold ESC. lia. }
  destruct (n <? 10); [exact Hd | apply IH; exact Hd].
Qed.

Lemma appendInt_plain (n : Z) (width : nat) : plainText (appendInt n width).
Proof.
  unfold appendInt. apply plainText_app; [| apply plainText_app].
  - destruct (n <? 0); [apply plainText_check; reflexivity | apply Forall_nil_2].
  - apply Forall_forall. intros r Hr. apply elem_of_replicate in Hr as [-> _].
    discriminate.
  - unfold itoa. destruct (Z.abs n <? 0).
    + apply Forall_cons_2; [discriminate |]. apply digitsOf_plain, Forall_nil_2.
    + apply digitsOf_plain, Forall_nil_2.
Qed.

Lemma long_date_plain (t : Time) : plainText (Format t "Monday, January 2, 2006").
Proof.
  rewrite Format_long_date.
  repeat (first [apply appendInt_plain | apply plainText_app]);
    try (apply plainText_check; reflexivity).
  - destruct (TWeekday t); apply plainText_check; reflexivity.
  - destruct (TMonth t); apply plainText_check; reflexivity.
Qed.

Lemma Format_heartbeat (t : Time) :
  Format t "15:04:05" = appendInt (Hour t) 2 ++ [58] ++ mm t ++ [58] ++ ss t.
Proof.
  transitivity (appendInt (Hour t) 2 ++ [58] ++ mm t ++ [58] ++ ss t ++ []);
    [reflexivity |].
  rewrite app_nil_r. reflexivity.
Qed.

Lemma heartbeat_plain (t : Time) : plainText (Format t "15:04:05").
Proof.
  rewrite Format_heartbeat. unfold mm, ss.
  repeat (first [apply appendInt_plain | apply plainText_app]);
    apply plainText_check; reflexivity.
Qed.

Ltac marker_ok := unfold segmentOk, isMarker; simpl; tauto.

Lemma CenterDate_pad (sw : gostring -> Z) (s : gostring) (width : Z) :
  CenterDate sw s width
  = replicate (Z.to_nat (Z.max 0 ((width - sw (Replace repl s)) ÷ 2))) 32 ++ s.
Proof. unfold CenterDate. apply pad_or_not. Qed.

(** X18. The replacer of [CenterDate] removes every style marker and
    nothing else: on a text made of escape-free pieces and style markers,
    in any number and order, it returns the visible pieces. So
    [CenterDate] pads such a text by the width of what is seen, and on an
    escape-free text it does what [CenterTime] does. *)
Theorem style_markers_invisible (sw : gostring -> Z) (segs : list Segment) (width : Z) :
  Forall segmentOk segs ->
  Replace repl (styled segs) = visibleText segs
  /\ CenterDate sw (styled segs) width
     = replicate (Z.to_nat (Z.max 0 ((width - sw (visibleText segs)) ÷ 2))) 32
       ++ styled segs
  /\ (forall s, plainText s -> CenterDate sw s width = CenterTime sw s width).
Proof.
  intros Hok. split; [apply Replace_segments; exact Hok |]. split.
  - rewrite CenterDate_pad, Replace_segments by exact Hok. reflexivity.
  - intros s Hs. unfold CenterDate, CenterTime.
    pose proof (Replace_plain_app s [] Hs) as E.
    change (Replace repl []) with (@nil rune) in E. rewrite !app_nil_r in E.
    rewrite E. reflexivity.
Qed.

Lemma style_markers_invisible_witness :
  Replace repl (ansiGreen ++ lit "CPU: " ++ ansiYellow ++ ansiBold ++ lit "7%" ++ ansiReset)
  = lit "CPU: 7%".
Proof.
  apply (style_markers_invisible sampleWidth
           [Style ansiGreen; Text (lit "CPU: "); Style ansiYellow; Style ansiBold;
            Text (lit "7%"); Style ansiReset] 80).
  apply Forall_cons_2; [marker_ok |].
  apply Forall_cons_2; [apply plainText_check; reflexivity |].
  apply Forall_cons_2; [marker_ok |].
  apply Forall_cons_2; [marker_ok |].
  apply Forall_cons_2; [apply plainText_check; reflexivity |].
  apply Forall_cons_2; [marker_ok | apply Forall_nil_2].
Defined.

(** X19. What the program centers by the visible text. The bold date line
    of art mode is padded by the width of the date alone. While a
    notification without escape characters is shown, the footer holds no
    statistics, and it is padded by the width of the key help, the
    notification between two blanks on each side, and the heartbeat. *)
Theorem styled_lines_centering (sw : gostring -> Z) (now : Time)
    (currentCPU currentMEM notification : gostring) (width : Z) :
  notification <> [] -> plainText notification ->
  let date := Format now "Monday, January 2, 2006" in
  let heartbeat := Format now "15:04:05" in
  let seen := lit "Keys [1-6] to swap timezones | Ctrl+C to quit |  " ++ notification
              ++ lit "  " ++ heartbeat in
  CenterDate sw (ansiBold ++ date ++ ansiReset) width
  = replicate (Z.to_nat (Z.max 0 ((width - sw date) ÷ 2))) 32
    ++ ansiBold ++ date ++ ansiReset
  /\ footerText currentCPU currentMEM notification heartbeat
     = footerText [] [] notification heartbeat
  /\ CenterDate sw (footerText currentCPU currentMEM notification heartbeat) width
     = replicate (Z.to_nat (Z.max 0 ((width - sw seen) ÷ 2))) 32
       ++ footerText currentCPU currentMEM notification heartbeat.
Proof.
  intros Hne Hplain date heartbeat seen.
  assert (Hfoot : forall cpu mem,
            footerText cpu mem notification heartbeat
            = styled [Text (lit "Keys [1-6] to swap timezones | Ctrl+C to quit | ");
                      Style ansiYellow; Style ansiBold;
                      Text (lit " " ++ notification ++ lit " ");
                      Style ansiReset; Text (lit " " ++ heartbeat)]).
  { intros cpu mem. unfold footerText, statusPart.
    rewrite (bool_decide_eq_true_2 (notification <> [])) by exact Hne.
    unfold styled. cbn [concat map]. rewrite ?app_nil_r, <- ?app_assoc. reflexivity. }
  split; [| split].
  - assert (E : ansiBold ++ date ++ ansiReset
                = styled [Style ansiBold; Text date; Style ansiReset]).
    { unfold styled. cbn [concat map]. rewrite ?app_nil_r. reflexivity. }
    rewrite CenterDate_pad. rewrite E at 1. rewrite Replace_segments.
    + unfold visibleText. cbn [concat map]. rewrite ?app_nil_r. reflexivity.
    + apply Forall_cons_2; [marker_ok |].
      apply Forall_cons_2; [apply long_date_plain |].
      apply Forall_cons_2; [marker_ok | apply Forall_nil_2].
  - rewrite !Hfoot. reflexivity.
  - rewrite CenterDate_pad. rewrite Hfoot at 1. rewrite Replace_segments.
    + unfold visibleText, seen. cbn [concat map].
      rewrite ?app_nil_r, <- ?app_assoc. reflexivity.
    + apply Forall_cons_2; [apply plainText_check; reflexivity |].
      apply Forall_cons_2; [marker_ok |].
      apply Forall_cons_2; [marker_ok |].
      apply Forall_cons_2.
      { cbn [segmentOk]. apply plainText_app; [apply plainText_check; reflexivity |].
        apply plainText_app; [exact Hplain | apply plainText_check; reflexivity]. }
      apply Forall_cons_2; [marker_ok |].
      apply Forall_cons_2; [| apply Forall_nil_2].
      cbn [segmentOk]. apply plainText_app;
        [apply plainText_check; reflexivity | apply heartbeat_plain].
Qed.

Lemma styled_lines_centering_witness :
  CenterDate sampleWidth
    (footerText (lit "CPU: 7%") (lit "MEM: 3MB") (lit "Swapped UTC with PST")
       (Format sampleInstant "15:04:05")) 100
  = replicate 10 32
    ++ footerText (lit "CPU: 7%") (lit "MEM: 3MB") (lit "Swapped UTC with PST")
         (Format sampleInstant "15:04:05").
Proof.
  assert (Hne : lit "Swapped UTC with PST" <> []) by discriminate.
  assert (Hplain : plainText (lit "Swapped UTC with PST"))
    by (apply plainText_check; reflexivity).
  destruct (styled_lines_centering sampleWidth sampleInstant (lit "CPU: 7%")
              (lit "MEM: 3MB") (lit "Swapped UTC with PST") 100 Hne Hplain)
    as [_ [_ H]].
  exact H.
Defined.

(** ** Margins *)

Lemma quot2_bounds (a : Z) : 0 <= a -> 0 <= a ÷ 2 /\ 2 * (a ÷ 2) <= a <= 2 * (a ÷ 2) + 1.
Proof.
  intros Ha. rewrite Z.quot_div_nonneg by lia.
  pose proof (Z.div_mod a 2 ltac:(lia)). pose proof (Z.mod_pos_bound a 2 ltac:(lia)).
  pose proof (Z.div_pos a 2 Ha ltac:(lia)). lia.
Qed.

Lemma sampleWidth_blanks (n : nat) (s : gostring) :
  sampleWidth (replicate n 32 ++ s) = Z.of_nat n + sampleWidth s.
Proof.
  induction n as [| n IH]; [reflexivity |].
  change (replicate (S n) 32 ++ s) with (32 :: (replicate n 32 ++ s)).
  change (sampleWidth (32 :: (replicate n 32 ++ s)))
    with (1 + sampleWidth (replicate n 32 ++ s)).
  rewrite IH. lia.
Qed.

Lemma sampleWidth_app (s t : gostring) :
  sampleWidth (s ++ t) = sampleWidth s + sampleWidth t.
Proof.
  induction s as [| c s IH]; [reflexivity |].
  change (sampleWidth ((c :: s) ++ t)) with (sampleRuneWidth c + sampleWidth (s ++ t)).
  change (sampleWidth (c :: s)) with (sampleRuneWidth c + sampleWidth s).
  rewrite IH. lia.
Qed.

(** X20. [CenterTime] centers: when a blank in front of the text takes one
    column and the text is no wider than the view, the margin on the left
    is the margin on the right or one column less, so the line fits the
    view. A text wider than the view, or narrower by one column, is
    returned as it is. *)
Theorem centered_margins (sw : gostring -> Z) (s : gostring) (width : Z) :
  (forall n, sw (replicate n 32 ++ s) = Z.of_nat n + sw s) ->
  (sw s <= width ->
     let left := sw (CenterTime sw s width) - sw s in
     let right := width - sw (CenterTime sw s width) in
     0 <= left /\ left <= right <= left + 1)
  /\ (width - 1 <= sw s -> CenterTime sw s width = s).
Proof.
  intros Hblank. split.
  - intros Hfit. unfold CenterTime.
    pose proof (quot2_bounds (width - sw s) ltac:(lia)) as [Hq0 Hq].
    destruct (0 <? (width - sw s) ÷ 2) eqn:E; cbv zeta.
    + rewrite Hblank. rewrite Z2Nat.id by lia. lia.
    + assert ((width - sw s) ÷ 2 = 0) by lia. lia.
  - intros Hwide. unfold CenterTime.
    destruct (0 <? (width - sw s) ÷ 2) eqn:E; [| reflexivity].
    destruct (Z_le_gt_dec 0 (width - sw s)) as [Hge | Hlt].
    + pose proof (quot2_bounds (width - sw s) Hge). lia.
    + pose proof (Z.quot_opp_l (width - sw s) 2 ltac:(lia)).
      pose proof (Z.quot_pos (- (width - sw s)) 2 ltac:(lia) ltac:(lia)). lia.
Qed.

Lemma centered_margins_witness :
  0 <= sampleWidth (CenterTime sampleWidth (lit "12:34 PM") 21) - 8
  /\ sampleWidth (CenterTime sampleWidth (lit "12:34 PM") 21) - 8
     <= 21 - sampleWidth (CenterTime sampleWidth (lit "12:34 PM") 21)
     <= sampleWidth (CenterTime sampleWidth (lit "12:34 PM") 21) - 8 + 1.
Proof.
  destruct (centered_margins sampleWidth (lit "12:34 PM") 21
              (fun n => sampleWidth_blanks n (lit "12:34 PM"))) as [H _].
  apply H. vm_compute. discriminate.
Defined.

(** X21. [CenterTime] of the third program text pads on both sides by the
    same number of blanks: when blanks around the text take one column each
    and the text is no wider than the view, the line it returns is as wide
    as the view or one column less. *)
Theorem variant3_fills_line (sw : gostring -> Z) (s : gostring) (width : Z) :
  (forall n, sw (replicate n 32 ++ s ++ replicate n 32) = 2 * Z.of_nat n + sw s) ->
  sw s <= width ->
  width - 1 <= sw (Variant3.CenterTime sw s width) <= width.
Proof.
  intros Hblank Hfit. unfold Variant3.CenterTime.
  pose proof (quot2_bounds (width - sw s) ltac:(lia)) as [Hq0 Hq].
  destruct (0 <? (width - sw s) ÷ 2) eqn:E.
  - rewrite Hblank. rewrite Z2Nat.id by lia. lia.
  - assert ((width - sw s) ÷ 2 = 0) by lia. lia.
Qed.

Lemma variant3_fills_line_witness :
  21 - 1 <= sampleWidth (Variant3.CenterTime sampleWidth (lit "12:34 PM") 21) <= 21.
Proof.
  apply (variant3_fills_line sampleWidth (lit "12:34 PM") 21).
  - intros n. rewrite sampleWidth_blanks, sampleWidth_app.
    pose proof (sampleWidth_blanks n []) as E. rewrite app_nil_r in E.
    rewrite E. change (sampleWidth []) with 0. lia.
  - vm_compute. discriminate.
Defined.

(** ** The frame of a cell *)

(** X22. [UpdateViewTime] does not panic at a width in the range
    [barFits]: at every valid instant and for every height it clears the
    view first, then only writes - two lines in plain-text mode, eight in
    art mode - and last puts the cursor on the last row and writes the
    progress bar, which [getDayProgressBar] returns for that width. *)
Theorem render_total (sw : gostring -> Z) (now : Time) (width height : Z) :
  validClock now -> barFits width ->
  exists (bar : gostring) (body : list ViewOp),
    getDayProgressBar now width = Some bar
    /\ UpdateViewTime sw now width height
       = Some (Clear :: body ++ [SetCursor 0 (height - 1); Write bar])
    /\ length body = (if height <? 8 then 2%nat else 8%nat)
    /\ Forall (fun op => exists s, op = Write s) body.
Proof.
  intros Hv Hw.
  destruct (progress_bar_fits now width Hv Hw) as [fillWidth [_ [_ Hbar]]].
  destruct (art_shape (Format now (blinkFormat now))) as [Hlen _].
  unfold UpdateViewTime, plainTextOps, artOps. rewrite Hbar. cbn [mbind option_bind].
  eexists. destruct (height <? 8).
  - exists [Write (10 :: CenterDate sw (Format now "03:04:05 PM") width);
            Write (10 :: CenterDate sw (Format now "Mon, Jan 2") width)].
    split; [reflexivity |]. split; [reflexivity |]. split; [reflexivity |].
    repeat (apply Forall_cons_2; [eexists; reflexivity |]). apply Forall_nil_2.
  - exists (Fprint [10]
            :: map (fun line => Fprintln (CenterTime sw line width))
                   (PrintTimeASCII (Format now (blinkFormat now)))
            ++ [Fprintln (CenterDate sw (ansiBold ++ Format now "Monday, January 2, 2006"
                                         ++ ansiReset) width);
                Fprintln (CenterDate sw (getBusinessHoursIndicator now) width)]).
    split; [reflexivity |]. split; [| split].
    + cbn [app]. rewrite <- !app_assoc. reflexivity.
    + cbn [length]. rewrite length_app, length_map, Hlen. reflexivity.
    + apply Forall_cons_2; [eexists; reflexivity |].
      apply Forall_app. split.
      * apply Forall_forall. intros op Hop.
        apply list_elem_of_fmap in Hop as [line [-> _]]. eexists. reflexivity.
      * repeat (apply Forall_cons_2; [eexists; reflexivity |]). apply Forall_nil_2.
Qed.

Lemma render_total_witness :
  exists (bar : gostring) (body : list ViewOp),
    getDayProgressBar sampleInstant 40 = Some bar
    /\ UpdateViewTime sampleWidth sampleInstant 40 10
       = Some (Clear :: body ++ [SetCursor 0 (10 - 1); Write bar])
    /\ length body = 8%nat
    /\ Forall (fun op => exists s, op = Write s) body.
Proof.
  apply (render_total sampleWidth sampleInstant 40 10).
  - unfold validClock, sampleInstant. simpl. lia.
  - split; vm_compute; discriminate.
Defined.

(** ** Cycling through the views *)

Lemma currentIndex_found (views : list gostring) (i : nat) (v : gostring) (k : Z) :
  NoDup views -> views !! i = Some v ->
  currentIndex views (Some v) k = k + Z.of_nat i.
Proof.
  revert i k. induction views as [| w views IH]; intros i k Hnd Hi; [discriminate |].
  apply NoDup_cons in Hnd as [Hw Hnd]. simpl.
  destruct i as [| i]; simpl in Hi.
  - injection Hi as ->. rewrite bool_decide_eq_true_2 by reflexivity. lia.
  - rewrite bool_decide_eq_false_2.
    + rewrite (IH i (k + 1) Hnd Hi). lia.
    + intros E. injection E as ->. apply Hw.
      apply list_elem_of_lookup. exists i. exact Hi.
Qed.

Lemma SwitchView_at (views : list gostring) (i : nat) (v : gostring) (next : bool) :
  NoDup views -> (2 <= length views)%nat -> views !! i = Some v ->
  SwitchView views (Some v) next
  = Some (views !! (if next then (i + 1) mod length views
                    else (i + length views - 1) mod length views)%nat).
Proof.
  intros Hnd Hlen Hi. pose proof (lookup_lt_Some _ _ _ Hi) as Hlt.
  unfold SwitchView. destruct (Z.of_nat (length views) <? 2) eqn:E; [lia |].
  rewrite (currentIndex_found views i v 0 Hnd Hi).
  assert (Hidx : forall j : nat,
            index views (Z.rem (Z.of_nat j) (Z.of_nat (length views)))
            = views !! (j mod length views)%nat).
  { intros j. rewrite Z.rem_mod_nonneg by lia. rewrite <- Nat2Z.inj_mod.
    unfold index. destruct (Z.of_nat (j mod length views) <? 0) eqn:E0.
    { apply Z.ltb_lt in E0. pose proof (Nat2Z.is_nonneg (j mod length views)).
      exfalso. apply (Z.lt_irrefl 0). eapply Z.le_lt_trans; eassumption. }
    rewrite Nat2Z.id. reflexivity. }
  assert (Hsome : forall j : nat, exists w, views !! (j mod length views)%nat = Some w).
  { intros j. apply lookup_lt_is_Some_2. apply Nat.mod_upper_bound. lia. }
  destruct next.
  - replace (0 + Z.of_nat i + 1) with (Z.of_nat (i + 1)) by lia.
    rewrite Hidx. destruct (Hsome (i + 1)%nat) as [w ->]. reflexivity.
  - replace (0 + Z.of_nat i - 1 + Z.of_nat (length views))
      with (Z.of_nat (i + length views - 1)) by lia.
    rewrite Hidx. destruct (Hsome (i + length views - 1)%nat) as [w ->]. reflexivity.
Qed.

(** X23. [NextView] and [PrevView] cycle through the views: with two or
    more views of distinct names and the view at position i current,
    [NextView] makes the view at (i + 1) mod n current and [PrevView] the
    one at (i - 1) mod n, neither panics, and each undoes the other. With
    fewer than two views nothing changes. *)
Theorem switch_view_cycle (views : list gostring) (i : nat) (v : gostring) :
  NoDup views -> views !! i = Some v ->
  ((length views < 2)%nat ->
     NextView views (Some v) = Some (Some v) /\ PrevView views (Some v) = Some (Some v))
  /\ ((2 <= length views)%nat ->
      exists nxt prv,
        views !! ((i + 1) mod length views)%nat = Some nxt
        /\ views !! ((i + length views - 1) mod length views)%nat = Some prv
        /\ NextView views (Some v) = Some (Some nxt)
        /\ PrevView views (Some v) = Some (Some prv)
        /\ PrevView views (Some nxt) = Some (Some v)
        /\ NextView views (Some prv) = Some (Some v)).
Proof.
  intros Hnd Hi. pose proof (lookup_lt_Some _ _ _ Hi) as Hlt. split.
  - intros Hlen. unfold NextView, PrevView, SwitchView.
    destruct (Z.of_nat (length views) <? 2) eqn:E; [split; reflexivity | lia].
  - intros Hlen. set (n := length views) in *.
    assert (Hn : ((i + 1) mod n < n)%nat) by (apply Nat.mod_upper_bound; lia).
    assert (Hp : ((i + n - 1) mod n < n)%nat) by (apply Nat.mod_upper_bound; lia).
    destruct (lookup_lt_is_Some_2 views _ Hn) as [nxt Hnxt].
    destruct (lookup_lt_is_Some_2 views _ Hp) as [prv Hprv].
    exists nxt, prv. split; [exact Hnxt |]. split; [exact Hprv |].
    unfold NextView, PrevView.
    rewrite (SwitchView_at views i v true Hnd Hlen Hi).
    rewrite (SwitchView_at views i v false Hnd Hlen Hi).
    rewrite (SwitchView_at views _ nxt false Hnd Hlen Hnxt).
    rewrite (SwitchView_at views _ prv true Hnd Hlen Hprv).
    fold n. rewrite Hnxt, Hprv.
    split; [reflexivity |]. split; [reflexivity |].
    assert (E1 : (((i + 1) mod n + n - 1) mod n = i)%nat).
    { destruct (decide (i + 1 = n)%nat) as [En | En].
      - rewrite En, Nat.Div0.mod_same. simpl. 
        replace (n - 1)%nat with i by lia. apply Nat.mod_small. lia.
      - rewrite (Nat.mod_small (i + 1)) by lia.
        replace (i + 1 + n - 1)%nat with (i + 1 * n)%nat by lia.
        rewrite Nat.Div0.mod_add. apply Nat.mod_small. lia. }
    assert (E2 : (((i + n - 1) mod n + 1) mod n = i)%nat).
    { destruct i as [| i'].
      - rewrite Nat.add_0_l. rewrite (Nat.mod_small (n - 1)) by lia.
        replace (n - 1 + 1)%nat with n by lia. apply Nat.Div0.mod_same.
      - replace (S i' + n - 1)%nat with (i' + 1 * n)%nat by lia.
        rewrite Nat.Div0.mod_add. rewrite (Nat.mod_small i') by lia.
        replace (i' + 1)%nat with (S i') by lia. apply Nat.mod_small. lia. }
    rewrite E1, E2, Hi. split; reflexivity.
Qed.

Lemma switch_view_cycle_witness :
  NextView [lit "top"; lit "bottom1"; lit "help"] (Some (lit "help")) = Some (Some (lit "top"))
  /\ PrevView [lit "top"; lit "bottom1"; lit "help"] (Some (lit "top"))
     = Some (Some (lit "help")).
Proof.
  assert (Hnd : NoDup [lit "top"; lit "bottom1"; lit "help"]).
  { repeat (apply NoDup_cons_2;
            [intros Hin; repeat (apply elem_of_cons in Hin as [Hin | Hin];
                                 [discriminate |]);
             apply elem_of_nil in Hin; exact Hin |]).
    apply NoDup_nil_2. }
  destruct (switch_view_cycle [lit "top"; lit "bottom1"; lit "help"] 2 (lit "help")
              Hnd eq_refl) as [_ H].
  destruct (H ltac:(simpl; lia)) as [nxt [prv [Hn [Hp [H1 [H2 [H3 H4]]]]]]].
  injection Hn as <-. split; [exact H1 | exact H3].
Defined.
